(** * Prompt-GAOKAO: objective scoring and teacher grading

    A shallow embedding of the scoring and grading engine of the
    repository:

    - [obj/analysis/auto_scoring.py]     (class [AutoScorer])
    - [sub/AIRun/teacher_grading.py]     (class [TeacherGradingSystem])
    - [sub/AIRun/regrade_zero_scores.py] (class [ReGradingSystem])

    The values [json.load] returns are an inductive type; a [str] is its
    sequence of Unicode code points; a [dict] and a [set] are stdpp's
    [gmap] and [gset]; a Python [float] is a binary64 primitive float, so
    that the arithmetic of the scorer is the arithmetic of the
    interpreter.  The files, the remote grader and the clock are an
    explicit world threaded through the stateful functions; an exception
    is a result [None] (or [false]) that the caller's handler matches.

    The functions of the interpreter and of its libraries that the
    source calls and whose tables or grammars are not in the repository
    are parameters: the Unicode upper case and white space, [json.loads],
    [float] on a [str], [re.search], [time.strftime], [Path.with_suffix].
    Every statement holds for all of them.

    What a walk of the results directory finds is an argument of the
    entry points ([run_scoring], the two [run]s, the scan and the last
    statistics); what they print as their totals is what they return.

    A write fails as [json.dump] does on a document that has no UTF-8
    encoding (a [str] with a surrogate, which a JSON escape of the file or
    a reply of the grader can bring in): the file was opened for writing
    and is left truncated, and the exception goes to the handler of the
    caller.

    Not modelled: a failure of the file system itself (a file that was
    read and cannot be opened for writing, a full disk), the messages
    printed (but the one of a skipped record), an interruption of the
    process. *)

From Stdlib Require Import ZArith NArith List Bool Ascii String Lia.
From Stdlib Require Import Floats.
From stdpp Require Import base option list gmap sets sorting.

Set Warnings "-register-all".

Local Open Scope Z_scope.

(** ** Strings *)

(** A Python [str]: a sequence of code points. *)
Abbreviation pystr := (list N).

(** The literals of the source are written in UTF-8 and decoded to
    code points. *)
Fixpoint utf8_decode (bytes : list N) (pending : nat) (acc : N) : pystr :=
  match bytes with
  | [] => []
  | b :: rest =>
      match pending with
      | O =>
          if (b <? 128)%N then b :: utf8_decode rest 0 0%N
          else if (b <? 224)%N then utf8_decode rest 1 (b - 192)%N
          else if (b <? 240)%N then utf8_decode rest 2 (b - 224)%N
          else utf8_decode rest 3 (b - 240)%N
      | S O => (acc * 64 + (b - 128))%N :: utf8_decode rest 0 0%N
      | S n => utf8_decode rest n (acc * 64 + (b - 128))%N
      end
  end.

Definition u (s : string) : pystr :=
  utf8_decode (map (fun a => N.of_nat (nat_of_ascii a)) (list_ascii_of_string s)) 0 0%N.

Definition is_AZ (c : N) : bool := ((65 <=? c) && (c <=? 90))%N.
Definition is_az (c : N) : bool := ((97 <=? c) && (c <=? 122))%N.

Section Unicode.

(** [str.upper()] follows the Unicode character database of the
    interpreter, which is not part of the repository: what it does to a
    code point outside ASCII is a parameter.  (It may produce ASCII
    letters: the upper case of U+00DF is "SS".) *)
Variable upper_nonascii : N -> pystr.

Definition upper_char (c : N) : pystr :=
  if (c <? 128)%N then [if is_az c then (c - 32)%N else c]
  else upper_nonascii c.

(** [s.upper()] *)
Definition upper (s : pystr) : pystr := flat_map upper_char s.

(** [re.findall(r'[A-Z]', s)]: the one-character matches, left to right. *)
Definition findall_AZ (s : pystr) : list pystr :=
  map (fun c => [c]) (filter (fun c => is_AZ c = true) s).

End Unicode.

(** *** The order of [str] values: lexicographic on code points. *)

Fixpoint pystr_compare (a b : pystr) : comparison :=
  match a, b with
  | [], [] => Eq
  | [], _ :: _ => Lt
  | _ :: _, [] => Gt
  | x :: a', y :: b' =>
      match N.compare x y with
      | Eq => pystr_compare a' b'
      | c => c
      end
  end.

Definition pystr_le (a b : pystr) : Prop := pystr_compare a b <> Gt.
Definition pystr_lt (a b : pystr) : Prop := pystr_compare a b = Lt.

#[global] Instance pystr_le_dec a b : Decision (pystr_le a b).
Proof. unfold pystr_le. apply _. Defined.

(** [sorted(list(set(l)))] on a list of strings: the iteration order of
    the set is erased by the sort. *)
Definition sorted_set (l : list pystr) : list pystr :=
  merge_sort pystr_le (elements (list_to_set l : gset pystr)).

(** *** The [str] methods the graders use *)

Fixpoint starts_with (pre s : pystr) : bool :=
  match pre, s with
  | [], _ => true
  | _ :: _, [] => false
  | a :: pre', b :: s' => (a =? b)%N && starts_with pre' s'
  end.

(** [sub in s] *)
Fixpoint contains (sub s : pystr) : bool :=
  starts_with sub s ||
  match s with
  | [] => false
  | _ :: s' => contains sub s'
  end.

(** [s.split(sep)] for a separator that is not empty: [skip] counts the
    characters of a separator still to pass, [cur] is the piece being
    read. *)
Fixpoint split_go (sep s : pystr) (skip : nat) (cur : pystr) : list pystr :=
  match s with
  | [] => [cur]
  | c :: s' =>
      match skip with
      | S k => split_go sep s' k cur
      | O =>
          if starts_with sep s
          then cur :: split_go sep s' (length sep - 1) []
          else split_go sep s' 0 (cur ++ [c])
      end
  end.

Definition split (sep s : pystr) : list pystr := split_go sep s 0 [].

(** The repair of [regrade_zero_scores.py], line 183: [re.sub] doubles
    every backslash that is not followed by one of the characters that
    continue a JSON escape (the double quote, the backslash, the slash
    and the letters b, f, n, r, t, u). *)
Definition json_escape_letter (c : N) : bool :=
  existsb (N.eqb c) ([34; 92; 47]%N ++ u "bfnrtu").

Fixpoint escape_backslashes (s : pystr) : pystr :=
  match s with
  | [] => []
  | c :: s' =>
      if (c =? 92)%N then
        match s' with
        | d :: _ =>
            if json_escape_letter d then c :: escape_backslashes s'
            else c :: c :: escape_backslashes s'
        | [] => [c; c]
        end
      else c :: escape_backslashes s'
  end.

(** [re.sub(r'```json|```', '', s)] *)
Fixpoint remove_fences_go (s : pystr) (skip : nat) : pystr :=
  match s with
  | [] => []
  | c :: s' =>
      match skip with
      | S k => remove_fences_go s' k
      | O =>
          if starts_with (u "```json") s then remove_fences_go s' 6
          else if starts_with (u "```") s then remove_fences_go s' 2
          else c :: remove_fences_go s' 0
      end
  end.

Definition remove_fences (s : pystr) : pystr := remove_fences_go s 0.

Section Strip.

(** [str.isspace] on one character: a property of the Unicode database. *)
Variable isspace : N -> bool.

Fixpoint lstrip (s : pystr) : pystr :=
  match s with
  | [] => []
  | c :: s' => if isspace c then lstrip s' else s
  end.

(** [s.strip()] *)
Definition strip (s : pystr) : pystr := rev (lstrip (rev (lstrip s))).

End Strip.

(** ** Floats *)

(** [float(z)] for an [int]: correctly rounded; [None] is the
    [OverflowError] of an integer beyond the range of a double. *)
Definition float_of_Z (z : Z) : option float :=
  match binary_normalize prec emax z 0 false with
  | S754_infinity _ => None
  | x => Some (SF2Prim x)
  end.

(** [a / b] on two non-negative [int]s, [b] not zero: true division,
    correctly rounded. *)
Definition int_truediv (a b : nat) : float :=
  match Z.of_nat a, Z.of_nat b with
  | Zpos p, Zpos q =>
      SF2Prim (SFdiv prec emax (S754_finite false p 0) (S754_finite false q 0))
  | _, _ => PrimFloat.zero
  end.

(** Round-half-even of [m / 2^k] to an integer. *)
Definition div2k_half_even (m : Z) (k : Z) : Z :=
  let d := Z.shiftl 1 k in
  let q := m / d in
  let r := m mod d in
  match Z.compare (2 * r) d with
  | Lt => q
  | Gt => q + 1
  | Eq => if Z.even q then q else q + 1
  end.

(** [round(x, 2)] on a [float]: infinities and NaN round to themselves;
    a finite [x] goes to the decimal with two digits nearest to its exact
    value (ties to even), and back to the nearest double. *)
Definition round2 (x : float) : float :=
  match Prim2SF x with
  | S754_finite s m e =>
      let n := if (0 <=? e)%Z then Z.shiftl (Zpos m * 100) e
               else div2k_half_even (Zpos m * 100) (- e) in
      match n with
      | Zpos p =>
          SF2Prim (SFdiv prec emax (S754_finite s p 0) (S754_finite false 100 0))
      | _ => if s then PrimFloat.neg_zero else PrimFloat.zero
      end
  | _ => x
  end.

(** ** Values decoded by [json.load] *)

Inductive pyval : Type :=
  | PNone
  | PBool (b : bool)
  | PInt (z : Z)
  | PFloat (f : float)
  | PStr (s : pystr)
  | PList (l : list pyval)
  | PDict (d : gmap pystr pyval).

Abbreviation pydict := (gmap pystr pyval).

(** [d.get(k, default)] *)
Definition dict_get (d : pydict) (k : pystr) (default : pyval) : pyval :=
  match d !! k with Some v => v | None => default end.

(** [k in v] for a [str] [k]: a key of a [dict], an element of a [list],
    a substring of a [str]; [None] is the [TypeError] of the other
    types. *)
Definition py_in (k : pystr) (v : pyval) : option bool :=
  match v with
  | PDict d => Some (bool_decide (is_Some (d !! k)))
  | PList l =>
      Some (existsb (fun x => match x with
                              | PStr s => bool_decide (s = k)
                              | _ => false
                              end) l)
  | PStr s => Some (contains k s)
  | _ => None
  end.

(** The truth value of [v]. *)
Definition truthy (v : pyval) : bool :=
  match v with
  | PNone => false
  | PBool b => b
  | PInt z => negb (z =? 0)
  | PFloat f => negb (PrimFloat.eqb f 0%float)
  | PStr s => negb (Nat.eqb (length s) 0)
  | PList l => negb (Nat.eqb (length l) 0)
  | PDict d => negb (Nat.eqb (size d) 0)
  end.

(** What [float(v)] does. *)
Inductive conversion : Type :=
  | Converted (f : float)
  | ValueOrTypeError              (* [ValueError] or [TypeError] *)
  | OtherError.                   (* [OverflowError] *)

Section FloatOf.

(** [float(s)] on a [str]; [None] is its [ValueError].  The grammar of
    float literals is the interpreter's. *)
Variable float_of_str : pystr -> option float.

Definition py_float (v : pyval) : conversion :=
  match v with
  | PFloat f => Converted f
  | PInt z =>
      match float_of_Z z with
      | Some f => Converted f
      | None => OtherError
      end
  | PBool b => Converted (if b then 1%float else 0%float)
  | PStr s =>
      match float_of_str s with
      | Some f => Converted f
      | None => ValueOrTypeError
      end
  | _ => ValueOrTypeError
  end.

End FloatOf.

(** ** The world of the batch processors

    The files (what a path holds), the replies the remote grader will
    give to the next requests, the clock in milliseconds, and the trace
    of what was done. *)

Inductive file : Type :=
  | JsonFile (document : pyval)   (* [json.load] returns the document *)
  | OtherFile.                    (* [json.load] raises *)

(** What one [requests.post] comes back with. *)
Inductive reply : Type :=
  | NetError
      (* the call raises: no connection, a timeout *)
  | Http (status : Z) (content : option pystr).
      (* a response; [content] is
         [response.json()['choices'][0]['message']['content']] when that
         expression evaluates to a [str], [None] when the evaluation or
         the first use of its value raises *)

(** The request text is built from five fields of the record (their
    rendering into the template is not modelled). *)
Record prompt : Type := Prompt {
  p_question : pyval;
  p_answer : pyval;
  p_analysis : pyval;
  p_score : pyval;
  p_model_output : pyval
}.

Inductive event : Type :=
  | EvPost (request : prompt)         (* [requests.post] *)
  | EvSleep (ms : N)                  (* [time.sleep] *)
  | EvWrite (path : pystr)            (* a file rewritten by [json.dump] *)
  | EvRecordError (i : nat)           (* the message of a skipped record *)
  | EvWriteError (path : pystr).      (* [json.dump] raised on a file opened
                                         for writing *)

Record world : Type := World {
  w_fs : gmap pystr file;
  w_remote : list reply;
  w_clock : N;
  w_trace : list event
}.

Definition emit (e : event) (w : world) : world :=
  World (w_fs w) (w_remote w) (w_clock w) (w_trace w ++ [e]).

(** [with open(path, 'r') as f: data = json.load(f)] *)
Definition read_json (path : pystr) (w : world) : option pyval :=
  match w_fs w !! path with
  | Some (JsonFile document) => Some document
  | _ => None
  end.

(** The code points [U+D800] to [U+DFFF]: the UTF-8 codec refuses them
    ([UnicodeEncodeError]: surrogates not allowed). *)
Definition is_surrogate (c : N) : bool := ((55296 <=? c) && (c <=? 57343))%N.

Definition encodable_str (s : pystr) : bool :=
  forallb (fun c => negb (is_surrogate c)) s.

(** The documents whose JSON text, written with [ensure_ascii=False], can
    be encoded: no key and no string of theirs holds a surrogate. *)
Fixpoint encodable (v : pyval) : bool :=
  match v with
  | PStr s => encodable_str s
  | PList l => forallb encodable l
  | PDict d =>
      map_fold (fun key value rest => encodable_str key && encodable value && rest)
               true d
  | _ => true
  end.

(** [with open(path, 'w') as f: json.dump(data, f, ensure_ascii=False, ...)];
    [false] is the exception of a document that cannot be encoded: the
    file was emptied by [open] and holds at most the beginning of the
    text, which [json.load] refuses. *)
Definition write_json (path : pystr) (data : pyval) (w : world) : bool * world :=
  if encodable data then
    (true,
     emit (EvWrite path)
       (World (<[path := JsonFile data]> (w_fs w)) (w_remote w) (w_clock w)
              (w_trace w)))
  else
    (false,
     emit (EvWriteError path)
       (World (<[path := OtherFile]> (w_fs w)) (w_remote w) (w_clock w)
              (w_trace w))).

(** [time.sleep(ms / 1000)] *)
Definition sleep (ms : N) (w : world) : world :=
  emit (EvSleep ms)
    (World (w_fs w) (w_remote w) (w_clock w + ms)%N (w_trace w)).

(** [requests.post(...)]: the next reply of the remote grader; with no
    reply left the call times out. *)
Definition post (request : prompt) (w : world) : reply * world :=
  let w' := emit (EvPost request) w in
  match w_remote w with
  | [] => (NetError, w')
  | r :: rest => (r, World (w_fs w') rest (w_clock w') (w_trace w'))
  end.

Definition is_post (e : event) : bool :=
  match e with EvPost _ => true | _ => false end.

Definition is_write (e : event) : bool :=
  match e with EvWrite _ => true | _ => false end.

Definition is_write_error (e : event) : bool :=
  match e with EvWriteError _ => true | _ => false end.

(** The requests, the file writes and the failed writes of a trace. *)
Definition posts (t : list event) : list event := List.filter is_post t.
Definition writes (t : list event) : list event := List.filter is_write t.
Definition write_errors (t : list event) : list event :=
  List.filter is_write_error t.

(** ** auto_scoring.py *)

Module AutoScorer.

Section Scorer.

Variable upper_nonascii : N -> pystr.

(** [re.findall(r'[A-Z]', s.upper())] *)
Definition letters (s : pystr) : list pystr :=
  findall_AZ (upper upper_nonascii s).

Definition item_letters (item : pyval) : list pystr :=
  match item with
  | PStr s => letters s
  | _ => []
  end.

Definition _normalize_answer (answer : pyval) : list pystr :=
  match answer with
  | PStr s => sorted_set (letters s)
  | PList items => sorted_set (flat_map item_letters items)
  | _ => []
  end.

(** [all(len(opt) == 1 for opt in standard_answer)] *)
Definition is_separate_format (standard_answer : list pystr) : bool :=
  forallb (fun opt => Nat.eqb (length opt) 1) standard_answer.

(** The union of [_normalize_answer(opt)] over the elements. *)
Definition all_standard_options (standard_answer : list pystr) : gset pystr :=
  foldl (fun acc opt => acc ∪ list_to_set (_normalize_answer (PStr opt)))
        ∅ standard_answer.

(** The ratio when the standard set is [std] and the model set [mdl]
    (lines 59-66 and 86-91). *)
Definition proportion (std mdl : gset pystr) : float :=
  let correct_matches := size (std ∩ mdl) in
  let total_standard := size std in
  if Nat.eqb total_standard 0
  then (if Nat.eqb (size mdl) 0 then 1%float else 0%float)
  else int_truediv correct_matches total_standard.

Definition score_ratio (standard_answer model_answer : list pystr) : float :=
  let standard_set : gset pystr := list_to_set standard_answer in
  let model_set : gset pystr := list_to_set model_answer in
  if is_separate_format standard_answer then
    proportion standard_set model_set
  else
    let all := all_standard_options standard_answer in
    if bool_decide (model_set = all) then 1%float
    else if bool_decide (model_set ∖ all ≠ ∅) then 0%float
    else proportion all model_set.

(** [question_score * ratio]: [None] is the [TypeError] of a score that
    is not a number, or the [OverflowError] of an [int] no double holds. *)
Definition times_ratio (question_score : pyval) (ratio : float) : option float :=
  match question_score with
  | PFloat f => Some (PrimFloat.mul f ratio)
  | PInt z => f ← float_of_Z z; Some (PrimFloat.mul f ratio)
  | PBool b => Some (PrimFloat.mul (if b then 1%float else 0%float) ratio)
  | _ => None
  end.

Definition _calculate_score (standard_answer model_answer : list pystr)
    (question_score : pyval) : option float :=
  round2 <$> times_ratio question_score (score_ratio standard_answer model_answer).

Inductive question_type : Type := separate | combined.

Definition _determine_question_type (standard_answer : list pystr) : question_type :=
  if is_separate_format standard_answer then separate else combined.

(** The body of the [try] of one record (lines 121-136): the score, or
    [None] when an exception is raised. *)
Definition record_score (question : pyval) : option float :=
  match question with
  | PDict q =>
      let standard_answer := dict_get q (u "standard_answer") (PList []) in
      let model_answer := dict_get q (u "model_answer") (PList []) in
      let std_normalized := _normalize_answer standard_answer in
      let model_normalized := _normalize_answer model_answer in
      let question_score := dict_get q (u "score") (PFloat 3%float) in
      _calculate_score std_normalized model_normalized question_score
  | _ => None
  end.

(** [question["model_score"] = score] *)
Definition set_model_score (question : pyval) (score : float) : pyval :=
  match question with
  | PDict q => PDict (<[u "model_score" := PFloat score]> q)
  | _ => question
  end.

(** The state of the loop over the records. *)
Record tally : Type := Tally {
  t_questions : list pyval;      (* the records behind the cursor *)
  processed_count : nat;
  total_score : float;
  t_errors : list nat            (* positions reported as failed *)
}.

Definition loop_step (t : tally) (i : nat) (question : pyval) : tally :=
  match record_score question with
  | Some score =>
      Tally (t_questions t ++ [set_model_score question score])
            (S (processed_count t))
            (PrimFloat.add (total_score t) score)
            (t_errors t)
  | None =>
      Tally (t_questions t ++ [question]) (processed_count t) (total_score t)
            (t_errors t ++ [i])
  end.

Fixpoint loop_from (i : nat) (questions : list pyval) (t : tally) : tally :=
  match questions with
  | [] => t
  | question :: rest => loop_from (S i) rest (loop_step t i question)
  end.

(** [for i, question in enumerate(questions): ...] *)
Definition score_loop (questions : list pyval) : tally :=
  loop_from 0 questions (Tally [] 0 0%float []).

Definition float_of_nat (n : nat) : float :=
  match float_of_Z (Z.of_nat n) with Some f => f | None => PrimFloat.infinity end.

(** [_process_single_file]: the world after, and the pair returned. *)
Definition _process_single_file (file_path : pystr) (w : world)
    : world * (nat * pyval) :=
  match read_json file_path w with
  | Some (PDict data) =>
      match dict_get data (u "questions") (PList []) with
      | PList questions =>
          let t := score_loop questions in
          let w1 := foldl (fun w i => emit (EvRecordError i) w) w (t_errors t) in
          if (0 <? processed_count t)%nat then
            let data' := <[u "questions" := PList (t_questions t)]> data in
            let avg_score :=
              PrimFloat.div (total_score t) (float_of_nat (processed_count t)) in
            match write_json file_path (PDict data') w1 with
            | (true, w2) => (w2, (processed_count t, PFloat avg_score))
            | (false, w2) =>
                (* the handler of line 166 *)
                (w2, (0%nat, PInt 0))
            end
          else (w1, (0%nat, PInt 0))
      | PStr s =>
          (* the characters are the records: none has a [get] *)
          (foldl (fun w i => emit (EvRecordError i) w) w (seq 0 (length s)),
           (0%nat, PInt 0))
      | PDict d =>
          (* the keys are the records *)
          (foldl (fun w i => emit (EvRecordError i) w) w (seq 0 (size d)),
           (0%nat, PInt 0))
      | _ => (w, (0%nat, PInt 0))
      end
  | _ => (w, (0%nat, PInt 0))
  end.

(** [scan_result_files]: [found] is what [rglob] finds under the results
    directory, in its order; [None] when the directory does not exist. *)
Definition scan_result_files (found : option (list pystr)) : list pystr :=
  match found with
  | None => []
  | Some json_files => json_files
  end.

(** [json_files[:max_files]]: a negative bound counts from the end. *)
Definition slice_to (max_files : Z) (json_files : list pystr) : list pystr :=
  if 0 <=? max_files then take (Z.to_nat max_files) json_files
  else take (length json_files - Z.to_nat (- max_files)) json_files.

(** The counters of [run_scoring]. *)
Record totals : Type := Totals {
  completed_files : nat;
  total_processed : nat;
  total_score_sum : float
}.

(** [avg_score * processed_count], evaluated for a count that is not
    zero: the average is then the [float] of line 157. *)
Definition weighted (avg_score : pyval) (processed_count : nat) : float :=
  match avg_score with
  | PFloat f => PrimFloat.mul f (float_of_nat processed_count)
  | _ => 0%float
  end.

(** The body of the loop of lines 207-213. *)
Definition run_step (acc : totals * world) (file_path : pystr) : totals * world :=
  let '(t, w) := acc in
  let '(w', (processed_count, avg_score)) := _process_single_file file_path w in
  if (0 <? processed_count)%nat then
    (Totals (S (completed_files t))
            (total_processed t + processed_count)
            (PrimFloat.add (total_score_sum t) (weighted avg_score processed_count)),
     w')
  else (t, w').

(** The files [run_scoring] goes through: [if max_files:] is false for
    [None] and for 0. *)
Definition limited (max_files : option Z) (json_files : list pystr) : list pystr :=
  match max_files with
  | Some n => if n =? 0 then json_files else slice_to n json_files
  | None => json_files
  end.

(** [run_scoring]: the counters of its last message ([None] when it
    returns before the loop) and the world after. *)
Definition run_scoring (found : option (list pystr)) (max_files : option Z)
    (w : world) : option totals * world :=
  let json_files := scan_result_files found in
  if Nat.eqb (length json_files) 0 then (None, w)
  else
    let '(t, w') :=
      foldl run_step (Totals 0 0 0%float, w) (limited max_files json_files) in
    (Some t, w').

(** [total_score_sum / total_processed if total_processed > 0 else 0] *)
Definition overall_avg (t : totals) : pyval :=
  if (0 <? total_processed t)%nat then
    PFloat (PrimFloat.div (total_score_sum t) (float_of_nat (total_processed t)))
  else PInt 0.

End Scorer.

End AutoScorer.

(** ** What the two graders share *)

(** The verdict read by the callers of [call_teacher_api]: the two
    entries of the dictionary it returns. *)
Record verdict : Type := Verdict {
  teacher_analysis : pyval;
  teacher_score : float
}.

Definition k_example : pystr := u "example".
Definition k_teacher_score : pystr := u "teacher_score".
Definition k_teacher_analysis : pystr := u "teacher_analysis".
Definition k_grading_timestamp : pystr := u "grading_timestamp".

(** [construct_grading_prompt] (the same in both classes, up to the
    wording of the template). *)
Definition construct_grading_prompt (question_data : pydict) : prompt :=
  Prompt (dict_get question_data (u "question") (PStr (u "未提供题目")))
         (dict_get question_data (u "answer") (PStr (u "未提供标准答案")))
         (dict_get question_data (u "analysis") (PStr (u "未提供解析")))
         (dict_get question_data (u "score") (PInt 0))
         (dict_get question_data (u "model_output") (PStr (u "未提供模型输出"))).

(** [time.sleep(2 ** attempt)], in milliseconds. *)
Definition backoff (attempt : nat) : N := (1000 * 2 ^ N.of_nat attempt)%N.

(** How the handling of one reply ends. *)
Inductive outcome : Type :=
  | Returned (v : verdict)   (* [return] of a verdict *)
  | Incomplete               (* a required field is missing *)
  | Raised.                  (* an exception for the outer handler *)

Section Replies.

Variable isspace : N -> bool.
Variable float_of_str : pystr -> option float.

(** The payload of a reply (lines 160-163 of [teacher_grading.py], 169-172
    of [regrade_zero_scores.py]). *)
Definition payload (content : pystr) : pystr :=
  if contains (u "```json") content then
    strip isspace (nth 0 (split (u "```") (nth 1 (split (u "```json") content) [])) [])
  else if contains (u "```") content then
    strip isspace (nth 0 (split (u "```") (nth 1 (split (u "```") content) [])) [])
  else content.

(** The check of the decoded reply and the coercion of its score (lines
    168-177 and 195-204). *)
Definition validate (grading_result : pyval) : outcome :=
  match py_in k_teacher_analysis grading_result with
  | None => Raised
  | Some false => Incomplete
  | Some true =>
      match py_in k_teacher_score grading_result with
      | None => Raised
      | Some false => Incomplete
      | Some true =>
          match grading_result with
          | PDict d =>
              match py_float float_of_str (dict_get d k_teacher_score PNone) with
              | Converted f =>
                  Returned (Verdict (dict_get d k_teacher_analysis PNone) f)
              | ValueOrTypeError =>
                  Returned (Verdict (dict_get d k_teacher_analysis PNone) 0%float)
              | OtherError => Raised
              end
          | _ =>
              (* a list or a string: indexing it by a string raises
                 [TypeError], and so does the assignment in the handler *)
              Raised
          end
      end
  end.

End Replies.

(** The document [data] once the list behind its key [example] has
    become [examples] (the list is mutated in place; a document without
    the key is not given one). *)
Definition with_examples (data : pydict) (examples : list pyval) : pyval :=
  match data !! k_example with
  | Some _ => PDict (<[k_example := PList examples]> data)
  | None => PDict data
  end.

(** The backup before the first mutation ([teacher_grading.py], lines
    257-261; [regrade_zero_scores.py], lines 357-361); [false] is the
    exception of its [json.dump]. *)
Definition backup_file (backup : bool) (with_suffix : pystr -> pystr -> pystr)
    (suffix : pystr) (file_path : pystr) (data : pyval) (w : world)
    : bool * world :=
  if backup then
    let backup_path := with_suffix file_path suffix in
    match w_fs w !! backup_path with
    | None => write_json backup_path data w
    | Some _ => (true, w)
    end
  else (true, w).

(** ** teacher_grading.py *)

Module TeacherGradingSystem.

Section System.

Variable isspace : N -> bool.
Variable json_loads : pystr -> option pyval.
Variable float_of_str : pystr -> option float.
Variable strftime : N -> pystr.
Variable with_suffix : pystr -> pystr -> pystr.

(** The fields of [self] the methods read. *)
Variable max_retries : nat.
Variable backup : bool.

(** The default of [max_retries] in [__init__]. *)
Definition default_max_retries : nat := 3.

(** The handling of the content of a response of status 200 (lines
    157-185). *)
Definition parse_reply (content : pystr) : outcome :=
  let content := payload isspace content in
  match json_loads content with
  | Some grading_result => validate float_of_str grading_result
  | None => Returned (Verdict (PStr content) 0%float)
  end.

(** The body of [for attempt in range(self.max_retries)]. *)
Fixpoint attempt_loop (attempts : list nat) (request : prompt) (w : world)
    : option verdict * world :=
  match attempts with
  | [] => (None, w)
  | attempt :: rest =>
      let handler (w : world) :=
        if (attempt <? max_retries - 1)%nat then sleep (backoff attempt) w else w in
      let '(r, w1) := post request w in
      match r with
      | NetError => attempt_loop rest request (handler w1)
      | Http status content =>
          if status =? 200 then
            match content with
            | None => attempt_loop rest request (handler w1)
            | Some content =>
                match parse_reply content with
                | Returned v => (Some v, w1)
                | Incomplete => attempt_loop rest request w1
                | Raised => attempt_loop rest request (handler w1)
                end
            end
          else attempt_loop rest request (sleep (backoff attempt) w1)
      end
  end.

Definition call_teacher_api (request : prompt) (w : world)
    : option verdict * world :=
  attempt_loop (seq 0 max_retries) request w.

Definition failure_analysis : pystr := u "评分系统调用失败，无法给出评分".

(** [grade_single_question]; [None] is an exception. *)
Definition grade_single_question (question_data : pyval) (w : world)
    : option (pyval * world) :=
  match py_in k_teacher_score question_data with
  | None => None
  | Some has_score =>
      match (if has_score then py_in k_teacher_analysis question_data
             else Some false) with
      | None => None
      | Some true => Some (question_data, w)
      | Some false =>
          match question_data with
          | PDict q =>
              let '(grading_result, w1) :=
                call_teacher_api (construct_grading_prompt q) w in
              let q1 :=
                match grading_result with
                | Some v =>
                    <[k_teacher_score := PFloat (teacher_score v)]>
                      (<[k_teacher_analysis := teacher_analysis v]> q)
                | None =>
                    <[k_teacher_score := PFloat 0%float]>
                      (<[k_teacher_analysis := PStr failure_analysis]> q)
                end in
              Some (PDict (<[k_grading_timestamp := PStr (strftime (w_clock w1))]> q1),
                    w1)
          | _ => None      (* no [get] on a list or a string *)
          end
      end
  end.

(** [sum(1 for ex in examples if 'teacher_score' in ex)]; [None] is the
    [TypeError] of a record that is no container. *)
Fixpoint count_graded (examples : list pyval) : option nat :=
  match examples with
  | [] => Some 0%nat
  | ex :: rest =>
      b ← py_in k_teacher_score ex;
      n ← count_graded rest;
      Some (if b : bool then S n else n)
  end.

(** The loop of lines 265-275 over the records [todo], the records
    [done] being behind the cursor; [false] is an exception. *)
Fixpoint grade_loop (file_path : pystr) (data : pydict)
    (done todo : list pyval) (graded_count : nat) (w : world)
    : bool * list pyval * world :=
  match todo with
  | [] => (true, done, w)
  | example :: rest =>
      match py_in k_teacher_score example with
      | None => (false, done ++ todo, w)
      | Some true => grade_loop file_path data (done ++ [example]) rest graded_count w
      | Some false =>
          match grade_single_question example w with
          | None => (false, done ++ todo, w)
          | Some (example', w1) =>
              let graded_count := S graded_count in
              let '(saved, w2) :=
                if (graded_count mod 5 =? 0)%nat then
                  write_json file_path
                    (with_examples data (done ++ example' :: rest)) w1
                else (true, w1) in
              if saved then
                grade_loop file_path data (done ++ [example']) rest graded_count
                  (sleep 500 w2)
              else (false, done ++ example' :: rest, w2)
          end
      end
  end.

(** [process_json_file]: whether it succeeded, and the world after. *)
Definition process_json_file (file_path : pystr) (w : world) : bool * world :=
  match read_json file_path w with
  | Some (PDict data) =>
      let examples := dict_get data k_example (PList []) in
      if negb (truthy examples) then (false, w)
      else
        match examples with
        | PList exs =>
            match count_graded exs with
            | None => (false, w)
            | Some already_graded =>
                if (length exs - already_graded =? 0)%nat then (true, w)
                else
                  let '(saved, w1) :=
                    backup_file backup with_suffix (u ".json.backup") file_path
                      (PDict data) w in
                  if saved then
                    let '(ok, exs', w2) := grade_loop file_path data [] exs 0 w1 in
                    if ok then write_json file_path (with_examples data exs') w2
                    else (false, w2)
                  else (false, w1)
            end
        | PStr s =>
            (* the records are the characters: none contains the key,
               and the first has no [get] *)
            (false,
             (backup_file backup with_suffix (u ".json.backup") file_path
                (PDict data) w).2)
        | PDict d =>
            (* the records are the keys *)
            if forallb (contains k_teacher_score) (map fst (map_to_list d))
            then (true, w)
            else
              (false,
               (backup_file backup with_suffix (u ".json.backup") file_path
                  (PDict data) w).2)
        | _ => (false, w)      (* no [len] *)
        end
  | _ => (false, w)
  end.

(** The statistics read back from a file that succeeded (lines 334-338):
    [len(examples)] and the records that contain the key; [None] is an
    exception. *)
Definition graded_statistics (json_file : pystr) (w : world) : option (nat * nat) :=
  match read_json json_file w with
  | Some (PDict data) =>
      match dict_get data k_example (PList []) with
      | PList exs => n ← count_graded exs; Some (length exs, n)
      | PStr s =>
          (* the records are the characters: none contains the key *)
          Some (length s, 0%nat)
      | PDict d =>
          (* the records are the keys *)
          Some (size d,
                length (List.filter (contains k_teacher_score) (map fst (map_to_list d))))
      | _ => None
      end
  | _ => None
  end.

(** The counters of [run]. *)
Record counters : Type := Counters {
  total_files : nat;
  total_questions : nat;
  total_graded : nat
}.

(** The body of the loop of lines 328-338; without counters an
    exception is on its way out of [run]. *)
Definition run_file (acc : option counters * world) (json_file : pystr)
    : option counters * world :=
  match acc with
  | (None, w) => (None, w)
  | (Some c, w) =>
      let '(success, w1) := process_json_file json_file w in
      if success : bool then
        match graded_statistics json_file w1 with
        | Some (questions, graded) =>
            (Some (Counters (S (total_files c)) (total_questions c + questions)
                            (total_graded c + graded)), w1)
        | None => (None, w1)
        end
      else
        (Some (Counters (S (total_files c)) (total_questions c) (total_graded c)), w1)
  end.

(** How [run] ends. *)
Inductive run_result : Type :=
  | NothingToDo                 (* it returns before the loop *)
  | Summary (c : counters)      (* the counters of its last message *)
  | Escaped.                    (* an exception leaves it *)

(** The directories [run] goes through: [if strategy_filter:] is false
    for [None] and for the empty string. *)
Definition filtered (strategy_filter : option pystr)
    (strategy_dirs : list (pystr * list pystr)) : list (pystr * list pystr) :=
  match strategy_filter with
  | Some f =>
      if Nat.eqb (length f) 0 then strategy_dirs
      else List.filter (fun d => contains f (fst d)) strategy_dirs
  | None => strategy_dirs
  end.

(** [run]: [tree] is what the walk finds, for each strategy directory its
    name and its JSON files, the directories and the files of each in the
    order of [sorted]; [None] when the results directory does not
    exist.  (A directory without JSON files adds nothing.) *)
Definition run (strategy_filter : option pystr)
    (tree : option (list (pystr * list pystr))) (w : world) : run_result * world :=
  match tree with
  | None => (NothingToDo, w)
  | Some strategy_dirs =>
      let strategy_dirs := filtered strategy_filter strategy_dirs in
      if Nat.eqb (length strategy_dirs) 0 then (NothingToDo, w)
      else
        let '(c, w') :=
          foldl (fun acc d => foldl run_file acc (snd d))
                (Some (Counters 0 0 0), w) strategy_dirs in
        (match c with Some c => Summary c | None => Escaped end, w')
  end.

End System.

End TeacherGradingSystem.

(** ** regrade_zero_scores.py *)

Module ReGradingSystem.

Section System.

Variable isspace : N -> bool.
Variable json_loads : pystr -> option pyval.
Variable float_of_str : pystr -> option float.
Variable strftime : N -> pystr.
Variable with_suffix : pystr -> pystr -> pystr.

(** [re.search(pattern, text)]: the first group of the leftmost match. *)
Variable re_search : pystr -> pystr -> option pystr.

Variable max_retries : nat.
Variable backup : bool.

(** The default of [max_retries] in [__init__]. *)
Definition default_max_retries : nat := 3.

Definition score_patterns : list pystr :=
  [ [34%N] ++ u "?teacher_score" ++ [34%N] ++ u "?\s*[：:]\s*([0-9.]+)";
    u "最终得分\s*[：:]\s*([0-9.]+)";
    u "得分\s*[：:]\s*([0-9.]+)";
    u "评分\s*[：:]\s*([0-9.]+)";
    u "(\d+\.?\d*)\s*分" ].

(** The loop of lines 241-248: the number of the first pattern that
    matches and whose group converts; 0.0 when there is none. *)
Fixpoint first_score (patterns : list pystr) (content : pystr) : float :=
  match patterns with
  | [] => 0%float
  | pattern :: rest =>
      match re_search pattern content with
      | Some group =>
          match float_of_str group with
          | Some score => score
          | None => first_score rest content
          end
      | None => first_score rest content
      end
  end.

Definition _extract_from_raw_text (content : pystr) : verdict :=
  let score := first_score score_patterns content in
  let analysis := strip isspace content in
  let analysis := strip isspace (remove_fences analysis) in
  Verdict (PStr analysis) score.

(** The handling of the content of a response of status 200 (lines
    167-209). *)
Definition parse_reply (content : pystr) : outcome :=
  let content := payload isspace content in
  let decoded :=
    match json_loads content with
    | Some grading_result => Some grading_result
    | None => json_loads (escape_backslashes content)
    end in
  match decoded with
  | None => Returned (_extract_from_raw_text content)
  | Some grading_result =>
      match validate float_of_str grading_result with
      | Incomplete => Returned (_extract_from_raw_text content)
      | o => o
      end
  end.

Fixpoint attempt_loop (attempts : list nat) (request : prompt) (w : world)
    : option verdict * world :=
  match attempts with
  | [] => (None, w)
  | attempt :: rest =>
      let handler (w : world) :=
        if (attempt <? max_retries - 1)%nat then sleep (backoff attempt) w else w in
      let '(r, w1) := post request w in
      match r with
      | NetError => attempt_loop rest request (handler w1)
      | Http status content =>
          if status =? 200 then
            match content with
            | None => attempt_loop rest request (handler w1)
            | Some content =>
                match parse_reply content with
                | Returned v => (Some v, w1)
                | Incomplete | Raised => attempt_loop rest request (handler w1)
                end
            end
          else attempt_loop rest request (sleep (backoff attempt) w1)
      end
  end.

Definition call_teacher_api (request : prompt) (w : world)
    : option verdict * world :=
  attempt_loop (seq 0 max_retries) request w.

(** [regrade_question] on a record that is a dictionary; with the
    record, the verdict it was given. *)
Definition regrade_question (question_data : pydict) (w : world)
    : pydict * option verdict * world :=
  let '(grading_result, w1) :=
    call_teacher_api (construct_grading_prompt question_data) w in
  match grading_result with
  | Some v =>
      (<[k_grading_timestamp := PStr (strftime (w_clock w1))]>
         (<[k_teacher_score := PFloat (teacher_score v)]>
            (<[k_teacher_analysis := teacher_analysis v]> question_data)),
       grading_result, w1)
  | None => (question_data, None, w1)
  end.

(** [f > z] for a [float] and an [int]: the comparison is exact. *)
Definition float_gt_Z (f : float) (z : Z) : bool :=
  match Prim2SF f with
  | S754_nan => false
  | S754_infinity s => negb s
  | S754_zero _ => z <? 0
  | S754_finite s m e =>
      let v := if s then Zneg m else Zpos m in
      if 0 <=? e then z <? Z.shiftl v e else Z.shiftl z (- e) <? v
  end.

(** [new_score > old_score] (line 375); [None] is its [TypeError].  After
    a verdict the new score is a [float]; without one it is the old
    score itself. *)
Definition improved (grading_result : option verdict) (old_score : pyval)
    : option bool :=
  match grading_result with
  | Some v =>
      match old_score with
      | PFloat g => Some (PrimFloat.ltb g (teacher_score v))
      | PInt z => Some (float_gt_Z (teacher_score v) z)
      | PBool b =>
          Some (PrimFloat.ltb (if b then 1%float else 0%float) (teacher_score v))
      | _ => None
      end
  | None =>
      match old_score with
      | PNone | PDict _ => None
      | _ => Some false
      end
  end.

(** Whether the scan selects a record (lines 318-319); [None] is an
    exception. *)
Definition is_zero_score (ex : pyval) : option bool :=
  match ex with
  | PDict q =>
      match dict_get q k_teacher_score PNone with
      | PNone => Some false
      | teacher_score =>
          match py_float float_of_str teacher_score with
          | Converted f => Some (PrimFloat.eqb f 0%float)
          | _ => None
          end
      end
  | _ => None
  end.

(** [for idx, ex in enumerate(examples): ...] *)
Fixpoint zero_indices_from (idx : nat) (examples : list pyval)
    : option (list nat) :=
  match examples with
  | [] => Some []
  | ex :: rest =>
      b ← is_zero_score ex;
      zero_indices ← zero_indices_from (S idx) rest;
      Some (if b : bool then idx :: zero_indices else zero_indices)
  end.

(** The body of the [try] of one file, after it was read. *)
Definition file_zero_indices (data : pyval) : option (list nat) :=
  match data with
  | PDict d =>
      match dict_get d k_example (PList []) with
      | PList examples => zero_indices_from 0 examples
      | PStr s => if Nat.eqb (length s) 0 then Some [] else None
      | PDict keys => if Nat.eqb (size keys) 0 then Some [] else None
      | _ => None
      end
  | _ => None
  end.

Definition scan_file (w : world) (zero_score_map : gmap pystr (list nat))
    (json_file : pystr) : gmap pystr (list nat) :=
  match read_json json_file w with
  | Some data =>
      match file_zero_indices data with
      | Some (idx :: rest) => <[json_file := idx :: rest]> zero_score_map
      | _ => zero_score_map
      end
  | None => zero_score_map
  end.

(** [scan_and_collect_zero_scores]: [listing] is what the directory walk
    finds, the JSON files of each strategy directory in the order of the
    directories; [None] when the results directory does not exist. *)
Definition scan_and_collect_zero_scores (listing : option (list (list pystr)))
    (w : world) : gmap pystr (list nat) :=
  match listing with
  | None => ∅
  | Some strategy_dirs =>
      foldl (fun zero_score_map json_files =>
               foldl (scan_file w) zero_score_map json_files)
            ∅ strategy_dirs
  end.

(** The loop of lines 367-384 of [process_file]; the indices come from
    [enumerate] and are never negative. *)
Fixpoint regrade_loop (file_path : pystr) (data : pydict)
    (examples : list pyval) (zero_indices : list nat) (regraded_count : nat)
    (w : world) : bool * list pyval * world :=
  match zero_indices with
  | [] => (true, examples, w)
  | idx :: rest =>
      match examples !! idx with
      | None => regrade_loop file_path data examples rest regraded_count w
      | Some (PDict q) =>
          let old_score := dict_get q k_teacher_score (PFloat 0%float) in
          let '(q', grading_result, w1) := regrade_question q w in
          let examples := <[idx := PDict q']> examples in
          let regraded_count := S regraded_count in
          match improved grading_result old_score with
          | None => (false, examples, w1)
          | Some _ =>
              let '(saved, w2) :=
                if (regraded_count mod 5 =? 0)%nat then
                  write_json file_path (with_examples data examples) w1
                else (true, w1) in
              if saved then
                regrade_loop file_path data examples rest regraded_count
                  (sleep 500 w2)
              else (false, examples, w2)
          end
      | Some _ => (false, examples, w)
      end
  end.

(** [process_file]: whether it succeeded, and the world after. *)
Definition process_file (file_path : pystr) (zero_indices : list nat)
    (w : world) : bool * world :=
  match read_json file_path w with
  | Some (PDict data) =>
      let '(saved, w1) :=
        backup_file backup with_suffix (u ".json.regrade_backup") file_path
          (PDict data) w in
      if saved then
        match dict_get data k_example (PList []) with
        | PList examples =>
            let '(ok, examples', w2) :=
              regrade_loop file_path data examples zero_indices 0 w1 in
            if ok then write_json file_path (with_examples data examples') w2
            else (false, w2)
        | examples =>
            (* a string, a dictionary or a value with no length: the first
               index within its length raises; without one the document
               is saved as it is *)
            match examples with
            | PStr s =>
                if forallb (fun idx => length s <=? idx)%nat zero_indices
                then write_json file_path (PDict data) w1
                else (false, w1)
            | PDict keys =>
                if forallb (fun idx => size keys <=? idx)%nat zero_indices
                then write_json file_path (PDict data) w1
                else (false, w1)
            | _ =>
                if Nat.eqb (length zero_indices) 0
                then write_json file_path (PDict data) w1
                else (false, w1)
            end
        end
      else (false, w1)
  | _ => (false, w)
  end.

(** The records counted by the loop of lines 464-467 before it ends or
    raises. *)
Fixpoint count_zero (examples : list pyval) : nat :=
  match examples with
  | [] => 0%nat
  | ex :: rest =>
      match is_zero_score ex with
      | Some b => ((if b then 1 else 0) + count_zero rest)%nat
      | None => 0%nat
      end
  end.

(** What one file adds to [total_questions] and to [total_zero] (lines
    457-470): an exception ends the file and keeps what was added. *)
Definition file_statistics (w : world) (json_file : pystr) : nat * nat :=
  match read_json json_file w with
  | Some (PDict d) =>
      match dict_get d k_example (PList []) with
      | PList examples => (length examples, count_zero examples)
      | PStr s => (length s, 0%nat)
      | PDict keys => (size keys, 0%nat)
      | _ => (0%nat, 0%nat)
      end
  | _ => (0%nat, 0%nat)
  end.

(** [print_final_statistics]: the two totals it prints; [None] when the
    results directory does not exist.  (Its walk does not sort the
    directories; the totals do not depend on the order.) *)
Definition print_final_statistics (listing : option (list (list pystr)))
    (w : world) : option (nat * nat) :=
  match listing with
  | None => None
  | Some strategy_dirs =>
      Some (foldl (fun acc json_file =>
                     let '(questions, zero) := file_statistics w json_file in
                     ((acc.1 + questions)%nat, (acc.2 + zero)%nat))
                  (0%nat, 0%nat) (concat strategy_dirs))
  end.

(** The keys of the map of the scan in the order of their insertion:
    the files of the walk that have an entry, each at its first
    occurrence. *)
Fixpoint insertion_order (zero_score_map : gmap pystr (list nat))
    (json_files seen : list pystr) : list (pystr * list nat) :=
  match json_files with
  | [] => []
  | json_file :: rest =>
      match zero_score_map !! json_file with
      | Some zero_indices =>
          if bool_decide (json_file ∈ seen)
          then insertion_order zero_score_map rest seen
          else (json_file, zero_indices)
               :: insertion_order zero_score_map rest (json_file :: seen)
      | None => insertion_order zero_score_map rest seen
      end
  end.

(** What the last messages of [run] report. *)
Record report : Type := Report {
  success_count : nat;
  fail_count : nat;
  total_questions : nat;
  final_statistics : option (nat * nat)
}.

(** The body of the loop of lines 423-428. *)
Definition run_file (acc : nat * nat * world) (entry : pystr * list nat)
    : nat * nat * world :=
  let '(success_count, fail_count, w) := acc in
  let '(success, w') := process_file (fst entry) (snd entry) w in
  if success : bool then (S success_count, fail_count, w')
  else (success_count, S fail_count, w').

(** [run]: [None] when there is nothing to regrade.  (The backups it
    writes do not end in [.json]: the walk of the last statistics finds
    the files of the scan.) *)
Definition run (listing : option (list (list pystr))) (w : world)
    : option report * world :=
  let zero_score_map := scan_and_collect_zero_scores listing w in
  if Nat.eqb (size zero_score_map) 0 then (None, w)
  else
    let entries :=
      insertion_order zero_score_map
        (match listing with Some dirs => concat dirs | None => [] end) [] in
    let total_questions := foldr (fun e n => (length (snd e) + n)%nat) 0%nat entries in
    let '(success_count, fail_count, w') := foldl run_file (0%nat, 0%nat, w) entries in
    (Some (Report success_count fail_count total_questions
             (print_final_statistics listing w')), w').

End System.

End ReGradingSystem.

(** * Properties

    ** The vocabulary of the statements *)

(** The ratio of the separate policy in the words of the specification,
    on two lists of distinct letters. *)
Definition recall_ratio (standard candidate : list pystr) : float :=
  if Nat.eqb (length standard) 0 then
    if Nat.eqb (length candidate) 0 then 1%float else 0%float
  else
    int_truediv (length (filter (fun x => x ∈ candidate) standard))
                (length standard).

(** A record of the objective pipeline with the three fields the scorer
    reads. *)
Definition scoring_record (standard candidate : list pystr) (score : Z) : pyval :=
  PDict {[ u "standard_answer" := PList (PStr <$> standard);
           u "model_answer" := PList (PStr <$> candidate);
           u "score" := PInt score ]}.

(** The record as the scoring pass leaves it. *)
Definition scored_record (upper_nonascii : N -> pystr) (question : pyval) : pyval :=
  match AutoScorer.record_score upper_nonascii question with
  | Some score => AutoScorer.set_model_score question score
  | None => question
  end.

(** The keys the scorer reads. *)
Definition scoring_inputs : list pystr :=
  [u "standard_answer"; u "model_answer"; u "score"].

(** A reply that is no verdict: a network failure or a status that is
    not 200. *)
Definition failed (r : reply) : Prop :=
  match r with
  | NetError => True
  | Http status _ => status <> 200
  end.

(** The events of attempts that each fail and back off: a request, then
    a sleep of [2 ** attempt] seconds, in milliseconds. *)
Definition backoff_steps (request : prompt) (attempts : list nat) : list event :=
  flat_map (fun attempt => [EvPost request; EvSleep (1000 * 2 ^ N.of_nat attempt)%N])
           attempts.

(** What the events of a call that exhausts [max_retries] attempts look
    like: every attempt but the last is a request followed by its
    backoff; the last request is followed by [tail]. *)
Definition exhausted_trace (request : prompt) (max_retries : nat)
    (tail : list event) : list event :=
  match max_retries with
  | O => []
  | S m => backoff_steps request (seq 0 m) ++ EvPost request :: tail
  end.

(** A record that is a dictionary. *)
Definition is_record (ex : pyval) : Prop := exists q, ex = PDict q.

(** A record that carries the key [k]. *)
Definition has_key (k : pystr) (ex : pyval) : Prop :=
  exists q, ex = PDict q /\ is_Some (q !! k).

(** Whether the grading loop passes over a record ([teacher_grading.py],
    line 266). *)
Definition is_graded (ex : pyval) : bool :=
  match py_in k_teacher_score ex with
  | Some true => true
  | _ => false
  end.

(** [after] holds the records of [before] that were graded already, at
    their positions. *)
Definition keeps_graded (before after : list pyval) : Prop :=
  length after = length before
  /\ forall i ex, before !! i = Some ex -> is_graded ex = true -> after !! i = Some ex.

(** The records the grading loop does not pass over. *)
Definition ungraded (exs : list pyval) : nat :=
  length (List.filter (fun ex => negb (is_graded ex)) exs).

Section Selection.

Variable float_of_str : pystr -> option float.

(** The record at position [i] has a teacher score that is present, not
    null, and equal to 0.0 as a number. *)
Definition zero_scored (exs : list pyval) (i : nat) : Prop :=
  exists (q : pydict) v f,
    exs !! i = Some (PDict q)
    /\ q !! k_teacher_score = Some v
    /\ v <> PNone
    /\ py_float float_of_str v = Converted f
    /\ PrimFloat.eqb f 0%float = true.

(** A record the scan reads without an exception: a dictionary whose
    teacher score, when it has one, is null or converts to a number. *)
Definition scannable (ex : pyval) : Prop :=
  exists q : pydict,
    ex = PDict q
    /\ forall v, q !! k_teacher_score = Some v ->
         v = PNone \/ exists f, py_float float_of_str v = Converted f.

(** What the scan of one file contributes. *)
Definition file_entry (w : world) (json_file : pystr) : option (list nat) :=
  match read_json json_file w with
  | Some data =>
      match ReGradingSystem.file_zero_indices float_of_str data with
      | Some (idx :: rest) => Some (idx :: rest)
      | _ => None
      end
  | None => None
  end.

End Selection.

(** A record of the data model of the regrading pass: a dictionary
    whose teacher score, when it has one, is a number. *)
Definition regradable (ex : pyval) : Prop :=
  exists q : pydict,
    ex = PDict q
    /\ match q !! k_teacher_score with
       | None | Some (PFloat _) | Some (PInt _) | Some (PBool _) => True
       | Some _ => False
       end.

(** The texts among the items of a list answer. *)
Definition texts (items : list pyval) : list pystr :=
  omap (fun item => match item with PStr s => Some s | _ => None end) items.

(** The one-letter strings A to Z. *)
Definition alphabet : list pystr := map (fun c => [c]) (map N.of_nat (seq 65 26)).

(** A value the scorer can multiply by a ratio: a [float], a [bool], an
    [int] within the range of a double. *)
Definition numeric (v : pyval) : Prop :=
  match v with
  | PFloat _ | PBool _ => True
  | PInt z => is_Some (float_of_Z z)
  | _ => False
  end.

(** The count the scoring pass returns for a file in the world [w]. *)
Definition count_in (upper_nonascii : N -> pystr) (w : world) (file_path : pystr) : nat :=
  (AutoScorer._process_single_file upper_nonascii file_path w).2.1.

Definition backtick : N := 96%N.
Definition backslash : N := 92%N.

(** A pattern that gives no number: it does not match, or its group
    does not convert. *)
Definition gives_no_score (float_of_str : pystr -> option float)
    (re_search : pystr -> pystr -> option pystr) (content pattern : pystr) : Prop :=
  match re_search pattern content with
  | Some group => float_of_str group = None
  | None => True
  end.

(** The keys a grading writes. *)
Definition grading_outputs : list pystr :=
  [k_teacher_score; k_teacher_analysis; k_grading_timestamp].

(** [after] is [before] with records at positions of [zero_indices]
    regraded: the other positions hold what they held, and a record
    differs from the one it replaces in the fields a grading writes
    only. *)
Definition regraded_from (zero_indices : list nat) (before after : list pyval) : Prop :=
  length after = length before
  /\ (forall i, i ∉ zero_indices -> after !! i = before !! i)
  /\ (forall i ex, before !! i = Some ex ->
        after !! i = Some ex
        \/ exists q q' : pydict,
             ex = PDict q /\ after !! i = Some (PDict q')
             /\ forall k, k ∉ grading_outputs -> q' !! k = q !! k).

(** The flagged indices that are positions of [exs]: those the repair
    loop goes into. *)
Definition in_range (zero_indices : list nat) (exs : list pyval) : list nat :=
  List.filter (fun idx => idx <? length exs)%nat zero_indices.

(** The records flagged in the entries of a scan. *)
Definition flagged (entries : list (pystr * list nat)) : nat :=
  foldr (fun e n => (length e.2 + n)%nat) 0%nat entries.

(** ** Sample worlds

    A stand-in for each function of the interpreter the graders call,
    and small documents, for the closed instances of the statements. *)

Module Sample.

Definition upper_nonascii (c : N) : pystr := [c].

Definition isspace (c : N) : bool :=
  existsb (N.eqb c) [9; 10; 11; 12; 13; 28; 29; 30; 31; 32]%N.

(** A decoder that knows the empty object only. *)
Definition json_loads (s : pystr) : option pyval :=
  if bool_decide (s = u "{}") then Some (PDict ∅) else None.

(** [float] on a text of one ASCII digit. *)
Definition float_of_str (s : pystr) : option float :=
  match s with
  | [c] => if ((48 <=? c) && (c <=? 57))%N then float_of_Z (Z.of_N c - 48) else None
  | _ => None
  end.

(** The first score pattern, on a text that starts with its label. *)
Definition re_search (pattern text : pystr) : option pystr :=
  if starts_with (u "teacher_score: ") text then Some (drop 15 text) else None.

Definition strftime (clock : N) : pystr := u "2025-01-01 00:00:00".

(** [Path.with_suffix] on a path that ends in [.json]. *)
Definition with_suffix (path suffix : pystr) : pystr :=
  take (length path - 5) path ++ suffix.

Definition file_path : pystr := u "Strategy_0_CoT/math.json".

(** A record graded in full, and one that has a score only. *)
Definition graded_record : pydict :=
  {[ u "question" := PStr (u "1 + 1 = ?");
     k_teacher_score := PFloat 7%float;
     k_teacher_analysis := PStr (u "ok") ]}.

Definition score_only_record : pydict :=
  {[ u "question" := PStr (u "1 + 1 = ?");
     k_teacher_score := PFloat 7%float ]}.

Definition zero_record : pydict :=
  {[ k_teacher_score := PFloat 0%float;
     k_teacher_analysis := PStr (u "?") ]}.

Definition document (exs : list pyval) : pydict :=
  {[ k_example := PList exs; u "category" := PStr (u "math") ]}.

Definition world_of (exs : list pyval) : world :=
  World {[ file_path := JsonFile (PDict (document exs)) ]} [] 0 [].

(** A record of the objective pipeline whose score is no number. *)
Definition unscorable : pyval :=
  PDict {[ u "standard_answer" := PList [PStr (u "A")];
           u "model_answer" := PList [PStr (u "A")];
           u "score" := PStr (u "three") ]}.

(** Three replies that are no verdict. *)
Definition failing_world : world :=
  World ∅ [NetError; Http 500 None; Http 429 (Some (u "busy"))] 0 [].

(** Two files of the objective pipeline, with a field the scorer does
    not read. *)
Definition first_path : pystr := u "results/a.json".
Definition second_path : pystr := u "results/b.json".

Definition questions_document (questions : list pyval) : pydict :=
  {[ u "questions" := PList questions; u "model" := PStr (u "m") ]}.

Definition scoring_world : world :=
  World {[ first_path
             := JsonFile (PDict (questions_document [scoring_record [u "A"] [u "A"] 3]));
           second_path
             := JsonFile (PDict (questions_document [scoring_record [u "B"] [u "A"] 3])) ]}
        [] 0 [].

(** A record that was never graded. *)
Definition ungraded_record : pydict := {[ u "question" := PStr (u "1 + 1 = ?") ]}.

(** The second score pattern, on a text that starts with its label. *)
Definition re_search_final (pattern text : pystr) : option pystr :=
  if bool_decide (pattern = nth 1 ReGradingSystem.score_patterns []) then
    if starts_with (u "最终得分: ") text then Some (drop 6 text) else None
  else None.

(** Two strategy directories of one file each. *)
Definition other_path : pystr := u "Strategy_1_Plain/math.json".

Definition two_strategies : list (pystr * list pystr) :=
  [ (u "Strategy_0_CoT", [file_path]); (u "Strategy_1_Plain", [other_path]) ].

Definition two_strategies_world : world :=
  World {[ file_path := JsonFile (PDict (document [PDict ungraded_record]));
           other_path := JsonFile (PDict (document [PDict ungraded_record])) ]}
        [] 0 [].

(** A network failure, then a reply that is no JSON. *)
Definition recovering_world : world :=
  World ∅ [NetError; Http 200 (Some (u "teacher_score: 8"))] 0 [].

(** [str.upper] where it is not the identity outside ASCII, on two
    characters that are no Latin letters: U+00DF (sharp s) gives [SS] and
    U+0131 (dotless i) gives [I]; the other characters as themselves. *)
Definition unicode_upper (c : N) : pystr :=
  if (c =? 223)%N then u "SS" else if (c =? 305)%N then u "I" else [c].

(** A file of the objective pipeline with a record whose scoring raises,
    and the file without that record. *)
Definition skipping_world : world :=
  World {[ first_path
             := JsonFile (PDict (questions_document
                                   [scoring_record [u "A"] [u "A"] 3; unscorable])) ]}
        [] 0 [].

Definition skipped_world : world :=
  World {[ first_path
             := JsonFile (PDict (questions_document [scoring_record [u "A"] [u "A"] 3])) ]}
        [] 0 [].

(** A text that has no UTF-8 encoding: the lone surrogate U+D800, as
    [json.load] returns it for the escape [\ud800]. *)
Definition lone_surrogate : pystr := [55296%N].

(** The file of [skipping_world] when the record that is skipped is that
    text. *)
Definition surrogate_world : world :=
  World {[ first_path
             := JsonFile (PDict (questions_document
                                   [scoring_record [u "A"] [u "A"] 3; PStr lone_surrogate])) ]}
        [] 0 [].

(** A record to grade whose question holds the surrogate. *)
Definition surrogate_record : pydict := {[ u "question" := PStr lone_surrogate ]}.

End Sample.

(** ** The order of strings and the sorted set *)

Section StringOrder.

Lemma pystr_compare_refl a : pystr_compare a a = Eq.
Proof. induction a as [|x a IH]; simpl; [done|]. by rewrite N.compare_refl. Qed.

Lemma pystr_compare_eq a b : pystr_compare a b = Eq -> a = b.
Proof.
  revert b. induction a as [|x a IH]; intros [|y b]; simpl; try done.
  destruct (N.compare_spec x y); try done. intros H'. subst. f_equal. by apply IH.
Qed.

Lemma pystr_compare_antisym a b : pystr_compare b a = CompOpp (pystr_compare a b).
Proof.
  revert b. induction a as [|x a IH]; intros [|y b]; simpl; try done.
  rewrite (N.compare_antisym x y). destruct (N.compare x y); simpl; auto.
Qed.

Lemma pystr_compare_lt_trans a b c :
  pystr_compare a b = Lt -> pystr_compare b c = Lt -> pystr_compare a c = Lt.
Proof.
  revert b c. induction a as [|x a IH]; intros [|y b] [|z c]; simpl; try done.
  destruct (N.compare_spec x y), (N.compare_spec y z); try done; subst; intros H1 H2.
  - rewrite N.compare_refl. eauto.
  - by apply N.compare_lt_iff in H0 as ->.
  - by apply N.compare_lt_iff in H as ->.
  - assert (x < z)%N as ->%N.compare_lt_iff by lia. done.
Qed.

#[global] Instance pystr_le_total : Total pystr_le.
Proof.
  intros a b. unfold pystr_le. rewrite (pystr_compare_antisym a b).
  destruct (pystr_compare a b); simpl; auto.
Qed.

#[global] Instance pystr_le_antisym : AntiSymm (=) pystr_le.
Proof.
  intros a b. unfold pystr_le. rewrite (pystr_compare_antisym a b).
  destruct (pystr_compare a b) eqn:E; simpl; try done.
  intros _ _. by apply pystr_compare_eq.
Qed.

#[global] Instance pystr_le_trans : Transitive pystr_le.
Proof.
  intros a b c. unfold pystr_le.
  destruct (pystr_compare a b) eqn:E1; try done; intros _.
  - apply pystr_compare_eq in E1 as ->. done.
  - destruct (pystr_compare b c) eqn:E2; try done; intros _.
    + apply pystr_compare_eq in E2 as <-. by rewrite E1.
    + by rewrite (pystr_compare_lt_trans _ _ _ E1 E2).
Qed.

Lemma pystr_le_lt a b : pystr_le a b -> a ≠ b -> pystr_lt a b.
Proof.
  unfold pystr_le, pystr_lt. destruct (pystr_compare a b) eqn:E; try done.
  apply pystr_compare_eq in E. done.
Qed.

Lemma elem_of_sorted_set x l : x ∈ sorted_set l <-> x ∈ l.
Proof.
  unfold sorted_set. rewrite merge_sort_Permutation.
  rewrite elem_of_elements. by rewrite elem_of_list_to_set.
Qed.

Lemma NoDup_sorted_set l : NoDup (sorted_set l).
Proof.
  unfold sorted_set. rewrite merge_sort_Permutation. apply NoDup_elements.
Qed.

Lemma StronglySorted_le_lt (l : list pystr) :
  StronglySorted pystr_le l -> NoDup l -> StronglySorted pystr_lt l.
Proof.
  induction 1 as [|x l Hs IH Hall]; intros Hnd; constructor.
  - apply IH. by apply NoDup_cons_1_2 in Hnd.
  - apply NoDup_cons in Hnd as [Hx _].
    rewrite Forall_forall in Hall |- *. intros y Hy.
    apply pystr_le_lt; [by apply Hall|]. intros ->. by apply Hx.
Qed.

Lemma sorted_set_increasing l : StronglySorted pystr_lt (sorted_set l).
Proof.
  apply StronglySorted_le_lt; [|apply NoDup_sorted_set].
  apply StronglySorted_merge_sort; apply _.
Qed.

End StringOrder.

(** ** The normalization of an answer *)

Section NormalizeFacts.

Variable upper_nonascii : N -> pystr.

Local Abbreviation to_upper := (upper upper_nonascii).
Local Abbreviation letters := (AutoScorer.letters upper_nonascii).
Local Abbreviation _normalize_answer := (AutoScorer._normalize_answer upper_nonascii).

Lemma elem_of_findall_AZ x s :
  x ∈ findall_AZ s <-> exists c, x = [c] /\ c ∈ s /\ is_AZ c = true.
Proof.
  unfold findall_AZ. rewrite list_elem_of_fmap. split.
  - intros (c & -> & Hc). apply list_elem_of_filter in Hc as [? ?]. eauto.
  - intros (c & -> & ? & ?). exists c. split; [done|]. by apply list_elem_of_filter.
Qed.

Lemma elem_of_upper c s :
  c ∈ to_upper s <-> exists d, d ∈ s /\ c ∈ upper_char upper_nonascii d.
Proof.
  unfold upper. rewrite list_elem_of_In, in_flat_map.
  split; intros (d & H1 & H2); exists d; by rewrite ?list_elem_of_In in *.
Qed.

Lemma upper_char_ascii_letter c d :
  (d < 128)%N -> is_AZ c = true ->
  c ∈ upper_char upper_nonascii d <-> d = c \/ d = (c + 32)%N.
Proof.
  intros Hd Hc. unfold upper_char. apply N.ltb_lt in Hd as ->.
  rewrite list_elem_of_singleton. unfold is_AZ, is_az in *.
  apply andb_true_iff in Hc as [?%N.leb_le ?%N.leb_le].
  destruct (_ && _) eqn:E.
  - apply andb_true_iff in E as [?%N.leb_le ?%N.leb_le]. lia.
  - apply andb_false_iff in E as [?%N.leb_gt | ?%N.leb_gt]; lia.
Qed.

Lemma elem_of_item_letters x items :
  x ∈ flat_map (AutoScorer.item_letters upper_nonascii) items <->
  exists s, PStr s ∈ items /\ x ∈ letters s.
Proof.
  rewrite list_elem_of_In, in_flat_map. split.
  - intros (item & H1 & H2). destruct item; simpl in H2; try done.
    exists s. by rewrite !list_elem_of_In.
  - intros (s & H1 & H2). exists (PStr s). by rewrite <- !list_elem_of_In.
Qed.

Lemma normalize_str_elem (s : pystr) (c : N) :
  [c] ∈ _normalize_answer (PStr s) <-> is_AZ c = true /\ c ∈ to_upper s.
Proof.
  simpl. rewrite elem_of_sorted_set. unfold AutoScorer.letters.
  rewrite elem_of_findall_AZ. split.
  - intros (c' & [= ->] & ? & ?). done.
  - intros [? ?]. eauto.
Qed.

Lemma normalize_single_letters (answer : pyval) (x : pystr) :
  x ∈ _normalize_answer answer -> exists c, x = [c] /\ is_AZ c = true.
Proof.
  intros Hx. destruct answer; simpl in Hx; try by apply elem_of_nil in Hx.
  - apply elem_of_sorted_set, elem_of_findall_AZ in Hx as (c & ? & ? & ?). eauto.
  - apply elem_of_sorted_set, elem_of_item_letters in Hx as (s & _ & Hx).
    apply elem_of_findall_AZ in Hx as (c & ? & ? & ?). eauto.
Qed.

(** C7.  [_normalize_answer] is total (it never raises) and returns a
    strictly increasing list of one-letter strings, each an upper-case
    Latin letter.  On a [str] the letters are those of the text in upper
    case ([answer.upper()]), not those of the text: a letter is found
    whether the text has it in upper or in lower case, whatever stands
    between the letters, and every letter found is in the upper case of
    one character of the text; on an ASCII text nothing else is found,
    but a character outside ASCII gives the letters of its upper case
    (the sharp s gives S).  A text whose upper case has no letter gives
    the empty list.  On a list the result is the
    union of the results of its [str] items; on any other value it is
    empty. *)
Theorem normalize_answer_sorted_letters (answer : pyval) :
  let r := _normalize_answer answer in
  StronglySorted pystr_lt r
  /\ (forall x, x ∈ r -> exists c, x = [c] /\ is_AZ c = true)
  /\ (forall s, answer = PStr s ->
        (forall c, [c] ∈ r <-> is_AZ c = true /\ c ∈ to_upper s)
        /\ (forall c, [c] ∈ r <->
              is_AZ c = true /\ exists d, d ∈ s /\ c ∈ upper_char upper_nonascii d)
        /\ (forall c, is_AZ c = true -> c ∈ s \/ (c + 32)%N ∈ s -> [c] ∈ r)
        /\ (Forall (fun d => (d < 128)%N) s ->
            forall c, [c] ∈ r -> c ∈ s \/ (c + 32)%N ∈ s)
        /\ ((forall c, c ∈ to_upper s -> is_AZ c = false) -> r = []))
  /\ (forall items, answer = PList items ->
        forall x, x ∈ r <-> exists s, PStr s ∈ items /\ x ∈ _normalize_answer (PStr s))
  /\ (match answer with
      | PStr _ | PList _ => True
      | _ => r = []
      end).
Proof.
  cbv zeta. split; [|split; [apply normalize_single_letters|split; [|split]]].
  - destruct answer; simpl; try apply sorted_set_increasing; constructor.
  - intros s ->. split; [apply normalize_str_elem|split; [|split; [|split]]].
    + intros c. by rewrite normalize_str_elem, elem_of_upper.
    + intros c Hc Hin. apply normalize_str_elem. split; [done|]. apply elem_of_upper.
      assert (Hup : forall d, (d < 128)%N -> d = c \/ d = (c + 32)%N ->
                              c ∈ upper_char upper_nonascii d).
      { intros d ? ?. by apply upper_char_ascii_letter. }
      unfold is_AZ in Hc. apply andb_true_iff in Hc as [?%N.leb_le ?%N.leb_le].
      destruct Hin as [Hin | Hin]; eexists; (split; [exact Hin|]);
        apply Hup; auto; lia.
    + intros Hascii c Hc. apply normalize_str_elem in Hc as [Hc Hin].
      apply elem_of_upper in Hin as (d & Hd & Hin).
      rewrite Forall_forall in Hascii.
      apply upper_char_ascii_letter in Hin; [|by apply Hascii|done].
      destruct Hin as [-> | ->]; auto.
    + intros Hnone.
      destruct (_normalize_answer (PStr s)) as [|x l] eqn:E; [done|].
      assert (Hx : x ∈ _normalize_answer (PStr s)) by (rewrite E; left).
      destruct (normalize_single_letters _ _ Hx) as (c & -> & Hc).
      apply normalize_str_elem in Hx as [_ Hx]. apply Hnone in Hx. congruence.
  - intros items -> x. simpl. rewrite elem_of_sorted_set, elem_of_item_letters.
    split; intros (s & ? & Hs); exists s; by rewrite elem_of_sorted_set in *.
  - destruct answer; done.
Qed.

End NormalizeFacts.

(** ** The score of a record *)

Section ScoreFacts.

Variable upper_nonascii : N -> pystr.

Local Abbreviation _normalize_answer := (AutoScorer._normalize_answer upper_nonascii).
Local Abbreviation _calculate_score := (AutoScorer._calculate_score upper_nonascii).
Local Abbreviation record_score := (AutoScorer.record_score upper_nonascii).

Lemma normalize_NoDup answer : NoDup (_normalize_answer answer).
Proof.
  destruct answer; simpl; try apply NoDup_nil_2; apply NoDup_sorted_set.
Qed.

Lemma normalize_is_separate answer :
  AutoScorer.is_separate_format (_normalize_answer answer) = true.
Proof.
  unfold AutoScorer.is_separate_format. apply forallb_forall.
  intros x Hx%list_elem_of_In.
  destruct (normalize_single_letters upper_nonascii answer x Hx) as (c & -> & _).
  done.
Qed.

Lemma size_list_to_set_inter (l1 l2 : list pystr) :
  NoDup l1 ->
  size ((list_to_set l1 : gset pystr) ∩ list_to_set l2)
  = length (filter (fun x => x ∈ l2) l1).
Proof.
  intros Hnd.
  assert ((list_to_set l1 : gset pystr) ∩ list_to_set l2
          = list_to_set (filter (fun x => x ∈ l2) l1)) as ->.
  { apply set_eq. intros x.
    rewrite elem_of_intersection, !elem_of_list_to_set, list_elem_of_filter.
    tauto. }
  apply size_list_to_set. by apply NoDup_filter.
Qed.

Lemma proportion_recall (l1 l2 : list pystr) :
  NoDup l1 -> NoDup l2 ->
  AutoScorer.proportion (list_to_set l1) (list_to_set l2) = recall_ratio l1 l2.
Proof.
  intros H1 H2. unfold AutoScorer.proportion, recall_ratio.
  rewrite size_list_to_set_inter by done.
  by rewrite !size_list_to_set.
Qed.

Lemma pipeline_ratio standard candidate :
  AutoScorer.score_ratio upper_nonascii (_normalize_answer standard) (_normalize_answer candidate)
  = recall_ratio (_normalize_answer standard) (_normalize_answer candidate).
Proof.
  unfold AutoScorer.score_ratio. rewrite normalize_is_separate.
  apply proportion_recall; apply normalize_NoDup.
Qed.

Lemma filter_elem_of_ext (l c c' : list pystr) :
  (forall x, x ∈ l -> x ∈ c <-> x ∈ c') ->
  filter (fun x => x ∈ c') l = filter (fun x => x ∈ c) l.
Proof.
  induction l as [|y l IH]; intros Hext; [done|].
  rewrite !filter_cons.
  rewrite IH by (intros x Hx; apply Hext; by right).
  destruct (decide (y ∈ c')) as [Hy|Hy], (decide (y ∈ c)) as [Hy'|Hy']; try done;
    exfalso;
    apply (Hext y (list_elem_of_here _ _)) in Hy
    || apply (Hext y (list_elem_of_here _ _)) in Hy'; done.
Qed.

Lemma recall_ratio_ext (l c c' : list pystr) :
  l <> [] -> (forall x, x ∈ l -> x ∈ c <-> x ∈ c') ->
  recall_ratio l c' = recall_ratio l c.
Proof.
  intros Hl Hext. unfold recall_ratio.
  destruct l as [|x l]; [done|]. cbn [length Nat.eqb].
  by rewrite (filter_elem_of_ext _ _ _ Hext).
Qed.

(** C6.  In the pipeline both answers are normalized first, and the score
    of a record is [round(question_score * ratio, 2)] where the ratio is
    that of the separate policy: the share of the standard letters the
    candidate has; 1.0 when both lists are empty and 0.0 when only the
    standard list is.  (This holds for every standard answer, so for
    those whose elements are single characters.)  Letters of the
    candidate outside the standard answer do not change the score:
    two candidates that hold the same standard letters score the same.
    The records ([A, C], [A], 10) and ([A, C], [A, C, D], 10) score 5.0
    and 10.0.  The rounding is that of [round]: the records
    ([A, B, C], [A], 10) and ([A, B, C], [A, B], 10), whose products are
    3.333333333333333 and 6.666666666666666, score 3.33 and 6.67, and
    a tie goes to the even digit: half of 0.25 scores 0.12 and half of
    0.75 scores 0.38. *)
Theorem separate_policy_score (standard candidate question_score : pyval) :
  let std := _normalize_answer standard in
  let mdl := _normalize_answer candidate in
  _calculate_score std mdl question_score
    = round2 <$> AutoScorer.times_ratio question_score (recall_ratio std mdl)
  /\ (forall q : pydict,
        dict_get q (u "standard_answer") (PList []) = standard ->
        dict_get q (u "model_answer") (PList []) = candidate ->
        dict_get q (u "score") (PFloat 3%float) = question_score ->
        record_score (PDict q)
        = round2 <$> AutoScorer.times_ratio question_score (recall_ratio std mdl))
  /\ (std = [] -> recall_ratio std mdl = if mdl is [] then 1%float else 0%float)
  /\ (forall candidate',
        std <> [] ->
        (forall x, x ∈ std -> x ∈ mdl <-> x ∈ _normalize_answer candidate') ->
        _calculate_score std (_normalize_answer candidate') question_score
        = _calculate_score std mdl question_score)
  /\ record_score (scoring_record [u "A"; u "C"] [u "A"] 10) = Some 5%float
  /\ record_score (scoring_record [u "A"; u "C"] [u "A"; u "C"; u "D"] 10)
     = Some 10%float
  /\ AutoScorer.times_ratio (PInt 10) (recall_ratio [u "A"; u "B"; u "C"] [u "A"])
     = Some 0x1.aaaaaaaaaaaaap+1%float              (* 3.333333333333333 *)
  /\ record_score (scoring_record [u "A"; u "B"; u "C"] [u "A"] 10)
     = Some 0x1.aa3d70a3d70a4p+1%float              (* 3.33 *)
  /\ AutoScorer.times_ratio (PInt 10) (recall_ratio [u "A"; u "B"; u "C"] [u "A"; u "B"])
     = Some 0x1.aaaaaaaaaaaaap+2%float              (* 6.666666666666666 *)
  /\ record_score (scoring_record [u "A"; u "B"; u "C"] [u "A"; u "B"] 10)
     = Some 0x1.aae147ae147aep+2%float              (* 6.67 *)
  /\ AutoScorer.times_ratio (PFloat 0.25) (recall_ratio [u "A"; u "B"] [u "A"])
     = Some 0.125%float
  /\ _calculate_score [u "A"; u "B"] [u "A"] (PFloat 0.25)
     = Some 0x1.eb851eb851eb8p-4%float              (* 0.12 *)
  /\ AutoScorer.times_ratio (PFloat 0.75) (recall_ratio [u "A"; u "B"] [u "A"])
     = Some 0.375%float
  /\ _calculate_score [u "A"; u "B"] [u "A"] (PFloat 0.75)
     = Some 0x1.851eb851eb852p-2%float.             (* 0.38 *)
Proof.
  cbv zeta. unfold AutoScorer._calculate_score at 1 2 3. rewrite pipeline_ratio.
  split; [done|]. split; [|split; [|split]].
  4: repeat match goal with |- _ /\ _ => split end.
  - intros q <- <- <-. unfold AutoScorer.record_score, AutoScorer._calculate_score.
    by rewrite pipeline_ratio.
  - intros ->. unfold recall_ratio. simpl. by destruct (_normalize_answer candidate).
  - intros candidate' Hne Hext. rewrite pipeline_ratio.
    by rewrite (recall_ratio_ext _ _ _ Hne Hext).
  - vm_compute. reflexivity.
  - vm_compute. reflexivity.
  - vm_compute. reflexivity.
  - vm_compute. reflexivity.
  - vm_compute. reflexivity.
  - vm_compute. reflexivity.
  - vm_compute. reflexivity.
  - vm_compute. reflexivity.
  - vm_compute. reflexivity.
  - vm_compute. reflexivity.
Qed.

(** C1.  Called on the raw standard answer [BC] and the candidate
    [B, C, D], [_calculate_score] takes the combined branch and returns
    0.0, as its docstring says.  The pipeline normalizes the standard
    answer before the call: it passes [B, C], a list of one-letter
    strings is always of the separate format, and the record scores
    10.0.  The combined branch is never taken from the pipeline. *)
Theorem combined_policy_lost_in_pipeline :
  _calculate_score [u "BC"] [u "B"; u "C"; u "D"] (PInt 10) = Some 0%float
  /\ record_score (scoring_record [u "BC"] [u "B"; u "C"; u "D"] 10) = Some 10%float
  /\ (forall standard,
        AutoScorer._determine_question_type (_normalize_answer standard)
        = AutoScorer.separate).
Proof.
  split; [vm_compute; reflexivity|]. split; [vm_compute; reflexivity|].
  intros standard. unfold AutoScorer._determine_question_type.
  by rewrite normalize_is_separate.
Qed.

End ScoreFacts.

(** ** The world *)

Section World.

Lemma w_fs_emit e w : w_fs (emit e w) = w_fs w.
Proof. done. Qed.

Lemma read_json_emit p e w : read_json p (emit e w) = read_json p w.
Proof. done. Qed.

Lemma w_fs_emit_all {A} (f : A -> event) (l : list A) w :
  w_fs (foldl (fun w x => emit (f x) w) w l) = w_fs w.
Proof. revert w. induction l as [|x l IH]; intros w; simpl; [done|]. by rewrite IH. Qed.

Lemma w_trace_emit_all {A} (f : A -> event) (l : list A) w :
  w_trace (foldl (fun w x => emit (f x) w) w l) = w_trace w ++ map f l.
Proof.
  revert w. induction l as [|x l IH]; intros w; simpl.
  - by rewrite app_nil_r.
  - rewrite IH. simpl. by rewrite <- app_assoc.
Qed.

(** The two ways a write ends. *)
Lemma write_json_cases p d w :
  (encodable d = true
   /\ write_json p d w =
        (true, World (<[p := JsonFile d]> (w_fs w)) (w_remote w) (w_clock w)
                     (w_trace w ++ [EvWrite p])))
  \/ (encodable d = false
      /\ write_json p d w =
           (false, World (<[p := OtherFile]> (w_fs w)) (w_remote w) (w_clock w)
                         (w_trace w ++ [EvWriteError p]))).
Proof. unfold write_json, emit. destruct (encodable d); [left|right]; done. Qed.

Lemma write_json_ok p d w :
  (write_json p d w).1 = encodable d.
Proof. unfold write_json. by destruct (encodable d). Qed.

Lemma read_json_write p d w :
  (write_json p d w).1 = true -> read_json p (write_json p d w).2 = Some d.
Proof.
  unfold read_json, write_json. destruct (encodable d); [|done]. simpl.
  by rewrite lookup_insert_eq.
Qed.

Lemma w_fs_write_ne p p' d w :
  p' <> p -> w_fs (write_json p d w).2 !! p' = w_fs w !! p'.
Proof.
  intros Hne. unfold write_json. destruct (encodable d); simpl;
    by rewrite lookup_insert_ne.
Qed.

Lemma w_fs_write_is_Some p p' d w :
  is_Some (w_fs w !! p') -> is_Some (w_fs (write_json p d w).2 !! p').
Proof.
  intros H. unfold write_json. destruct (encodable d); simpl;
    (destruct (decide (p' = p)) as [->|Hne];
     [by rewrite lookup_insert_eq | by rewrite lookup_insert_ne]).
Qed.

(** What can be encoded. *)
Lemma encodable_dict (d : pydict) :
  encodable (PDict d) = true
  <-> forall k x, d !! k = Some x -> encodable_str k = true /\ encodable x = true.
Proof.
  cbn [encodable].
  apply (map_fold_weak_ind (fun r (m : pydict) =>
    r = true
    <-> forall k x, m !! k = Some x -> encodable_str k = true /\ encodable x = true)).
  - split; [|done]. intros _ k x. by rewrite lookup_empty.
  - intros k x m r Hk IH. rewrite !andb_true_iff, IH. split.
    + intros [[Hs Hx] Hall] k' x'. destruct (decide (k' = k)) as [->|Hne].
      * rewrite lookup_insert_eq. by intros [= <-].
      * rewrite lookup_insert_ne by done. apply Hall.
    + intros Hall. split; [apply (Hall k x); by rewrite lookup_insert_eq|].
      intros k' x' Hk'. apply Hall. rewrite lookup_insert_ne; [done|]. congruence.
Qed.

Lemma encodable_list (l : list pyval) :
  encodable (PList l) = true <-> Forall (fun x => encodable x = true) l.
Proof.
  cbn [encodable]. rewrite forallb_forall, Forall_forall.
  split; intros H x Hx; apply H; by apply list_elem_of_In.
Qed.

Lemma encodable_insert (d : pydict) k x :
  encodable_str k = true -> encodable x = true ->
  encodable (PDict d) = true -> encodable (PDict (<[k := x]> d)) = true.
Proof.
  rewrite !encodable_dict. intros Hk Hx Hd k' x'.
  destruct (decide (k' = k)) as [->|Hne].
  - rewrite lookup_insert_eq. by intros [= <-].
  - rewrite lookup_insert_ne by done. apply Hd.
Qed.

Lemma encodable_lookup (d : pydict) k x :
  encodable (PDict d) = true -> d !! k = Some x -> encodable x = true.
Proof. rewrite encodable_dict. intros Hd Hk. by apply (Hd k x). Qed.

End World.

(** ** The scoring loop *)

Section LoopFacts.

Variable upper_nonascii : N -> pystr.

Local Abbreviation record_score := (AutoScorer.record_score upper_nonascii).
Local Abbreviation loop_step := (AutoScorer.loop_step upper_nonascii).
Local Abbreviation loop_from := (AutoScorer.loop_from upper_nonascii).
Local Abbreviation score_loop := (AutoScorer.score_loop upper_nonascii).
Local Abbreviation scored := (scored_record upper_nonascii).
Local Abbreviation _process_single_file := (AutoScorer._process_single_file upper_nonascii).

Lemma record_score_inputs (q q' : pydict) :
  (forall k, k ∈ scoring_inputs -> q !! k = q' !! k) ->
  record_score (PDict q) = record_score (PDict q').
Proof.
  intros H. unfold AutoScorer.record_score, dict_get.
  rewrite !(H (u "standard_answer")), !(H (u "model_answer")), !(H (u "score")); [done|..];
    unfold scoring_inputs; set_solver.
Qed.

Lemma set_model_score_inputs (q : pydict) score k :
  k ∈ scoring_inputs -> <[u "model_score" := PFloat score]> q !! k = q !! k.
Proof.
  intros Hk. apply lookup_insert_ne. intros <-.
  unfold scoring_inputs in Hk. vm_compute in Hk.
  repeat (apply elem_of_cons in Hk as [Hk|Hk]; [discriminate Hk|]).
  by apply elem_of_nil in Hk.
Qed.

Lemma record_score_set_model_score question score :
  record_score (AutoScorer.set_model_score question score) = record_score question.
Proof.
  destruct question; try done. simpl AutoScorer.set_model_score.
  apply record_score_inputs. intros k Hk. by apply set_model_score_inputs.
Qed.

Lemma record_score_scored question : record_score (scored question) = record_score question.
Proof.
  unfold scored_record. destruct (record_score question) eqn:E; [|done].
  by rewrite record_score_set_model_score.
Qed.

Lemma loop_step_scored t i question :
  loop_step t i (scored question) = loop_step t i question.
Proof.
  unfold AutoScorer.loop_step. rewrite record_score_scored.
  unfold scored_record. destruct (record_score question) as [score|] eqn:E; [|done].
  do 3 f_equal. destruct question; try done. simpl. by rewrite insert_insert_eq.
Qed.

Lemma loop_from_scored qs : forall i t,
  loop_from i (map scored qs) t = loop_from i qs t.
Proof.
  induction qs as [|q qs IH]; intros i t; simpl; [done|].
  by rewrite loop_step_scored, IH.
Qed.

Lemma loop_from_questions qs : forall i t,
  AutoScorer.t_questions (loop_from i qs t) = AutoScorer.t_questions t ++ map scored qs.
Proof.
  induction qs as [|q qs IH]; intros i t; simpl.
  - by rewrite app_nil_r.
  - rewrite IH. unfold AutoScorer.loop_step, scored_record.
    destruct (record_score q); simpl; by rewrite <- app_assoc.
Qed.

Lemma score_loop_questions qs : AutoScorer.t_questions (score_loop qs) = map scored qs.
Proof. unfold AutoScorer.score_loop. by rewrite loop_from_questions. Qed.

Lemma score_loop_idempotent qs :
  score_loop (AutoScorer.t_questions (score_loop qs)) = score_loop qs.
Proof.
  rewrite score_loop_questions. unfold AutoScorer.score_loop. apply loop_from_scored.
Qed.

Lemma loop_from_app a b : forall i t,
  loop_from i (a ++ b) t = loop_from (i + length a) b (loop_from i a t).
Proof.
  induction a as [|q a IH]; intros i t; simpl.
  - by rewrite Nat.add_0_r.
  - rewrite IH. f_equal. lia.
Qed.

(** The count and the total do not depend on the positions. *)
Lemma loop_from_tally qs : forall i j t t',
  AutoScorer.processed_count t = AutoScorer.processed_count t' ->
  AutoScorer.total_score t = AutoScorer.total_score t' ->
  AutoScorer.processed_count (loop_from i qs t) = AutoScorer.processed_count (loop_from j qs t')
  /\ AutoScorer.total_score (loop_from i qs t) = AutoScorer.total_score (loop_from j qs t').
Proof.
  induction qs as [|q qs IH]; intros i j t t' Hc Ht; simpl; [done|].
  apply IH; unfold AutoScorer.loop_step; destruct (record_score q); simpl; congruence.
Qed.

Lemma loop_from_errors qs : forall i t,
  exists more, AutoScorer.t_errors (loop_from i qs t) = AutoScorer.t_errors t ++ more.
Proof.
  induction qs as [|q qs IH]; intros i t; simpl.
  - exists []. by rewrite app_nil_r.
  - destruct (IH (S i) (loop_step t i q)) as [more ->].
    unfold AutoScorer.loop_step. destruct (record_score q); simpl; [eauto|].
    rewrite <- app_assoc. eauto.
Qed.

Lemma skipped_in_loop pre q post :
  record_score q = None ->
  let t := score_loop (pre ++ q :: post) in
  let t' := score_loop (pre ++ post) in
  AutoScorer.t_questions t = map scored pre ++ q :: map scored post
  /\ length pre ∈ AutoScorer.t_errors t
  /\ AutoScorer.processed_count t = AutoScorer.processed_count t'
  /\ AutoScorer.total_score t = AutoScorer.total_score t'.
Proof.
  intros Hq. cbv zeta. split; [|split].
  - rewrite score_loop_questions, map_app. simpl. unfold scored_record at 2. by rewrite Hq.
  - unfold AutoScorer.score_loop. rewrite loop_from_app. simpl.
    destruct (loop_from_errors post (S (length pre))
                (loop_step (loop_from 0 pre (AutoScorer.Tally [] 0 0 [])) (length pre) q))
      as [more ->].
    unfold AutoScorer.loop_step. rewrite Hq. simpl. set_solver.
  - unfold AutoScorer.score_loop. rewrite !loop_from_app. simpl.
    apply loop_from_tally; unfold AutoScorer.loop_step; by rewrite Hq.
Qed.

End LoopFacts.

(** ** The scoring pass over a file *)

Section FileFacts.

Variable upper_nonascii : N -> pystr.

Local Abbreviation record_score := (AutoScorer.record_score upper_nonascii).
Local Abbreviation score_loop := (AutoScorer.score_loop upper_nonascii).
Local Abbreviation scored := (scored_record upper_nonascii).
Local Abbreviation _process_single_file := (AutoScorer._process_single_file upper_nonascii).

(** The pass never changes another file, and what it returns is decided
    by the document of the file. *)
Lemma process_single_file_reads file_path w w' :
  read_json file_path w = read_json file_path w' ->
  snd (_process_single_file file_path w) = snd (_process_single_file file_path w').
Proof.
  intros H. unfold AutoScorer._process_single_file. rewrite <- H.
  destruct (read_json file_path w) as [[]|]; try done.
  destruct (dict_get d _ _); try done.
  destruct (_ <? _)%nat; [|done].
  unfold write_json. by destruct (encodable _).
Qed.

(** The pass over a document whose questions are a list. *)
Lemma process_single_file_list (file_path : pystr) (w : world) (data : pydict)
    (qs : list pyval) :
  read_json file_path w = Some (PDict data) ->
  dict_get data (u "questions") (PList []) = PList qs ->
  let t := score_loop qs in
  let data' := <[u "questions" := PList (AutoScorer.t_questions t)]> data in
  let reported := w_trace w ++ map EvRecordError (AutoScorer.t_errors t) in
  _process_single_file file_path w =
    if (0 <? AutoScorer.processed_count t)%nat then
      if encodable (PDict data') then
        (World (<[file_path := JsonFile (PDict data')]> (w_fs w)) (w_remote w) (w_clock w)
               (reported ++ [EvWrite file_path]),
         (AutoScorer.processed_count t,
          PFloat (PrimFloat.div (AutoScorer.total_score t)
                    (AutoScorer.float_of_nat (AutoScorer.processed_count t)))))
      else
        (World (<[file_path := OtherFile]> (w_fs w)) (w_remote w) (w_clock w)
               (reported ++ [EvWriteError file_path]),
         (0%nat, PInt 0))
    else
      (World (w_fs w) (w_remote w) (w_clock w) reported, (0%nat, PInt 0)).
Proof.
  intros Hread Hqs. cbv zeta. unfold AutoScorer._process_single_file.
  rewrite Hread, Hqs.
  set (t := score_loop qs).
  assert (Hw : foldl (fun w i => emit (EvRecordError i) w) w (AutoScorer.t_errors t)
               = World (w_fs w) (w_remote w) (w_clock w)
                       (w_trace w ++ map EvRecordError (AutoScorer.t_errors t))).
  { generalize (AutoScorer.t_errors t). intros l. clear. revert w.
    induction l as [|i l IH]; intros w; simpl.
    - destruct w. simpl. by rewrite app_nil_r.
    - rewrite IH. unfold emit. simpl. by rewrite <- app_assoc. }
  rewrite Hw. destruct (0 <? _)%nat; [|done].
  unfold write_json, emit. by destruct (encodable _).
Qed.

(** C9.  A second pass over the file returns the pair of the first and
    leaves every file as the first pass left it.  The score of a record
    is decided by its three input fields, and writing [model_score]
    changes none of them. *)
Theorem scoring_pass_idempotent (file_path : pystr) (w : world) :
  let w1 := fst (_process_single_file file_path w) in
  let w2 := fst (_process_single_file file_path w1) in
  snd (_process_single_file file_path w1) = snd (_process_single_file file_path w)
  /\ w_fs w2 = w_fs w1
  /\ (forall q q' : pydict,
        (forall k, k ∈ scoring_inputs -> q !! k = q' !! k) ->
        record_score (PDict q) = record_score (PDict q'))
  /\ (forall (q : pydict) score k,
        k ∈ scoring_inputs ->
        match AutoScorer.set_model_score (PDict q) score with
        | PDict q' => q' !! k = q !! k
        | _ => False
        end).
Proof.
  cbv zeta. split; [|split; [|split]].
  3: exact (record_score_inputs upper_nonascii).
  3: { intros q score k Hk. simpl. by apply set_model_score_inputs. }
  all: destruct (read_json file_path w) as [[| | | | | |data]|] eqn:Hread;
    try (unfold AutoScorer._process_single_file at 2 3; rewrite Hread; simpl;
         unfold AutoScorer._process_single_file; by rewrite Hread).
  all: destruct (dict_get data (u "questions") (PList [])) as [| | | | |qs|] eqn:Hqs;
    try (unfold AutoScorer._process_single_file at 2 3; rewrite Hread, Hqs; simpl;
         unfold AutoScorer._process_single_file;
         unfold read_json in *; rewrite ?w_fs_emit_all, Hread, Hqs; simpl;
         by rewrite ?w_fs_emit_all).
  all: rewrite !(process_single_file_list file_path w data qs Hread Hqs).
  all: set (t := score_loop qs).
  all: set (data' := <[u "questions" := PList (AutoScorer.t_questions t)]> data).
  all: destruct (0 <? AutoScorer.processed_count t)%nat eqn:Hpos;
    [destruct (encodable (PDict data')) eqn:He|]; cbn [fst snd].
  all: try (unfold AutoScorer._process_single_file, read_json; cbn [w_fs];
            by rewrite lookup_insert_eq).
  all: try (erewrite process_single_file_list; [| exact Hread | exact Hqs];
            fold t; by rewrite Hpos).
  all: erewrite process_single_file_list;
    [| unfold read_json; cbn [w_fs]; by rewrite lookup_insert_eq
     | unfold data', dict_get; by rewrite lookup_insert_eq ].
  all: unfold t; rewrite score_loop_idempotent; fold t; rewrite Hpos.
  all: unfold data'; rewrite insert_insert_eq; fold data'; rewrite He.
  - done.
  - cbn [fst w_fs]. by rewrite insert_insert_eq.
Qed.

Lemma encodable_scored (q : pyval) :
  encodable q = true -> encodable (scored q) = true.
Proof.
  intros Hq. unfold scored_record. destruct (record_score q); [|done].
  destruct q; try done. cbn [AutoScorer.set_model_score].
  apply encodable_insert; [by vm_compute|done|done].
Qed.

Lemma encodable_questions (data : pydict) (qs qs' : list pyval) :
  data !! u "questions" = Some (PList qs) ->
  (forall x, x ∈ qs' -> encodable x = true \/ exists y, y ∈ qs /\ x = scored y) ->
  encodable (PDict data) = true ->
  encodable (PDict (<[u "questions" := PList qs']> data)) = true.
Proof.
  intros Hqs Hsub Hd. apply encodable_insert; [by vm_compute| |done].
  apply encodable_list, Forall_forall. intros x Hx.
  destruct (Hsub x Hx) as [H|(y & Hy & ->)]; [done|].
  apply encodable_scored.
  pose proof (encodable_lookup _ _ _ Hd Hqs) as Hl.
  apply encodable_list in Hl. rewrite Forall_forall in Hl. by apply Hl.
Qed.

(** C8.  When the scoring of the record at position [length pre] raises,
    the record is stored as it was, its position is reported, every
    other record is processed as usual, and the count and the total (so
    the mean) are those of the file without the record.  The pair the
    pass returns is that of the file without the record whenever the
    document can be written back, so whenever the document read has no
    surrogate; when the write fails the pass returns (0, 0) and the file
    is lost. *)
Theorem failed_record_is_skipped (pre post : list pyval) (q : pyval) :
  record_score q = None ->
  let t := score_loop (pre ++ q :: post) in
  let t' := score_loop (pre ++ post) in
  AutoScorer.t_questions t = map scored pre ++ q :: map scored post
  /\ length pre ∈ AutoScorer.t_errors t
  /\ AutoScorer.processed_count t = AutoScorer.processed_count t'
  /\ AutoScorer.total_score t = AutoScorer.total_score t'
  /\ (forall file_path w w' (data : pydict),
        read_json file_path w = Some (PDict data) ->
        data !! u "questions" = Some (PList (pre ++ q :: post)) ->
        read_json file_path w'
          = Some (PDict (<[u "questions" := PList (pre ++ post)]> data)) ->
        let r := _process_single_file file_path w in
        let r' := _process_single_file file_path w' in
        EvRecordError (length pre) ∈ w_trace (fst r)
        /\ (encodable (PDict data) = true -> snd r = snd r')
        /\ (snd r = snd r'
            \/ (snd r = (0%nat, PInt 0)
                /\ read_json file_path (fst r) = None
                /\ EvWriteError file_path ∈ w_trace (fst r)))
        /\ (EvWriteError file_path ∉ w_trace (fst r) ->
            EvWriteError file_path ∉ w_trace w ->
            snd r = snd r')).
Proof.
  intros Hq. destruct (skipped_in_loop upper_nonascii pre q post Hq) as (H1 & H2 & H3 & H4).
  cbv zeta. do 4 (split; [done|]).
  intros file_path w w' data Hread Hqs Hread'.
  rewrite (process_single_file_list file_path w data (pre ++ q :: post) Hread)
    by (unfold dict_get; by rewrite Hqs).
  rewrite (process_single_file_list file_path w' _ (pre ++ post) Hread')
    by (unfold dict_get; by rewrite lookup_insert_eq).
  rewrite insert_insert_eq, <- H3, <- H4.
  set (t := score_loop (pre ++ q :: post)) in *.
  set (t' := score_loop (pre ++ post)) in *.
  set (d := <[u "questions" := PList (AutoScorer.t_questions t)]> data).
  set (d' := <[u "questions" := PList (AutoScorer.t_questions t')]> data).
  assert (Herr : forall tail,
            EvRecordError (length pre)
              ∈ (w_trace w ++ map EvRecordError (AutoScorer.t_errors t)) ++ tail).
  { intros tail. apply elem_of_app. left. apply elem_of_app. right.
    apply list_elem_of_fmap. eauto. }
  assert (Hdd' : encodable (PDict d) = true -> encodable (PDict d') = true).
  { unfold d, d'. rewrite !encodable_dict. intros Hd k x.
    destruct (decide (k = u "questions")) as [->|Hne].
    - rewrite lookup_insert_eq. intros [= <-]. split; [by vm_compute|].
      specialize (Hd (u "questions") _ (lookup_insert_eq _ _ _)) as [_ Hd].
      apply encodable_list. apply encodable_list in Hd.
      rewrite H1 in Hd. unfold t'. rewrite score_loop_questions, map_app.
      apply Forall_app in Hd as [Ha Hb]. apply Forall_cons in Hb as [_ Hb].
      by apply Forall_app.
    - rewrite lookup_insert_ne by done. intros Hk. apply (Hd k x).
      by rewrite lookup_insert_ne. }
  assert (Hd : encodable (PDict data) = true -> encodable (PDict d) = true).
  { intros He. unfold d. apply (encodable_questions data (pre ++ q :: post)); [done| |done].
    intros x Hx. rewrite H1 in Hx.
    assert (Hl : encodable (PList (pre ++ q :: post)) = true)
      by exact (encodable_lookup _ _ _ He Hqs).
    apply encodable_list in Hl. rewrite Forall_forall in Hl.
    apply elem_of_app in Hx as [Hx|Hx].
    - apply list_elem_of_fmap in Hx as (y & -> & Hy). right. exists y. split; [|done].
      apply elem_of_app. by left.
    - apply elem_of_cons in Hx as [->|Hx].
      + left. apply Hl. apply elem_of_app. right. by left.
      + apply list_elem_of_fmap in Hx as (y & -> & Hy). right. exists y. split; [|done].
        apply elem_of_app. right. by right. }
  destruct (0 <? AutoScorer.processed_count t)%nat.
  - destruct (encodable (PDict d)) eqn:He.
    + rewrite (Hdd' eq_refl). cbn [fst snd w_trace]. split; [apply Herr|].
      split; [done|]. split; [by left|done].
    + cbn [fst snd w_trace]. split; [apply Herr|]. split; [|split].
      * intros Hdata. pose proof (Hd Hdata). congruence.
      * right. split; [done|]. split.
        -- unfold read_json. cbn [w_fs]. by rewrite lookup_insert_eq.
        -- apply elem_of_app. right. by left.
      * intros Hno. exfalso. apply Hno. apply elem_of_app. right. by left.
  - cbn [fst snd w_trace]. split; [|split; [done|split; [by left|done]]].
    specialize (Herr []). by rewrite app_nil_r in Herr.
Qed.

End FileFacts.

(** ** Traces and retries *)

Section TraceFacts.

Lemma posts_app t1 t2 : posts (t1 ++ t2) = posts t1 ++ posts t2.
Proof. unfold posts. apply List.filter_app. Qed.

Lemma writes_app t1 t2 : writes (t1 ++ t2) = writes t1 ++ writes t2.
Proof. unfold writes. apply List.filter_app. Qed.

Lemma write_errors_app t1 t2 :
  write_errors (t1 ++ t2) = write_errors t1 ++ write_errors t2.
Proof. unfold write_errors. apply List.filter_app. Qed.

Lemma write_errors_elem e t : e ∈ write_errors t -> e ∈ t.
Proof.
  unfold write_errors. intros H%list_elem_of_In.
  apply List.filter_In in H as [H _]. by apply list_elem_of_In.
Qed.

Lemma post_spec request w :
  fst (post request w) = hd NetError (w_remote w)
  /\ w_trace (snd (post request w)) = w_trace w ++ [EvPost request]
  /\ w_fs (snd (post request w)) = w_fs w
  /\ w_remote (snd (post request w)) = tl (w_remote w)
  /\ w_clock (snd (post request w)) = w_clock w.
Proof. unfold post. destruct w as [fs [|r rest] c t]; simpl; repeat split; reflexivity. Qed.

Lemma backoff_steps_lookup_from request n : forall a attempt i,
  (attempt < n)%nat -> i = (2 * attempt)%nat ->
  backoff_steps request (seq a n) !! i = Some (EvPost request)
  /\ backoff_steps request (seq a n) !! S i = Some (EvSleep (backoff (a + attempt))).
Proof.
  induction n as [|n IH]; intros a attempt i Hlt Hi; [lia|].
  destruct attempt as [|attempt].
  - subst i. simpl. by rewrite Nat.add_0_r.
  - destruct i as [|[|i]]; try lia. simpl.
    replace (a + S attempt)%nat with (S a + attempt)%nat by lia.
    apply IH; lia.
Qed.

Lemma backoff_steps_lookup request n attempt :
  (attempt < n)%nat ->
  backoff_steps request (seq 0 n) !! (2 * attempt)%nat = Some (EvPost request)
  /\ backoff_steps request (seq 0 n) !! S (2 * attempt)
     = Some (EvSleep (backoff attempt)).
Proof. intros. by apply (backoff_steps_lookup_from request n 0%nat attempt). Qed.

Lemma backoff_steps_length request attempts :
  length (backoff_steps request attempts) = (2 * length attempts)%nat.
Proof. induction attempts as [|a l IH]; simpl; [done|]. rewrite IH. lia. Qed.

Lemma posts_backoff_steps request attempts :
  posts (backoff_steps request attempts) = repeat (EvPost request) (length attempts).
Proof. induction attempts as [|a l IH]; simpl; [done|]. by rewrite <- IH. Qed.

End TraceFacts.

Ltac post_step request w :=
  let r := fresh "r" in
  let w1 := fresh "w" in
  let Hr := fresh "Hr" in
  let Ht := fresh "Htrace" in
  let Hf := fresh "Hfs" in
  let Hq := fresh "Hremote" in
  let Hc := fresh "Hclock" in
  destruct (post_spec request w) as (Hr & Ht & Hf & Hq & Hc);
  destruct (post request w) as [r w1]; simpl in Hr, Ht, Hf, Hq, Hc.

(** One attempt of a retry loop, for either grader: the cases of the
    reply, then the rest of the loop by [IH]. *)
Ltac split_attempt :=
  repeat match goal with
  | |- context [match ?r with NetError => _ | Http _ _ => _ end] => destruct r
  | |- context [if (?s =? 200) then _ else _] => destruct (s =? 200)
  | |- context [match ?c with Some _ => _ | None => _ end] => destruct c
  | |- context [match ?o with Returned _ => _ | Incomplete => _ | Raised => _ end] =>
      destruct o
  | |- context [if (?a <? ?b)%nat then _ else _] => destruct (a <? b)%nat
  end.

Ltac retry_frame IH request w0 Htrace :=
  first
  [ match goal with
    | |- context [sleep ?ms w0] =>
        destruct (IH request (sleep ms w0)) as (new & -> & ? & -> & ?);
        exists ([EvPost request; EvSleep ms] ++ new);
        cbn [sleep emit w_trace w_fs];
        rewrite Htrace, <- !app_assoc, posts_app, writes_app; simpl;
        repeat split; auto; lia
    end
  | destruct (IH request w0) as (new & -> & ? & -> & ?);
    exists ([EvPost request] ++ new);
    rewrite Htrace, <- app_assoc, posts_app, writes_app; simpl;
    repeat split; auto; lia
  | exists [EvPost request]; simpl; repeat split; auto; lia ].

(** A call writes to no file: its trace has no failed write either. *)
Ltac retry_quiet IH request w0 Htrace :=
  first
  [ match goal with
    | |- context [sleep ?ms w0] =>
        destruct (IH request (sleep ms w0)) as (new & -> & ?);
        exists ([EvPost request; EvSleep ms] ++ new);
        cbn [sleep emit w_trace];
        rewrite Htrace, <- !app_assoc, write_errors_app; simpl; by split
    end
  | destruct (IH request w0) as (new & -> & ?);
    exists ([EvPost request] ++ new);
    rewrite Htrace, <- app_assoc, write_errors_app; simpl; by split
  | exists [EvPost request]; simpl; by split ].

(** The loop when every reply fails, for either grader: [loop] is its
    function, [step] unfolds one iteration, [max] is [max_retries]. *)
Ltac exhaust_retries loop step max n :=
  let IH := fresh "IH" in
  let a := fresh "a" in
  let request := fresh "request" in
  let w := fresh "w" in
  let Hmax := fresh "Hmax" in
  let Hfailed := fresh "Hfailed" in
  induction n as [|n IH]; intros a request w Hmax Hfailed;
  [ simpl; split; [done|]; exists []; split; [by left|]; by rewrite app_nil_r
  | step;
    let r := fresh "r" in
    let w0 := fresh "w" in
    let Hr := fresh "Hr" in
    let Htrace := fresh "Htrace" in
    let Hremote := fresh "Hremote" in
    let Hstep := fresh "Hstep" in
    let Hlast := fresh "Hlast" in
    destruct (post_spec request w) as (Hr & Htrace & _ & Hremote & _);
    destruct (post request w) as [r w0]; simpl in Hr, Htrace, Hremote;
    assert (Forall failed (take n (tl (w_remote w))))
      by (destruct (w_remote w); simpl in *; [by rewrite take_nil|];
          by apply Forall_cons in Hfailed as [_ ?]);
    assert (failed r)
      by (subst r; destruct (w_remote w); simpl in *; [done|];
          by apply Forall_cons in Hfailed as [? _]);
    assert (Hlast : (a <? max - 1)%nat = negb (Nat.eqb n 0))
      by (destruct n; simpl; [apply Nat.ltb_ge|apply Nat.ltb_lt]; lia);
    assert (Hstep : forall w',
      w_remote w' = tl (w_remote w) ->
      (w_trace w' = w_trace w ++ [EvPost request; EvSleep (backoff a)]
       \/ (n = 0%nat /\ w_trace w' = w_trace w ++ [EvPost request])) ->
      fst (loop (seq (S a) n) request w') = None
      /\ exists tail,
           (tail = [] \/ tail = [EvSleep (backoff (max - 1))])
           /\ w_trace (snd (loop (seq (S a) n) request w'))
              = w_trace w ++ backoff_steps request (seq a n)
                ++ EvPost request :: tail);
    [ let w' := fresh "w" in
      let Hq := fresh "Hq" in
      let Ht := fresh "Ht" in
      let Heq := fresh "Heq" in
      let tail := fresh "tail" in
      intros w' Hq Ht;
      destruct (IH (S a) request w') as (? & tail & ? & Heq);
        [lia|by rewrite Hq|];
      split; [done|]; rewrite Heq; destruct n;
      [ simpl; destruct Ht as [-> | [_ ->]];
        [ exists [EvSleep (backoff a)]; split; [|by rewrite app_nil_r];
          right; do 3 f_equal; lia
        | exists []; split; [by left|]; by rewrite app_nil_r ]
      | destruct Ht as [-> | [? _]]; [|lia];
        exists tail; split; [done|]; by rewrite <- app_assoc ]
    | destruct r as [|? ?];
      [ rewrite Hlast; destruct n; simpl negb; cbv iota; apply Hstep; simpl; auto;
        left; by rewrite Htrace, <- app_assoc
      | match goal with
        | H : failed (Http _ _) |- _ => simpl in H; apply Z.eqb_neq in H as ->
        end;
        apply Hstep; simpl; auto; left; by rewrite Htrace, <- app_assoc ] ] ].

Section TeacherCall.

Variable isspace : N -> bool.
Variable json_loads : pystr -> option pyval.
Variable float_of_str : pystr -> option float.
Variable max_retries : nat.

Local Abbreviation attempt_loop :=
  (TeacherGradingSystem.attempt_loop isspace json_loads float_of_str max_retries).
Local Abbreviation call_teacher_api :=
  (TeacherGradingSystem.call_teacher_api isspace json_loads float_of_str max_retries).

Lemma teacher_attempt_loop_frame attempts : forall request w,
  exists new,
    w_trace (snd (attempt_loop attempts request w)) = w_trace w ++ new
    /\ (length (posts new) <= length attempts)%nat
    /\ w_fs (snd (attempt_loop attempts request w)) = w_fs w
    /\ writes new = [].
Proof.
  induction attempts as [|attempt rest IH]; intros request w.
  - exists []. simpl. by rewrite app_nil_r.
  - simpl. post_step request w. split_attempt; retry_frame IH request w0 Htrace.
Qed.

Lemma teacher_attempt_loop_quiet attempts : forall request w,
  exists new,
    w_trace (snd (attempt_loop attempts request w)) = w_trace w ++ new
    /\ write_errors new = [].
Proof.
  induction attempts as [|attempt rest IH]; intros request w.
  - exists []. simpl. by rewrite app_nil_r.
  - simpl. post_step request w. split_attempt; retry_quiet IH request w0 Htrace.
Qed.

Lemma teacher_call_quiet request w new :
  w_trace (snd (call_teacher_api request w)) = w_trace w ++ new ->
  write_errors new = [].
Proof.
  destruct (teacher_attempt_loop_quiet (seq 0 max_retries) request w) as (new' & Ht & Hq).
  unfold TeacherGradingSystem.call_teacher_api. rewrite Ht.
  by intros ->%app_inv_head.
Qed.

Lemma teacher_attempt_loop_failed n : forall a request w,
  (a + n = max_retries)%nat ->
  Forall failed (take n (w_remote w)) ->
  fst (attempt_loop (seq a n) request w) = None
  /\ exists tail,
       (tail = [] \/ tail = [EvSleep (backoff (max_retries - 1))])
       /\ w_trace (snd (attempt_loop (seq a n) request w))
          = w_trace w ++ match n with
                         | O => []
                         | S m => backoff_steps request (seq a m)
                                  ++ EvPost request :: tail
                         end.
Proof.
  exhaust_retries
    (TeacherGradingSystem.attempt_loop isspace json_loads float_of_str max_retries)
    ltac:(cbn [seq TeacherGradingSystem.attempt_loop]) max_retries n.
Qed.

(** The call as a whole. *)
Lemma teacher_call_exhausted request w :
  Forall failed (take max_retries (w_remote w)) ->
  fst (call_teacher_api request w) = None
  /\ exists tail,
       (tail = [] \/ tail = [EvSleep (backoff (max_retries - 1))])
       /\ w_trace (snd (call_teacher_api request w))
          = w_trace w ++ exhausted_trace request max_retries tail.
Proof.
  intros H. by apply (teacher_attempt_loop_failed max_retries 0%nat).
Qed.

Lemma teacher_call_frame request w :
  exists new,
    w_trace (snd (call_teacher_api request w)) = w_trace w ++ new
    /\ (length (posts new) <= max_retries)%nat
    /\ w_fs (snd (call_teacher_api request w)) = w_fs w
    /\ writes new = [].
Proof.
  destruct (teacher_attempt_loop_frame (seq 0 max_retries) request w)
    as (new & ? & ? & ? & ?).
  exists new. by rewrite length_seq in *.
Qed.

End TeacherCall.

Section ReGradingCall.

Variable isspace : N -> bool.
Variable json_loads : pystr -> option pyval.
Variable float_of_str : pystr -> option float.
Variable re_search : pystr -> pystr -> option pystr.
Variable max_retries : nat.

Local Abbreviation attempt_loop :=
  (ReGradingSystem.attempt_loop isspace json_loads float_of_str re_search max_retries).
Local Abbreviation call_teacher_api :=
  (ReGradingSystem.call_teacher_api isspace json_loads float_of_str re_search max_retries).

Lemma regrade_attempt_loop_frame attempts : forall request w,
  exists new,
    w_trace (snd (attempt_loop attempts request w)) = w_trace w ++ new
    /\ (length (posts new) <= length attempts)%nat
    /\ w_fs (snd (attempt_loop attempts request w)) = w_fs w
    /\ writes new = [].
Proof.
  induction attempts as [|attempt rest IH]; intros request w.
  - exists []. simpl. by rewrite app_nil_r.
  - simpl. post_step request w. split_attempt; retry_frame IH request w0 Htrace.
Qed.

Lemma regrade_attempt_loop_quiet attempts : forall request w,
  exists new,
    w_trace (snd (attempt_loop attempts request w)) = w_trace w ++ new
    /\ write_errors new = [].
Proof.
  induction attempts as [|attempt rest IH]; intros request w.
  - exists []. simpl. by rewrite app_nil_r.
  - simpl. post_step request w. split_attempt; retry_quiet IH request w0 Htrace.
Qed.

Lemma regrade_call_quiet request w new :
  w_trace (snd (call_teacher_api request w)) = w_trace w ++ new ->
  write_errors new = [].
Proof.
  destruct (regrade_attempt_loop_quiet (seq 0 max_retries) request w) as (new' & Ht & Hq).
  unfold ReGradingSystem.call_teacher_api. rewrite Ht.
  by intros ->%app_inv_head.
Qed.

Lemma regrade_attempt_loop_failed n : forall a request w,
  (a + n = max_retries)%nat ->
  Forall failed (take n (w_remote w)) ->
  fst (attempt_loop (seq a n) request w) = None
  /\ exists tail,
       (tail = [] \/ tail = [EvSleep (backoff (max_retries - 1))])
       /\ w_trace (snd (attempt_loop (seq a n) request w))
          = w_trace w ++ match n with
                         | O => []
                         | S m => backoff_steps request (seq a m)
                                  ++ EvPost request :: tail
                         end.
Proof.
  exhaust_retries
    (ReGradingSystem.attempt_loop isspace json_loads float_of_str re_search max_retries)
    ltac:(cbn [seq ReGradingSystem.attempt_loop]) max_retries n.
Qed.

Lemma regrade_call_exhausted request w :
  Forall failed (take max_retries (w_remote w)) ->
  fst (call_teacher_api request w) = None
  /\ exists tail,
       (tail = [] \/ tail = [EvSleep (backoff (max_retries - 1))])
       /\ w_trace (snd (call_teacher_api request w))
          = w_trace w ++ exhausted_trace request max_retries tail.
Proof.
  intros H. by apply (regrade_attempt_loop_failed max_retries 0%nat).
Qed.

Lemma regrade_call_frame request w :
  exists new,
    w_trace (snd (call_teacher_api request w)) = w_trace w ++ new
    /\ (length (posts new) <= max_retries)%nat
    /\ w_fs (snd (call_teacher_api request w)) = w_fs w
    /\ writes new = [].
Proof.
  destruct (regrade_attempt_loop_frame (seq 0 max_retries) request w)
    as (new & ? & ? & ? & ?).
  exists new. by rewrite length_seq in *.
Qed.

End ReGradingCall.

(** ** The grading loop of [teacher_grading.py] *)

Section KeepsFacts.

Lemma keeps_graded_refl l : keeps_graded l l.
Proof. by split. Qed.

Lemma keeps_graded_cons_same ex l l' :
  keeps_graded l l' -> keeps_graded (ex :: l) (ex :: l').
Proof.
  intros [Hlen H]. split; [simpl; congruence|].
  intros [|i] ex' Hex Hg; simpl in *; [done|]. by apply H.
Qed.

Lemma keeps_graded_cons_new ex ex' l l' :
  is_graded ex = false -> keeps_graded l l' -> keeps_graded (ex :: l) (ex' :: l').
Proof.
  intros Hex [Hlen H]. split; [simpl; congruence|].
  intros [|i] ex'' Hl Hg; simpl in *; [congruence|]. by apply H.
Qed.

Lemma has_key_graded ex : has_key k_teacher_score ex -> is_graded ex = true.
Proof.
  intros (q & -> & Hq). unfold is_graded. simpl. by rewrite bool_decide_eq_true_2.
Qed.

Lemma graded_record_has_key ex :
  is_record ex -> is_graded ex = true -> has_key k_teacher_score ex.
Proof.
  intros [q ->]. unfold is_graded. simpl. case_bool_decide; [|done].
  intros _. by exists q.
Qed.

Lemma with_examples_present (data : pydict) exs l :
  data !! k_example = Some (PList exs) ->
  with_examples data l = PDict (<[k_example := PList l]> data).
Proof. intros H. unfold with_examples. by rewrite H. Qed.

End KeepsFacts.

Section TeacherFile.

Variable isspace : N -> bool.
Variable json_loads : pystr -> option pyval.
Variable float_of_str : pystr -> option float.
Variable strftime : N -> pystr.
Variable with_suffix : pystr -> pystr -> pystr.
Variable max_retries : nat.
Variable backup : bool.

Local Abbreviation call_teacher_api :=
  (TeacherGradingSystem.call_teacher_api isspace json_loads float_of_str max_retries).
Local Abbreviation grade_single_question :=
  (TeacherGradingSystem.grade_single_question isspace json_loads float_of_str strftime max_retries).
Local Abbreviation grade_loop :=
  (TeacherGradingSystem.grade_loop isspace json_loads float_of_str strftime max_retries).
Local Abbreviation process_json_file :=
  (TeacherGradingSystem.process_json_file isspace json_loads float_of_str strftime
     with_suffix max_retries backup).

(** One record that has no score yet. *)
Lemma grade_single_question_spec ex w :
  py_in k_teacher_score ex = Some false ->
  match grade_single_question ex w with
  | None => ~ is_record ex
  | Some (ex', w1) =>
      has_key k_teacher_score ex'
      /\ exists new,
           w_trace w1 = w_trace w ++ new
           /\ (length (posts new) <= max_retries)%nat
           /\ w_fs w1 = w_fs w
           /\ writes new = []
           /\ write_errors new = []
  end.
Proof.
  intros Hin. unfold TeacherGradingSystem.grade_single_question. rewrite Hin.
  destruct ex as [| | | | | |q]; try (intros [? [=]]).
  destruct (teacher_call_frame isspace json_loads float_of_str max_retries
              (construct_grading_prompt q) w) as (new & Ht & Hp & Hf & Hw).
  pose proof (teacher_call_quiet isspace json_loads float_of_str max_retries
                (construct_grading_prompt q) w new Ht) as Hq.
  destruct (call_teacher_api _ w) as [grading_result w1]. simpl in *.
  split; [|by exists new].
  eexists. split; [done|].
  rewrite lookup_insert_ne by (by vm_compute).
  destruct grading_result; by rewrite lookup_insert_eq.
Qed.

(** The periodic save of the loop. *)
Lemma checkpoint_cases (due : bool) (file_path : pystr) (d : pyval) (w1 : world) :
  let r := if due then write_json file_path d w1 else (true, w1) in
  w_remote r.2 = w_remote w1
  /\ w_clock r.2 = w_clock w1
  /\ (forall p, p <> file_path -> w_fs r.2 !! p = w_fs w1 !! p)
  /\ ((r.1 = true /\ due = false /\ r.2 = w1)
      \/ (r.1 = true /\ due = true /\ encodable d = true
          /\ w_trace r.2 = w_trace w1 ++ [EvWrite file_path]
          /\ w_fs r.2 !! file_path = Some (JsonFile d))
      \/ (r.1 = false /\ due = true /\ encodable d = false
          /\ w_trace r.2 = w_trace w1 ++ [EvWriteError file_path]
          /\ w_fs r.2 !! file_path = Some OtherFile)).
Proof.
  cbv zeta. destruct due.
  - destruct (write_json_cases file_path d w1) as [[He ->]|[He ->]]; cbn [fst snd w_fs w_trace w_remote w_clock].
    + repeat split; try done.
      * intros p Hp. by rewrite lookup_insert_ne.
      * right. left. by rewrite lookup_insert_eq.
    + repeat split; try done.
      * intros p Hp. by rewrite lookup_insert_ne.
      * right. right. by rewrite lookup_insert_eq.
  - repeat split; try done. by left.
Qed.

Lemma grade_loop_spec (file_path : pystr) (data : pydict) (todo : list pyval) :
  forall (done : list pyval) (graded_count : nat) (w : world),
  exists todo' new,
    (grade_loop file_path data done todo graded_count w).1.2 = done ++ todo'
    /\ keeps_graded todo todo'
    /\ w_trace (grade_loop file_path data done todo graded_count w).2 = w_trace w ++ new
    /\ (length (posts new) <= max_retries * ungraded todo)%nat
    /\ (forall p, p <> file_path ->
          w_fs (grade_loop file_path data done todo graded_count w).2 !! p = w_fs w !! p)
    /\ (write_errors new = [] ->
          w_fs (grade_loop file_path data done todo graded_count w).2 !! file_path
            = w_fs w !! file_path
          \/ exists todo'',
               keeps_graded todo todo''
               /\ w_fs (grade_loop file_path data done todo graded_count w).2 !! file_path
                  = Some (JsonFile (with_examples data (done ++ todo''))))
    /\ (write_errors new = []
        \/ (write_errors new = [EvWriteError file_path]
            /\ (grade_loop file_path data done todo graded_count w).1.1 = false
            /\ w_fs (grade_loop file_path data done todo graded_count w).2 !! file_path
               = Some OtherFile))
    /\ (Forall is_record todo -> write_errors new = [] ->
          (grade_loop file_path data done todo graded_count w).1.1 = true
          /\ Forall (has_key k_teacher_score) todo').
Proof.
  induction todo as [|example rest IH]; intros done graded_count w.
  - exists [], []. simpl. rewrite !app_nil_r. repeat split; auto; lia.
  - cbn [TeacherGradingSystem.grade_loop].
    destruct (py_in k_teacher_score example) as [[|]|] eqn:Hin.
    + (* skipped *)
      assert (Hg : is_graded example = true) by (unfold is_graded; by rewrite Hin).
      destruct (IH (done ++ [example]) graded_count w)
        as (todo' & new & He & Hk & Ht & Hp & Hf & Hfile & Herr & Hok).
      exists (example :: todo'), new. rewrite He, Ht, <- app_assoc.
      split; [done|]. split; [by apply keeps_graded_cons_same|]. split; [done|].
      split; [unfold ungraded in *; simpl; by rewrite Hg|]. split; [done|].
      split; [|split; [done|]].
      * intros Hq. destruct (Hfile Hq) as [?|(todo'' & ? & Hfile')]; [by left|right].
        exists (example :: todo''). split; [by apply keeps_graded_cons_same|].
        by rewrite Hfile', <- app_assoc.
      * intros [Hex Hrest]%Forall_cons Hq. destruct (Hok Hrest Hq) as [? ?].
        split; [done|]. apply Forall_cons. split; [|done].
        by apply graded_record_has_key.
    + (* graded now *)
      assert (Hg : is_graded example = false) by (unfold is_graded; by rewrite Hin).
      pose proof (grade_single_question_spec example w Hin) as Hgsq.
      destruct (grade_single_question example w) as [[example' w1]|].
      * destruct Hgsq as (Hkey & new1 & Ht1 & Hp1 & Hf1 & Hw1 & Hq1).
        destruct (checkpoint_cases (S graded_count mod 5 =? 0)%nat file_path
                    (with_examples data (done ++ example' :: rest)) w1)
          as (_ & _ & Hother & Hcases).
        destruct (if (S graded_count mod 5 =? 0)%nat
                  then write_json file_path
                         (with_examples data (done ++ example' :: rest)) w1
                  else (true, w1)) as [saved w2].
        cbn [fst snd] in Hother, Hcases.
        assert (Hkeep1 : keeps_graded (example :: rest) (example' :: rest))
          by (apply keeps_graded_cons_new; [done|apply keeps_graded_refl]).
        destruct Hcases as [(-> & _ & ->)|[(-> & _ & _ & Ht2 & Hfile2)|(-> & _ & _ & Ht2 & Hfile2)]].
        -- (* no save is due *)
           destruct (IH (done ++ [example']) (S graded_count) (sleep 500 w1))
             as (todo' & new & He & Hk & Ht & Hp & Hf & Hfile & Herr & Hok).
           exists (example' :: todo'), (new1 ++ [EvSleep 500] ++ new).
           rewrite He, Ht, <- app_assoc. simpl. rewrite Ht1, <- !app_assoc. simpl.
           rewrite !write_errors_app, Hq1. simpl.
           split; [done|]. split; [by apply keeps_graded_cons_new|]. split; [done|]. split.
           { rewrite !posts_app, !length_app. simpl.
             unfold ungraded in *. simpl. rewrite Hg. simpl. lia. }
           split; [intros p Hp'; rewrite Hf by done; simpl; by rewrite Hf1|].
           split; [|split; [done|]].
           { intros Hq. destruct (Hfile Hq) as [Hfile'|(todo'' & ? & Hfile')].
             - left. rewrite Hfile'. simpl. by rewrite Hf1.
             - right. exists (example' :: todo''). split; [by apply keeps_graded_cons_new|].
               by rewrite Hfile', <- app_assoc. }
           intros [Hex Hrest]%Forall_cons Hq. destruct (Hok Hrest Hq) as [? ?].
           split; [done|]. by apply Forall_cons.
        -- (* the save is written *)
           destruct (IH (done ++ [example']) (S graded_count) (sleep 500 w2))
             as (todo' & new & He & Hk & Ht & Hp & Hf & Hfile & Herr & Hok).
           exists (example' :: todo'), (new1 ++ [EvWrite file_path; EvSleep 500] ++ new).
           rewrite He, Ht, <- app_assoc. simpl. rewrite Ht2, Ht1, <- !app_assoc. simpl.
           rewrite !write_errors_app, Hq1. simpl.
           split; [done|]. split; [by apply keeps_graded_cons_new|]. split; [done|]. split.
           { rewrite !posts_app, !length_app. simpl.
             unfold ungraded in *. simpl. rewrite Hg. simpl. lia. }
           split; [intros p Hp'; rewrite Hf by done; simpl; rewrite Hother by done;
                   by rewrite Hf1|].
           split; [|split; [done|]].
           { intros Hq. right. destruct (Hfile Hq) as [Hfile'|(todo'' & ? & Hfile')].
             - exists (example' :: rest). split; [done|].
               rewrite Hfile'. simpl. by rewrite Hfile2.
             - exists (example' :: todo''). split; [by apply keeps_graded_cons_new|].
               by rewrite Hfile', <- app_assoc. }
           intros [Hex Hrest]%Forall_cons Hq. destruct (Hok Hrest Hq) as [? ?].
           split; [done|]. by apply Forall_cons.
        -- (* the save fails *)
           exists (example' :: rest), (new1 ++ [EvWriteError file_path]).
           cbn [fst snd]. rewrite Ht2, Ht1, <- !app_assoc.
           rewrite !write_errors_app, Hq1. simpl.
           split; [done|]. split; [done|]. split; [done|]. split.
           { rewrite !posts_app, !length_app. simpl.
             unfold ungraded in *. simpl. rewrite Hg. simpl. lia. }
           split; [intros p Hp'; rewrite Hother by done; by rewrite Hf1|].
           split; [done|]. split; [by right|done].
      * exists (example :: rest), []. simpl. rewrite app_nil_r.
        split; [done|]. split; [apply keeps_graded_refl|]. split; [done|].
        split; [lia|]. split; [done|]. split; [by left|]. split; [by left|].
        intros [Hex _]%Forall_cons. done.
    + exists (example :: rest), []. simpl. rewrite app_nil_r.
      split; [done|]. split; [apply keeps_graded_refl|]. split; [done|].
      split; [lia|]. split; [done|]. split; [by left|]. split; [by left|].
      intros [[q ->] _]%Forall_cons. done.
Qed.

End TeacherFile.

Section BackupFacts.

Lemma backup_file_spec backup with_suffix suffix file_path data w :
  exists new,
    w_trace (backup_file backup with_suffix suffix file_path data w).2 = w_trace w ++ new
    /\ posts new = []
    /\ (forall p, is_Some (w_fs w !! p) ->
          w_fs (backup_file backup with_suffix suffix file_path data w).2 !! p = w_fs w !! p)
    /\ (((backup_file backup with_suffix suffix file_path data w).1 = true
         /\ write_errors new = [])
        \/ ((backup_file backup with_suffix suffix file_path data w).1 = false
            /\ new = [EvWriteError (with_suffix file_path suffix)]
            /\ w_fs w !! with_suffix file_path suffix = None)).
Proof.
  unfold backup_file.
  destruct backup;
    [|exists []; rewrite app_nil_r; do 3 (split; [done|]); by left].
  destruct (w_fs w !! with_suffix file_path suffix) eqn:E.
  - exists []. rewrite app_nil_r. do 3 (split; [done|]). by left.
  - destruct (write_json_cases (with_suffix file_path suffix) data w) as [[He ->]|[He ->]].
    + exists [EvWrite (with_suffix file_path suffix)]. simpl. repeat split; auto.
      intros p [x Hp]. apply lookup_insert_ne. congruence.
    + exists [EvWriteError (with_suffix file_path suffix)]. simpl. repeat split; auto.
      intros p [x Hp]. apply lookup_insert_ne. congruence.
Qed.

Lemma read_json_fs p w w' : w_fs w' !! p = w_fs w !! p -> read_json p w' = read_json p w.
Proof. unfold read_json. by intros ->. Qed.

Lemma read_json_is_Some p w d : read_json p w = Some d -> w_fs w !! p = Some (JsonFile d).
Proof. unfold read_json. destruct (w_fs w !! p) as [[]|]; congruence. Qed.

End BackupFacts.

Section CountFacts.

Lemma count_graded_ungraded exs k :
  TeacherGradingSystem.count_graded exs = Some k ->
  (k + ungraded exs = length exs)%nat.
Proof.
  revert k. induction exs as [|ex exs IH]; intros k; simpl.
  - intros [= <-]. done.
  - unfold ungraded, is_graded in *. simpl.
    destruct (py_in k_teacher_score ex) as [[|]|]; simpl; [| |done];
      destruct (TeacherGradingSystem.count_graded exs) as [n|]; simpl; try done;
      intros [= <-]; specialize (IH n eq_refl); simpl; lia.
Qed.

Lemma count_graded_all exs :
  Forall (has_key k_teacher_score) exs ->
  TeacherGradingSystem.count_graded exs = Some (length exs).
Proof.
  induction 1 as [|ex exs Hex _ IH]; simpl; [done|].
  apply has_key_graded in Hex. unfold is_graded in Hex.
  destruct (py_in k_teacher_score ex) as [[|]|]; try done. simpl. by rewrite IH.
Qed.

Lemma ungraded_zero exs :
  ungraded exs = 0%nat -> Forall is_record exs -> Forall (has_key k_teacher_score) exs.
Proof.
  induction exs as [|ex exs IH]; intros Hu Hrec; [constructor|].
  apply Forall_cons in Hrec as [Hex Hrec]. unfold ungraded in *. simpl in Hu.
  destruct (is_graded ex) eqn:Hg; simpl in Hu; [|done].
  constructor; [by apply graded_record_has_key|by apply IH].
Qed.

End CountFacts.

Section TeacherRun.

Variable isspace : N -> bool.
Variable json_loads : pystr -> option pyval.
Variable float_of_str : pystr -> option float.
Variable strftime : N -> pystr.
Variable with_suffix : pystr -> pystr -> pystr.
Variable max_retries : nat.
Variable backup : bool.

Local Abbreviation grade_loop :=
  (TeacherGradingSystem.grade_loop isspace json_loads float_of_str strftime max_retries).
Local Abbreviation process_json_file :=
  (TeacherGradingSystem.process_json_file isspace json_loads float_of_str strftime
     with_suffix max_retries backup).

(** What a run over one file does, whatever the remote grader replies. *)
Lemma process_json_file_spec (file_path : pystr) (w : world) (data : pydict)
    (exs : list pyval) :
  read_json file_path w = Some (PDict data) ->
  data !! k_example = Some (PList exs) ->
  exists new,
    w_trace (process_json_file file_path w).2 = w_trace w ++ new
    /\ (length (posts new) <= max_retries * ungraded exs)%nat
    /\ ((exists exs',
           read_json file_path (process_json_file file_path w).2
             = Some (PDict (<[k_example := PList exs']> data))
           /\ keeps_graded exs exs')
        \/ (read_json file_path (process_json_file file_path w).2 = None
            /\ (process_json_file file_path w).1 = false
            /\ EvWriteError file_path ∈ new))
    /\ ((process_json_file file_path w).1 = true -> write_errors new = [])
    /\ (exs <> [] -> Forall is_record exs -> write_errors new = [] ->
          (process_json_file file_path w).1 = true
          /\ exists exs',
               read_json file_path (process_json_file file_path w).2
                 = Some (PDict (<[k_example := PList exs']> data))
               /\ keeps_graded exs exs'
               /\ Forall (has_key k_teacher_score) exs').
Proof.
  intros Hread Hexs.
  assert (Hsame : read_json file_path w
                  = Some (PDict (<[k_example := PList exs]> data)))
    by (by rewrite insert_id).
  assert (Hstay : forall b : bool, exists new,
    w_trace (b, w).2 = w_trace w ++ new
    /\ (length (posts new) <= max_retries * ungraded exs)%nat
    /\ ((exists exs',
           read_json file_path (b, w).2 = Some (PDict (<[k_example := PList exs']> data))
           /\ keeps_graded exs exs')
        \/ (read_json file_path (b, w).2 = None
            /\ (b, w).1 = false
            /\ EvWriteError file_path ∈ new))
    /\ ((b, w).1 = true -> write_errors new = [])
    /\ new = []).
  { intros b. exists []. simpl. rewrite app_nil_r.
    split; [done|]. split; [lia|]. split; [|done].
    left. exists exs. split; [done|apply keeps_graded_refl]. }
  unfold TeacherGradingSystem.process_json_file. rewrite Hread.
  unfold dict_get. rewrite Hexs. simpl truthy.
  destruct exs as [|ex0 exs0] eqn:Hlist; simpl negb; cbv iota.
  { destruct (Hstay false) as (new & ? & ? & ? & ? & ?).
    exists new. do 4 (split; [done|]). intros Hne; by destruct Hne. }
  rewrite <- Hlist in *. clear Hlist.
  destruct (TeacherGradingSystem.count_graded exs) as [already_graded|] eqn:Hcount.
  2: { destruct (Hstay false) as (new & ? & ? & ? & ? & ->).
       exists []. do 4 (split; [done|]).
       intros _ Hrec; exfalso; clear - Hcount Hrec.
       induction Hrec as [|ex l [q ->] _ IH]; simpl in Hcount; [done|].
       destruct (TeacherGradingSystem.count_graded l); simpl in *; [done|by apply IH]. }
  pose proof (count_graded_ungraded _ _ Hcount) as Hsum.
  destruct (length exs - already_graded =? 0)%nat eqn:Hneed.
  { destruct (Hstay true) as (new & ? & ? & ? & ? & ->).
    exists []. do 4 (split; [done|]).
    intros _ Hrec _. split; [done|]. exists exs.
    split; [done|]. split; [apply keeps_graded_refl|].
    apply ungraded_zero; [|done]. apply Nat.eqb_eq in Hneed. lia. }
  destruct (backup_file_spec backup with_suffix (u ".json.backup") file_path (PDict data) w)
    as (newb & Htb & Hpb & Hfb & Hcb).
  apply read_json_is_Some in Hread as Hfs.
  destruct (backup_file backup with_suffix (u ".json.backup") file_path (PDict data) w)
    as [saved w1].
  cbn [fst snd] in Htb, Hfb, Hcb.
  assert (Hfs1 : w_fs w1 !! file_path = Some (JsonFile (PDict data)))
    by (by rewrite Hfb; [|rewrite Hfs]).
  destruct Hcb as [[-> Hqb]|(-> & -> & _)].
  2: { (* the backup fails *)
       exists [EvWriteError (with_suffix file_path (u ".json.backup"))].
       cbn [fst snd]. split; [done|]. split; [simpl; lia|]. split; [|done].
       left. exists exs. split; [|apply keeps_graded_refl].
       by rewrite (read_json_fs _ w), Hsame by (by rewrite Hfs1, Hfs). }
  destruct (grade_loop_spec isspace json_loads float_of_str strftime max_retries
              file_path data exs [] 0%nat w1)
    as (todo' & new & He & Hk & Ht & Hp & Hf & Hfile & Herr & Hok).
  destruct (grade_loop file_path data [] exs 0 w1) as [[ok exs'] w2]. simpl in *.
  subst exs'. destruct ok.
  - (* the loop ends: the final save *)
    assert (Hq : write_errors new = []) by (by destruct Herr as [?|(_ & ? & _)]).
    rewrite (with_examples_present _ _ _ Hexs).
    destruct (write_json_cases file_path (PDict (<[k_example := PList todo']> data)) w2)
      as [[Henc ->]|[Henc ->]]; cbn [fst snd w_trace].
    + exists (newb ++ new ++ [EvWrite file_path]).
      rewrite Ht, Htb, <- !app_assoc. split; [done|]. split.
      { rewrite !posts_app, Hpb, !length_app. simpl. lia. }
      assert (Hr : read_json file_path
                     {| w_fs := <[file_path := JsonFile (PDict (<[k_example := PList todo']> data))]>
                                  (w_fs w2);
                        w_remote := w_remote w2; w_clock := w_clock w2;
                        w_trace := w_trace w ++ newb ++ new ++ [EvWrite file_path] |}
                   = Some (PDict (<[k_example := PList todo']> data)))
        by (unfold read_json; cbn [w_fs]; by rewrite lookup_insert_eq).
      split; [left; by exists todo'|]. split.
      { intros _. rewrite !write_errors_app, Hqb, Hq. done. }
      intros _ Hrec _. split; [done|]. exists todo'. split; [done|]. split; [done|].
      by destruct (Hok Hrec Hq).
    + exists (newb ++ new ++ [EvWriteError file_path]).
      rewrite Ht, Htb, <- !app_assoc. split; [done|]. split.
      { rewrite !posts_app, Hpb, !length_app. simpl. lia. }
      split.
      { right. split; [unfold read_json; cbn [w_fs]; by rewrite lookup_insert_eq|].
        split; [done|]. rewrite !elem_of_app. right. right. by left. }
      split; [done|].
      intros _ _. rewrite !write_errors_app, Hqb, Hq. done.
  - (* the loop was left by an exception *)
    exists (newb ++ new). cbn [fst snd]. rewrite Ht, Htb, <- !app_assoc.
    split; [done|]. split; [rewrite !posts_app, Hpb; simpl; lia|].
    split; [|split; [done|]].
    + destruct Herr as [Hq|(Hq & _ & Hlost)].
      * left. destruct (Hfile Hq) as [Hfile'|(todo'' & Hk'' & Hfile')].
        -- exists exs. split; [|apply keeps_graded_refl].
           by rewrite (read_json_fs _ w), Hsame by (by rewrite Hfile', Hfs1, Hfs).
        -- exists todo''. split; [|done].
           unfold read_json. by rewrite Hfile', (with_examples_present _ _ _ Hexs).
      * right. split; [unfold read_json; by rewrite Hlost|]. split; [done|].
        apply elem_of_app. right. apply write_errors_elem. rewrite Hq. by left.
    + intros _ Hrec. rewrite write_errors_app, Hqb. simpl. intros Hq.
      by destruct (Hok Hrec Hq).
Qed.

End TeacherRun.

(** ** The scan of [regrade_zero_scores.py] *)

Section ScanFacts.

Variable float_of_str : pystr -> option float.

Local Abbreviation is_zero_score := (ReGradingSystem.is_zero_score float_of_str).
Local Abbreviation zero_indices_from := (ReGradingSystem.zero_indices_from float_of_str).
Local Abbreviation file_zero_indices := (ReGradingSystem.file_zero_indices float_of_str).
Local Abbreviation scan_file := (ReGradingSystem.scan_file float_of_str).
Local Abbreviation scan_and_collect_zero_scores :=
  (ReGradingSystem.scan_and_collect_zero_scores float_of_str).
Local Abbreviation selected := (zero_scored float_of_str).
Local Abbreviation readable := (scannable float_of_str).
Local Abbreviation file_entry := (file_entry float_of_str).

Lemma is_zero_score_spec ex b :
  is_zero_score ex = Some b ->
  (b = true <-> selected [ex] 0).
Proof.
  unfold ReGradingSystem.is_zero_score, zero_scored.
  destruct ex as [| | | | | |q]; try done. unfold dict_get.
  destruct (q !! k_teacher_score) as [v|] eqn:Hv.
  - assert (Hnone : v = PNone -> Some false = Some b ->
                     b = true <-> zero_scored float_of_str [PDict q] 0).
    { intros -> [= <-]. split; [done|].
      intros (? & ? & ? & [= <-] & ? & ? & _). congruence. }
    assert (Hsome : v <> PNone ->
                    match py_float float_of_str v with
                    | Converted f => Some (PrimFloat.eqb f 0)
                    | _ => None
                    end = Some b ->
                    b = true <-> zero_scored float_of_str [PDict q] 0).
    { intros Hne Hf.
      destruct (py_float float_of_str v) as [f| |] eqn:Hc; try done.
      injection Hf as <-. split.
      * intros Hz. exists q, v, f. by simpl.
      * intros (? & ? & ? & [= <-] & ? & ? & ? & ?). congruence. }
    unfold zero_scored in *.
    destruct v; [by apply Hnone|by apply Hsome..].
  - intros [= <-]. split; [done|]. intros (? & ? & ? & [= <-] & ? & _). congruence.
Qed.

Lemma zero_scored_cons ex exs i : selected (ex :: exs) (S i) <-> selected exs i.
Proof. done. Qed.

Lemma zero_scored_head ex exs : selected (ex :: exs) 0 <-> selected [ex] 0.
Proof. done. Qed.

Lemma zero_indices_from_spec exs : forall idx zero_indices,
  zero_indices_from idx exs = Some zero_indices ->
  StronglySorted lt zero_indices
  /\ forall j, j ∈ zero_indices <-> exists i, j = (idx + i)%nat /\ selected exs i.
Proof.
  induction exs as [|ex exs IH]; intros idx zero_indices; simpl.
  - intros [= <-]. split; [constructor|]. intros j. split.
    + by intros ?%elem_of_nil.
    + intros (i & _ & (? & ? & ? & ? & _)). done.
  - destruct (is_zero_score ex) as [b|] eqn:Hb; [|done]. simpl.
    destruct (zero_indices_from (S idx) exs) as [l|] eqn:Hl; [|done]. simpl.
    intros [= <-]. destruct (IH _ _ Hl) as [Hsorted Hmem].
    apply is_zero_score_spec in Hb.
    assert (Hrest : forall j, j ∈ l -> (idx < j)%nat).
    { intros j (i & -> & _)%Hmem. lia. }
    assert (Hiff : forall j, (j = idx /\ b = true) \/ j ∈ l
                   <-> exists i, j = (idx + i)%nat /\ selected (ex :: exs) i).
    { intros j. split.
      - intros [[-> Hbt]|Hj].
        + exists 0%nat. split; [lia|]. apply zero_scored_head. by apply Hb.
        + apply Hmem in Hj as (i & -> & Hz). exists (S i). split; [lia|done].
      - intros ([|i] & -> & Hz).
        + left. split; [lia|]. by apply Hb.
        + right. apply Hmem. exists i. split; [lia|done]. }
    destruct b.
    + split.
      * constructor; [done|]. apply Forall_forall. auto.
      * intros j. rewrite <- Hiff, elem_of_cons. intuition.
    + split; [done|]. intros j. rewrite <- Hiff. intuition congruence.
Qed.

Lemma zero_indices_from_scannable exs : forall idx,
  Forall readable exs -> is_Some (zero_indices_from idx exs).
Proof.
  induction exs as [|ex exs IH]; intros idx Hall; simpl; [done|].
  apply Forall_cons in Hall as [(q & -> & Hq) Hall].
  destruct (IH (S idx) Hall) as [l ->].
  assert (is_Some (is_zero_score (PDict q))) as [b ->]; [|done].
  unfold ReGradingSystem.is_zero_score, dict_get.
  destruct (q !! k_teacher_score) as [v|]; [|done].
  destruct (Hq v eq_refl) as [->|[f Hf]]; [done|].
  destruct v; try done; by rewrite Hf.
Qed.

Lemma scan_file_lookup (w : world) (m : gmap pystr (list nat)) (json_file p : pystr) :
  scan_file w m json_file !! p
  = if decide (p = json_file) then
      match file_entry w p with Some l => Some l | None => m !! p end
    else m !! p.
Proof.
  unfold ReGradingSystem.scan_file, file_entry.
  destruct (decide (p = json_file)) as [->|Hne].
  - destruct (read_json json_file w) as [data|]; [|done].
    destruct (file_zero_indices data) as [[|idx rest]|]; try done.
    by rewrite lookup_insert_eq.
  - destruct (read_json json_file w) as [data|]; [|done].
    destruct (file_zero_indices data) as [[|idx rest]|]; try done.
    by rewrite lookup_insert_ne.
Qed.

Lemma scan_files_lookup (w : world) (json_files : list pystr) :
  forall (m : gmap pystr (list nat)) (p : pystr),
  foldl (scan_file w) m json_files !! p
  = if decide (p ∈ json_files) then
      match file_entry w p with Some l => Some l | None => m !! p end
    else m !! p.
Proof.
  induction json_files as [|f files IH]; intros m p; cbn [foldl].
  - destruct (decide _) as [?%elem_of_nil|]; done.
  - rewrite IH, scan_file_lookup.
    destruct (decide (p ∈ files)), (decide (p = f)) as [->|],
      (decide (_ ∈ f :: files)) as [Hin|Hin];
      try done; try (by destruct (file_entry w _)).
    all: exfalso; rewrite ?elem_of_cons, ?elem_of_app in *; tauto.
Qed.

Lemma scan_dirs_lookup (w : world) (strategy_dirs : list (list pystr)) :
  forall (m : gmap pystr (list nat)) (p : pystr),
  foldl (fun zero_score_map json_files => foldl (scan_file w) zero_score_map json_files)
        m strategy_dirs !! p
  = if decide (p ∈ concat strategy_dirs) then
      match file_entry w p with Some l => Some l | None => m !! p end
    else m !! p.
Proof.
  induction strategy_dirs as [|d dirs IH]; intros m p; cbn [foldl concat].
  - destruct (decide _) as [?%elem_of_nil|]; done.
  - rewrite IH, scan_files_lookup.
    destruct (decide (p ∈ concat dirs)), (decide (p ∈ d)),
      (decide (_ ∈ d ++ concat dirs)) as [Hin|Hin];
      try done; try (by destruct (file_entry w _)).
    all: exfalso; rewrite ?elem_of_cons, ?elem_of_app in *; tauto.
Qed.

(** C4.  For a file the walk lists, whose document the scan reads without
    an exception: the map holds for it exactly the positions, in
    increasing order, of the records whose teacher score is present,
    not null and equal to 0.0 as a number; when there is none, the file
    has no entry. *)
Theorem scan_selects_zero_scores (strategy_dirs : list (list pystr)) (w : world)
    (json_file : pystr) (data : pydict) (exs : list pyval) :
  json_file ∈ concat strategy_dirs ->
  read_json json_file w = Some (PDict data) ->
  dict_get data k_example (PList []) = PList exs ->
  Forall readable exs ->
  match scan_and_collect_zero_scores (Some strategy_dirs) w !! json_file with
  | Some zero_indices =>
      zero_indices <> []
      /\ StronglySorted lt zero_indices
      /\ forall i, i ∈ zero_indices <-> selected exs i
  | None => forall i, ~ selected exs i
  end.
Proof.
  intros Hin Hread Hexs Hscan.
  unfold ReGradingSystem.scan_and_collect_zero_scores.
  rewrite scan_dirs_lookup, decide_True by done. rewrite lookup_empty.
  unfold file_entry. rewrite Hread. unfold ReGradingSystem.file_zero_indices. rewrite Hexs.
  destruct (zero_indices_from_scannable exs 0 Hscan) as [l Hl]. rewrite Hl.
  destruct (zero_indices_from_spec _ _ _ Hl) as [Hsorted Hmem].
  assert (Hmem' : forall i, i ∈ l <-> selected exs i).
  { intros i. rewrite Hmem. split; [by intros (? & -> & ?)|eauto]. }
  destruct l as [|idx rest].
  - intros i Hi%Hmem'. by apply elem_of_nil in Hi.
  - done.
Qed.

End ScanFacts.

(** ** The repair loop of [regrade_zero_scores.py] *)

Section ReGradingFile.

Variable isspace : N -> bool.
Variable json_loads : pystr -> option pyval.
Variable float_of_str : pystr -> option float.
Variable strftime : N -> pystr.
Variable with_suffix : pystr -> pystr -> pystr.
Variable re_search : pystr -> pystr -> option pystr.
Variable max_retries : nat.
Variable backup : bool.

Local Abbreviation call_teacher_api :=
  (ReGradingSystem.call_teacher_api isspace json_loads float_of_str re_search max_retries).
Local Abbreviation regrade_question :=
  (ReGradingSystem.regrade_question isspace json_loads float_of_str strftime re_search
     max_retries).
Local Abbreviation regrade_loop :=
  (ReGradingSystem.regrade_loop isspace json_loads float_of_str strftime re_search
     max_retries).
Local Abbreviation process_file :=
  (ReGradingSystem.process_file isspace json_loads float_of_str strftime with_suffix
     re_search max_retries backup).

Lemma regrade_question_failed (q : pydict) (w : world) :
  (call_teacher_api (construct_grading_prompt q) w).1 = None ->
  (regrade_question q w).1 = (q, None).
Proof.
  unfold ReGradingSystem.regrade_question.
  destruct (call_teacher_api _ w) as [[v|] w1]; simpl; [done|]. done.
Qed.

Lemma regrade_question_regradable (q : pydict) (w : world) :
  regradable (PDict q) ->
  regradable (PDict (regrade_question q w).1.1)
  /\ ReGradingSystem.improved (regrade_question q w).1.2
       (dict_get q k_teacher_score (PFloat 0%float)) <> None.
Proof.
  intros (q0 & [= <-] & Hq). unfold ReGradingSystem.regrade_question.
  destruct (call_teacher_api _ w) as [[v|] w1]; simpl.
  - split.
    + eexists. split; [done|]. rewrite lookup_insert_ne by (by vm_compute).
      by rewrite lookup_insert_eq.
    + unfold dict_get. by destruct (q !! k_teacher_score) as [[]|].
  - split; [by exists q|].
    unfold dict_get. by destruct (q !! k_teacher_score) as [[]|].
Qed.

Lemma regrade_question_quiet (q : pydict) (w : world) :
  exists new,
    w_trace (regrade_question q w).2 = w_trace w ++ new /\ write_errors new = [].
Proof.
  unfold ReGradingSystem.regrade_question.
  destruct (regrade_call_frame isspace json_loads float_of_str re_search max_retries
              (construct_grading_prompt q) w) as (new & Ht & _).
  pose proof (regrade_call_quiet isspace json_loads float_of_str re_search max_retries
                (construct_grading_prompt q) w new Ht) as Hq.
  destruct (call_teacher_api _ w) as [[v|] w1]; simpl in *; eauto.
Qed.

(** Over records that can be regraded the loop is left early by a failed
    save only. *)
Lemma regrade_loop_completes (file_path : pystr) (data : pydict)
    (zero_indices : list nat) :
  forall (examples : list pyval) (regraded_count : nat) (w : world),
    Forall regradable examples ->
    Forall regradable
      (regrade_loop file_path data examples zero_indices regraded_count w).1.2
    /\ exists new,
         w_trace (regrade_loop file_path data examples zero_indices regraded_count w).2
           = w_trace w ++ new
         /\ ((write_errors new = []
              /\ (regrade_loop file_path data examples zero_indices regraded_count w).1.1
                 = true)
             \/ (write_errors new = [EvWriteError file_path]
                 /\ (regrade_loop file_path data examples zero_indices regraded_count w).1.1
                    = false)).
Proof.
  induction zero_indices as [|idx rest IH]; intros examples regraded_count w Hall.
  { split; [done|]. exists []. simpl. rewrite app_nil_r. split; [done|]. by left. }
  cbn [ReGradingSystem.regrade_loop].
  destruct (examples !! idx) as [ex|] eqn:Hex; [|by apply IH].
  pose proof (Forall_lookup_1 _ _ _ _ Hall Hex) as Hreg.
  destruct Hreg as (q & -> & Hq).
  destruct (regrade_question_regradable q w) as [Hreg' Himp]; [by exists q|].
  destruct (regrade_question_quiet q w) as (new1 & Ht1 & Hq1).
  destruct (regrade_question q w) as [[q' grading_result] w1]. cbn [fst snd] in *.
  destruct (ReGradingSystem.improved grading_result _);
    [|split; [by apply Forall_insert|]; exists new1; split; [done|]; by exfalso].
  assert (Hall' : Forall regradable (<[idx := PDict q']> examples))
    by (by apply Forall_insert).
  destruct (S regraded_count mod 5 =? 0)%nat;
    [destruct (write_json_cases file_path
                 (with_examples data (<[idx := PDict q']> examples)) w1)
       as [[He ->]|[He ->]]|]; cbv beta iota.
  - match goal with
    | |- context [sleep 500 ?w2] =>
        destruct (IH (<[idx := PDict q']> examples) (S regraded_count) (sleep 500 w2) Hall')
          as (Hr & new & Ht & Hcases)
    end.
    split; [done|]. exists (new1 ++ [EvWrite file_path; EvSleep 500] ++ new).
    split; [rewrite Ht; cbn [sleep emit w_trace]; by rewrite Ht1, <- !app_assoc|].
    rewrite !write_errors_app, Hq1. cbn [app write_errors List.filter is_write_error].
    exact Hcases.
  - split; [done|]. exists (new1 ++ [EvWriteError file_path]).
    cbn [fst snd w_trace]. rewrite Ht1, <- !app_assoc. split; [done|].
    rewrite !write_errors_app, Hq1. by right.
  - destruct (IH (<[idx := PDict q']> examples) (S regraded_count) (sleep 500 w1) Hall')
      as (Hr & new & Ht & Hcases).
    split; [done|]. exists (new1 ++ [EvSleep 500] ++ new).
    split; [rewrite Ht; cbn [sleep emit w_trace]; by rewrite Ht1, <- !app_assoc|].
    rewrite !write_errors_app, Hq1. cbn [app write_errors List.filter is_write_error].
    exact Hcases.
Qed.

(** A regrading pass over records that can be regraded ends normally
    unless a write fails. *)
Lemma process_file_completes (file_path : pystr) (zero_indices : list nat)
    (w : world) (data : pydict) (exs : list pyval) :
  read_json file_path w = Some (PDict data) ->
  dict_get data k_example (PList []) = PList exs ->
  Forall regradable exs ->
  exists new,
    w_trace (process_file file_path zero_indices w).2 = w_trace w ++ new
    /\ ((process_file file_path zero_indices w).1 = true <-> write_errors new = []).
Proof.
  intros Hread Hexs Hall. unfold ReGradingSystem.process_file. rewrite Hread, Hexs.
  destruct (backup_file_spec backup with_suffix (u ".json.regrade_backup") file_path
              (PDict data) w) as (newb & Htb & _ & _ & Hcb).
  destruct (backup_file backup with_suffix (u ".json.regrade_backup") file_path
              (PDict data) w) as [saved w1].
  cbn [fst snd] in Htb, Hcb.
  destruct Hcb as [[-> Hqb]|(-> & -> & _)].
  2: { exists [EvWriteError (with_suffix file_path (u ".json.regrade_backup"))].
       cbn [fst snd]. split; [done|]. split; [done|]. intros H. discriminate H. }
  destruct (regrade_loop_completes file_path data zero_indices exs 0 w1 Hall)
    as (_ & new & Ht & Hcases).
  destruct (regrade_loop file_path data exs zero_indices 0 w1) as [[ok exs'] w2].
  cbn [fst snd] in Ht, Hcases.
  destruct Hcases as [[Hq ->]|[Hq ->]].
  - destruct (write_json_cases file_path (with_examples data exs') w2)
      as [[He ->]|[He ->]]; cbn [fst snd w_trace].
    + exists (newb ++ new ++ [EvWrite file_path]). rewrite Ht, Htb, <- !app_assoc.
      split; [done|]. rewrite !write_errors_app, Hqb, Hq. done.
    + exists (newb ++ new ++ [EvWriteError file_path]). rewrite Ht, Htb, <- !app_assoc.
      split; [done|]. rewrite !write_errors_app, Hqb, Hq. done.
  - exists (newb ++ new). cbn [fst snd]. rewrite Ht, Htb, <- !app_assoc.
    split; [done|]. rewrite !write_errors_app, Hqb, Hq. done.
Qed.

End ReGradingFile.

(** ** The two graders *)

Section GraderFacts.

Variable isspace : N -> bool.
Variable json_loads : pystr -> option pyval.
Variable float_of_str : pystr -> option float.
Variable strftime : N -> pystr.
Variable with_suffix : pystr -> pystr -> pystr.
Variable re_search : pystr -> pystr -> option pystr.
Variable max_retries : nat.
Variable backup : bool.

Local Abbreviation teacher_parse_reply :=
  (TeacherGradingSystem.parse_reply isspace json_loads float_of_str).
Local Abbreviation teacher_call :=
  (TeacherGradingSystem.call_teacher_api isspace json_loads float_of_str max_retries).
Local Abbreviation grade_single_question :=
  (TeacherGradingSystem.grade_single_question isspace json_loads float_of_str strftime
     max_retries).
Local Abbreviation process_json_file :=
  (TeacherGradingSystem.process_json_file isspace json_loads float_of_str strftime
     with_suffix max_retries backup).
Local Abbreviation regrade_parse_reply :=
  (ReGradingSystem.parse_reply isspace json_loads float_of_str re_search).
Local Abbreviation regrade_call :=
  (ReGradingSystem.call_teacher_api isspace json_loads float_of_str re_search max_retries).
Local Abbreviation regrade_question :=
  (ReGradingSystem.regrade_question isspace json_loads float_of_str strftime re_search
     max_retries).
Local Abbreviation process_file :=
  (ReGradingSystem.process_file isspace json_loads float_of_str strftime with_suffix
     re_search max_retries backup).

(** C2.  When every record of the file has a teacher score and a teacher
    rationale, a run over the file changes nothing of the world: no
    request is sent and no file is written. *)
Theorem completed_file_is_left_alone (file_path : pystr) (w : world)
    (data : pydict) (exs : list pyval) :
  read_json file_path w = Some (PDict data) ->
  dict_get data k_example (PList []) = PList exs ->
  Forall (fun ex => has_key k_teacher_score ex /\ has_key k_teacher_analysis ex) exs ->
  (process_json_file file_path w).2 = w
  /\ posts (w_trace (process_json_file file_path w).2) = posts (w_trace w)
  /\ writes (w_trace (process_json_file file_path w).2) = writes (w_trace w)
  /\ w_fs (process_json_file file_path w).2 = w_fs w.
Proof.
  intros Hread Hexs Hall.
  assert ((process_json_file file_path w).2 = w) as ->; [|done].
  unfold TeacherGradingSystem.process_json_file. rewrite Hread, Hexs.
  destruct exs as [|ex exs']; [done|]. set (exs := ex :: exs') in *.
  replace (negb (truthy (PList exs))) with false by done. cbv iota.
  rewrite count_graded_all.
  - by rewrite Nat.sub_diag.
  - eapply Forall_impl; [exact Hall|]. by intros ? [? _].
Qed.

(** C10.  A record that has a [teacher_score] is passed over by the
    grading loop, with or without a rationale: the loop goes on to the
    next record with the world as it is (no request) and the record as
    it is.  So, whatever the remote grader replies, a run over a file
    sends at most [max_retries] requests for each record that has no
    score and none for a record that has one, and the file read back
    after the run holds every record that had a score as it was (a
    record without a rationale is still without one).  The file does not
    read back in one case only: a save that failed, which ends the run
    with [False] and leaves the file truncated. *)
Theorem scored_records_are_passed_over (file_path : pystr) (w : world)
    (data : pydict) (exs : list pyval) :
  read_json file_path w = Some (PDict data) ->
  data !! k_example = Some (PList exs) ->
  (forall (q : pydict) done rest graded_count w0,
     is_Some (q !! k_teacher_score) ->
     TeacherGradingSystem.grade_loop isspace json_loads float_of_str strftime max_retries
       file_path data done (PDict q :: rest) graded_count w0
     = TeacherGradingSystem.grade_loop isspace json_loads float_of_str strftime max_retries
         file_path data (done ++ [PDict q]) rest graded_count w0)
  /\ exists new,
      w_trace (process_json_file file_path w).2 = w_trace w ++ new
      /\ (length (posts new) <= max_retries * ungraded exs)%nat
      /\ (Forall (has_key k_teacher_score) exs -> posts new = [])
      /\ ((exists exs',
             read_json file_path (process_json_file file_path w).2
               = Some (PDict (<[k_example := PList exs']> data))
             /\ length exs' = length exs
             /\ (forall i (q : pydict),
                   exs !! i = Some (PDict q) -> is_Some (q !! k_teacher_score) ->
                   exs' !! i = Some (PDict q))
             /\ (forall i (q : pydict),
                   exs !! i = Some (PDict q) -> is_Some (q !! k_teacher_score) ->
                   q !! k_teacher_analysis = None ->
                   exists q' : pydict,
                     exs' !! i = Some (PDict q') /\ q' !! k_teacher_analysis = None))
          \/ (read_json file_path (process_json_file file_path w).2 = None
              /\ (process_json_file file_path w).1 = false
              /\ EvWriteError file_path ∈ new)).
Proof.
  intros Hread Hexs. split.
  { intros q done rest graded_count w0 Hq.
    cbn [TeacherGradingSystem.grade_loop py_in].
    by rewrite bool_decide_eq_true_2. }
  destruct (process_json_file_spec isspace json_loads float_of_str strftime with_suffix
              max_retries backup file_path w data exs Hread Hexs)
    as (new & H1 & H2 & H3 & _).
  exists new. do 2 (split; [done|]). split.
  - intros Hall. apply length_zero_iff_nil.
    assert (ungraded exs = 0%nat) as Hzero; [|rewrite Hzero in H2; lia].
    clear - Hall. induction Hall as [|ex l Hex _ IH]; [done|].
    unfold ungraded in *. simpl. by rewrite (has_key_graded _ Hex).
  - destruct H3 as [(exs' & Hr & [Hlen Hkeep])|?]; [left|by right].
    assert (Hsame : forall i (q : pydict),
              exs !! i = Some (PDict q) -> is_Some (q !! k_teacher_score) ->
              exs' !! i = Some (PDict q)).
    { intros i q Hi Hq. apply Hkeep; [done|]. apply has_key_graded. by exists q. }
    exists exs'. do 3 (split; [done|]).
    intros i q Hi Hq Hnone. exists q. split; [by apply Hsame|done].
Qed.

(** A decoded reply without one of the two fields: the first grading
    goes to its next attempt, the regrading extracts from the text. *)
Lemma incomplete_reply (content : pystr) (grading_result : pyval) :
  json_loads (payload isspace content) = Some grading_result ->
  validate float_of_str grading_result = Incomplete ->
  teacher_parse_reply content = Incomplete
  /\ regrade_parse_reply content
     = Returned (ReGradingSystem._extract_from_raw_text isspace float_of_str re_search
                   (payload isspace content)).
Proof.
  intros Hjson Hval. split.
  - unfold TeacherGradingSystem.parse_reply. by rewrite Hjson.
  - unfold ReGradingSystem.parse_reply. by rewrite Hjson, Hval.
Qed.

(** The fallback chain of the regrading client: the strict parse, the
    parse of the repaired text, the extraction. *)
Lemma regrade_reply_chain (content : pystr) :
  let c := payload isspace content in
  let extracted :=
    Returned (ReGradingSystem._extract_from_raw_text isspace float_of_str re_search c) in
  let checked grading_result :=
    match validate float_of_str grading_result with
    | Incomplete => extracted
    | o => o
    end in
  regrade_parse_reply content
  = match json_loads c with
    | Some grading_result => checked grading_result
    | None =>
        match json_loads (escape_backslashes c) with
        | Some grading_result => checked grading_result
        | None => extracted
        end
    end.
Proof.
  cbv zeta. unfold ReGradingSystem.parse_reply.
  destruct (json_loads (payload isspace content)); [done|].
  by destruct (json_loads (escape_backslashes (payload isspace content))).
Qed.

(** Without a match of any pattern the extracted score is 0.0. *)
Lemma first_score_no_match (patterns : list pystr) (content : pystr) :
  (forall pattern, pattern ∈ patterns -> re_search pattern content = None) ->
  ReGradingSystem.first_score float_of_str re_search patterns content = 0%float.
Proof.
  induction patterns as [|pattern rest IH]; intros Hnone; [done|].
  cbn [ReGradingSystem.first_score].
  rewrite (Hnone pattern) by left. apply IH. intros p Hp. apply Hnone. by right.
Qed.

Lemma extraction_defaults_to_zero (content : pystr) :
  (forall pattern, pattern ∈ ReGradingSystem.score_patterns ->
                   re_search pattern content = None) ->
  teacher_score
    (ReGradingSystem._extract_from_raw_text isspace float_of_str re_search content)
  = 0%float.
Proof. intros Hnone. by apply first_score_no_match. Qed.

(** C3.  A reply that is not JSON, not even after the repair of its
    backslashes, and in which the first score pattern finds a number:
    the regrading client returns that number, the client of the first
    grading returns 0.0 with the text as rationale; it has neither the
    repair pass nor the pattern extraction. *)
Theorem teacher_reply_without_fallback (content group : pystr) (score : float) :
  json_loads (payload isspace content) = None ->
  json_loads (escape_backslashes (payload isspace content)) = None ->
  re_search (hd [] ReGradingSystem.score_patterns) (payload isspace content)
    = Some group ->
  float_of_str group = Some score ->
  teacher_parse_reply content
    = Returned (Verdict (PStr (payload isspace content)) 0%float)
  /\ exists analysis, regrade_parse_reply content = Returned (Verdict analysis score).
Proof.
  intros H1 H2 H3 H4. split.
  - unfold TeacherGradingSystem.parse_reply. by rewrite H1.
  - unfold ReGradingSystem.parse_reply. rewrite H1, H2.
    unfold ReGradingSystem._extract_from_raw_text. eexists. do 2 f_equal.
    unfold ReGradingSystem.score_patterns in *. cbn [hd] in H3.
    cbn [ReGradingSystem.first_score]. by rewrite H3, H4.
Qed.

(** C5.  For both graders: a call sends at most [max_retries] requests
    (a field of [self]; the constructor defaults it to 3).  When the
    replies to all of them are network failures or statuses other than
    200, the call returns no verdict, having sent exactly [max_retries]
    requests, each but the last followed by a sleep of [2 ** attempt]
    seconds, that is of [1000 * 2 ^ attempt] milliseconds (with three
    attempts: one second, then two, and four after a last status).
    After a call without verdict the first grading marks the record
    with the failure rationale and the score 0.0; the regrading returns
    the record as it was; and either loop, once the save that is due
    every fifth record is written, goes on with the next record.  Over a
    file of records no reply of the grader ends the run: it ends
    normally, the first grading leaving every record with a score,
    unless a write fails. *)
Theorem exhausted_call_gives_no_verdict :
  TeacherGradingSystem.default_max_retries = 3%nat
  /\ ReGradingSystem.default_max_retries = 3%nat
  /\ (forall request w, exists new,
      w_trace (teacher_call request w).2 = w_trace w ++ new
      /\ (length (posts new) <= max_retries)%nat)
  /\ (forall request w, exists new,
        w_trace (regrade_call request w).2 = w_trace w ++ new
        /\ (length (posts new) <= max_retries)%nat)
  /\ (forall request w,
        Forall failed (take max_retries (w_remote w)) ->
        (teacher_call request w).1 = None
        /\ (regrade_call request w).1 = None
        /\ exists tail tail',
             (tail = []
              \/ tail = [EvSleep (1000 * 2 ^ N.of_nat (max_retries - 1))%N])
             /\ (tail' = []
                 \/ tail' = [EvSleep (1000 * 2 ^ N.of_nat (max_retries - 1))%N])
             /\ w_trace (teacher_call request w).2
                = w_trace w ++ exhausted_trace request max_retries tail
             /\ w_trace (regrade_call request w).2
                = w_trace w ++ exhausted_trace request max_retries tail')
  /\ (forall request tail,
        posts tail = [] ->
        length (posts (exhausted_trace request max_retries tail)) = max_retries)
  /\ (forall request tail attempt,
        (S attempt < max_retries)%nat ->
        exhausted_trace request max_retries tail !! (2 * attempt)%nat
          = Some (EvPost request)
        /\ exhausted_trace request max_retries tail !! S (2 * attempt)
           = Some (EvSleep (1000 * 2 ^ N.of_nat attempt)%N)
        /\ exhausted_trace request max_retries tail !! (2 * S attempt)%nat
           = Some (EvPost request))
  /\ (forall request fs clock,
        let silent := World fs [] clock [] in
        let refusing :=
          World fs [Http 500 None; Http 503 None; Http 429 None] clock [] in
        let waited :=
          [EvPost request; EvSleep 1000; EvPost request; EvSleep 2000; EvPost request] in
        TeacherGradingSystem.call_teacher_api isspace json_loads float_of_str 3 request
          silent
        = (None, World fs [] (clock + 1000 + 2000) waited)
        /\ ReGradingSystem.call_teacher_api isspace json_loads float_of_str re_search 3
             request silent
           = (None, World fs [] (clock + 1000 + 2000) waited)
        /\ TeacherGradingSystem.call_teacher_api isspace json_loads float_of_str 3
             request refusing
           = (None, World fs [] (clock + 1000 + 2000 + 4000) (waited ++ [EvSleep 4000]))
        /\ ReGradingSystem.call_teacher_api isspace json_loads float_of_str re_search 3
             request refusing
           = (None, World fs [] (clock + 1000 + 2000 + 4000) (waited ++ [EvSleep 4000])))
  /\ (forall (q : pydict) w,
        q !! k_teacher_score = None \/ q !! k_teacher_analysis = None ->
        (teacher_call (construct_grading_prompt q) w).1 = None ->
        exists (q' : pydict) w1,
          grade_single_question (PDict q) w = Some (PDict q', w1)
          /\ q' !! k_teacher_analysis
             = Some (PStr TeacherGradingSystem.failure_analysis)
          /\ q' !! k_teacher_score = Some (PFloat 0%float))
  /\ (forall (q : pydict) w,
        (regrade_call (construct_grading_prompt q) w).1 = None ->
        (regrade_question q w).1 = (q, None))
  /\ (forall file_path (data : pydict) done (q : pydict) rest graded_count w,
        q !! k_teacher_score = None ->
        (teacher_call (construct_grading_prompt q) w).1 = None ->
        exists (q' : pydict) w1,
          grade_single_question (PDict q) w = Some (PDict q', w1)
          /\ forall w2,
               (if (S graded_count mod 5 =? 0)%nat
                then write_json file_path
                       (with_examples data (done ++ PDict q' :: rest)) w1
                else (true, w1)) = (true, w2) ->
               TeacherGradingSystem.grade_loop isspace json_loads float_of_str strftime
                 max_retries file_path data done (PDict q :: rest) graded_count w
               = TeacherGradingSystem.grade_loop isspace json_loads float_of_str strftime
                   max_retries file_path data (done ++ [PDict q']) rest (S graded_count)
                   (sleep 500 w2))
  /\ (forall file_path (data : pydict) examples idx rest (q : pydict) regraded_count w,
        examples !! idx = Some (PDict q) ->
        regradable (PDict q) ->
        (regrade_call (construct_grading_prompt q) w).1 = None ->
        forall w2,
          (if (S regraded_count mod 5 =? 0)%nat
           then write_json file_path (with_examples data examples)
                  (regrade_call (construct_grading_prompt q) w).2
           else (true, (regrade_call (construct_grading_prompt q) w).2)) = (true, w2) ->
          ReGradingSystem.regrade_loop isspace json_loads float_of_str strftime re_search
            max_retries file_path data examples (idx :: rest) regraded_count w
          = ReGradingSystem.regrade_loop isspace json_loads float_of_str strftime re_search
              max_retries file_path data examples rest (S regraded_count) (sleep 500 w2))
  /\ (forall file_path w (data : pydict) exs,
        read_json file_path w = Some (PDict data) ->
        data !! k_example = Some (PList exs) ->
        exs <> [] ->
        Forall is_record exs ->
        exists new,
          w_trace (process_json_file file_path w).2 = w_trace w ++ new
          /\ ((process_json_file file_path w).1 = true <-> write_errors new = [])
          /\ ((process_json_file file_path w).1 = true ->
              exists exs',
                read_json file_path (process_json_file file_path w).2
                  = Some (PDict (<[k_example := PList exs']> data))
                /\ length exs' = length exs
                /\ Forall (has_key k_teacher_score) exs'))
  /\ (forall file_path zero_indices w (data : pydict) exs,
        read_json file_path w = Some (PDict data) ->
        dict_get data k_example (PList []) = PList exs ->
        Forall regradable exs ->
        exists new,
          w_trace (process_file file_path zero_indices w).2 = w_trace w ++ new
          /\ ((process_file file_path zero_indices w).1 = true
              <-> write_errors new = [])).
Proof.
  do 2 (split; [done|]).
  repeat match goal with |- _ /\ _ => split end.
  - intros request w.
    destruct (teacher_call_frame isspace json_loads float_of_str max_retries request w)
      as (new & ? & ? & _). eauto.
  - intros request w.
    destruct (regrade_call_frame isspace json_loads float_of_str re_search max_retries
                request w) as (new & ? & ? & _). eauto.
  - intros request w Hfailed.
    destruct (teacher_call_exhausted isspace json_loads float_of_str max_retries
                request w Hfailed) as (? & tail & ? & ?).
    destruct (regrade_call_exhausted isspace json_loads float_of_str re_search max_retries
                request w Hfailed) as (? & tail' & ? & ?).
    split; [done|]. split; [done|]. by exists tail, tail'.
  - intros request tail Htail. unfold exhausted_trace.
    destruct max_retries as [|m]; [done|].
    rewrite posts_app, posts_backoff_steps. cbn [posts List.filter is_post].
    fold (posts tail). rewrite Htail, length_app, repeat_length, length_seq. simpl. lia.
  - intros request tail attempt Hlt. unfold exhausted_trace.
    destruct max_retries as [|m]; [lia|].
    destruct (backoff_steps_lookup request m attempt) as [H1 H2]; [lia|].
    assert (Hlen := backoff_steps_length request (seq 0 m)). rewrite length_seq in Hlen.
    split; [|split].
    + rewrite lookup_app_l by lia. done.
    + rewrite lookup_app_l by lia. done.
    + destruct (decide (S attempt < m)%nat) as [Hlt'|Hge].
      * rewrite lookup_app_l by lia.
        by destruct (backoff_steps_lookup request m (S attempt) Hlt').
      * rewrite lookup_app_r by lia.
        replace (2 * S attempt - length (backoff_steps request (seq 0 m)))%nat
          with 0%nat by lia. done.
  - intros request fs clock. cbv zeta.
    unfold TeacherGradingSystem.call_teacher_api, ReGradingSystem.call_teacher_api.
    cbn [seq TeacherGradingSystem.attempt_loop ReGradingSystem.attempt_loop post emit
         sleep w_remote w_fs w_clock w_trace Nat.ltb Nat.leb Nat.sub Z.eqb Pos.eqb app].
    unfold backoff. cbn [N.of_nat Pos.of_succ_nat Pos.succ].
    replace (1000 * 2 ^ 0)%N with 1000%N by done.
    replace (1000 * 2 ^ 1)%N with 2000%N by done.
    replace (1000 * 2 ^ 2)%N with 4000%N by done.
    done.
  - intros q w Hmiss Hcall. unfold TeacherGradingSystem.grade_single_question.
    assert (Hin : (match py_in k_teacher_score (PDict q) with
                   | Some has_score =>
                       if has_score then py_in k_teacher_analysis (PDict q)
                       else Some false
                   | None => None
                   end) = Some false).
    { simpl. destruct Hmiss as [H|H]; rewrite H.
      - by rewrite bool_decide_eq_false_2 by (by intros [? ?]).
      - case_bool_decide; [|done]. by rewrite bool_decide_eq_false_2 by (by intros [? ?]). }
    destruct (py_in k_teacher_score (PDict q)) as [has_score|]; [|done].
    rewrite Hin.
    destruct (teacher_call (construct_grading_prompt q) w) as [grading_result w1].
    simpl in Hcall. subst grading_result.
    eexists _, w1. split; [done|].
    rewrite !lookup_insert_ne by (by vm_compute).
    rewrite lookup_insert_eq. rewrite lookup_insert_ne by (by vm_compute).
    by rewrite lookup_insert_eq.
  - intros q w. apply regrade_question_failed.
  - intros file_path data done q rest graded_count w Hq Hcall.
    cbn [TeacherGradingSystem.grade_loop py_in].
    rewrite bool_decide_eq_false_2 by (rewrite Hq; by intros [? ?]).
    unfold TeacherGradingSystem.grade_single_question. cbn [py_in].
    rewrite bool_decide_eq_false_2 by (rewrite Hq; by intros [? ?]).
    destruct (teacher_call (construct_grading_prompt q) w) as [grading_result w1].
    cbn [fst] in Hcall. subst grading_result.
    eexists _, w1. split; [done|]. intros w2 Hsave. by rewrite Hsave.
  - intros file_path data examples idx rest q regraded_count w Hidx (q0 & [= <-] & Hq) Hcall.
    cbn [ReGradingSystem.regrade_loop]. rewrite Hidx.
    unfold ReGradingSystem.regrade_question.
    destruct (regrade_call (construct_grading_prompt q) w) as [grading_result w1].
    cbn [fst snd] in *. subst grading_result.
    assert (Himp : ReGradingSystem.improved None (dict_get q k_teacher_score (PFloat 0))
                   = Some false).
    { unfold dict_get. by destruct (q !! k_teacher_score) as [[]|]. }
    rewrite Himp, list_insert_id by done.
    intros w2 Hsave. by rewrite Hsave.
  - intros file_path w data exs Hread Hexs Hne Hrec.
    destruct (process_json_file_spec isspace json_loads float_of_str strftime with_suffix
                max_retries backup file_path w data exs Hread Hexs)
      as (new & H1 & _ & _ & Hq & Hok).
    exists new. split; [done|]. split; [split; [done|]|].
    + intros Hnone. by destruct (Hok Hne Hrec Hnone).
    + intros Htrue. destruct (Hok Hne Hrec (Hq Htrue)) as (_ & exs' & ? & [? _] & ?).
      by exists exs'.
  - intros file_path zero_indices w data exs. apply process_file_completes.
Qed.

End GraderFacts.

(** ** More on the normalization and on the ratio *)

Section NormalizeInvariance.

Variable upper_nonascii : N -> pystr.

Local Abbreviation letters := (AutoScorer.letters upper_nonascii).
Local Abbreviation item_letters := (AutoScorer.item_letters upper_nonascii).
Local Abbreviation _normalize_answer := (AutoScorer._normalize_answer upper_nonascii).

Lemma sorted_set_ext (l l' : list pystr) :
  (forall x, x ∈ l <-> x ∈ l') -> sorted_set l = sorted_set l'.
Proof.
  intros H. unfold sorted_set.
  assert ((list_to_set l : gset pystr) = list_to_set l') as ->; [|done].
  apply set_eq. intros x. by rewrite !elem_of_list_to_set.
Qed.

Lemma letters_app (s t : pystr) : letters (s ++ t) = letters s ++ letters t.
Proof.
  unfold AutoScorer.letters, upper, findall_AZ.
  by rewrite flat_map_app, filter_app, map_app.
Qed.

Lemma letters_texts (items : list pyval) :
  letters (concat (texts items)) = flat_map item_letters items.
Proof.
  induction items as [|item items IH]; [done|].
  destruct item; try exact IH.
  change (texts (PStr s :: items)) with (s :: texts items).
  cbn [concat flat_map AutoScorer.item_letters]. by rewrite letters_app, IH.
Qed.

Lemma letters_upper_letter (c : N) : is_AZ c = true -> letters [c] = [[c]].
Proof.
  intros Hc. unfold is_AZ in Hc. apply andb_true_iff in Hc as [H1%N.leb_le H2%N.leb_le].
  unfold AutoScorer.letters, upper, findall_AZ, upper_char. cbn [flat_map].
  assert ((c <? 128)%N = true) as -> by (apply N.ltb_lt; lia).
  assert (is_az c = false) as ->.
  { unfold is_az. apply andb_false_iff. left. apply N.leb_gt. lia. }
  rewrite app_nil_r, filter_cons, decide_True; [done|].
  unfold is_AZ. apply andb_true_iff. split; apply N.leb_le; lia.
Qed.

(** X1.  A list answer is normalized as one text: the concatenation of
    its items that are strings.  The items that are not strings are
    ignored, and where an item ends does not matter. *)
Theorem normalize_list_as_text (items : list pyval) :
  _normalize_answer (PList items) = _normalize_answer (PStr (concat (texts items))).
Proof. simpl. by rewrite letters_texts. Qed.

(** X2.  The normalization of a list depends on the set of its items
    only: their order and their repetition change nothing. *)
Theorem normalize_same_items (items items' : list pyval) :
  (forall item, item ∈ items <-> item ∈ items') ->
  _normalize_answer (PList items) = _normalize_answer (PList items').
Proof.
  intros H. simpl. apply sorted_set_ext. intros x.
  rewrite !(elem_of_item_letters upper_nonascii).
  split; intros (s & Hs & Hx); exists s; (split; [by apply H|done]).
Qed.

Lemma alphabet_elem (c : N) : is_AZ c = true -> [c] ∈ alphabet.
Proof.
  intros Hc. unfold is_AZ in Hc. apply andb_true_iff in Hc as [H1%N.leb_le H2%N.leb_le].
  unfold alphabet. apply list_elem_of_fmap. exists c. split; [done|].
  apply list_elem_of_fmap. exists (N.to_nat c). split; [lia|].
  apply list_elem_of_In, in_seq. lia.
Qed.

Lemma normalize_fixed (answer : pyval) :
  _normalize_answer (PList (PStr <$> _normalize_answer answer)) = _normalize_answer answer.
Proof.
  set (r := _normalize_answer answer).
  assert (Hr : sorted_set r = r).
  { subst r. destruct answer; try done; cbn [AutoScorer._normalize_answer];
      apply sorted_set_ext; intros x; apply elem_of_sorted_set. }
  rewrite <- Hr at 2. simpl. apply sorted_set_ext. intros x.
  rewrite (elem_of_item_letters upper_nonascii). split.
  - intros (s & Hs & Hx). apply list_elem_of_fmap in Hs as (s' & [= <-] & Hs).
    destruct (normalize_single_letters upper_nonascii answer s Hs) as (c & -> & Hc).
    rewrite (letters_upper_letter c Hc) in Hx. apply list_elem_of_singleton in Hx as ->. done.
  - intros Hx. exists x. split; [apply list_elem_of_fmap; eauto|].
    destruct (normalize_single_letters upper_nonascii answer x Hx) as (c & -> & Hc).
    rewrite (letters_upper_letter c Hc). by left.
Qed.

Lemma normalize_length (answer : pyval) : (length (_normalize_answer answer) <= 26)%nat.
Proof.
  change 26%nat with (length alphabet).
  apply submseteq_length, NoDup_submseteq; [apply normalize_NoDup|].
  intros x Hx.
  destruct (normalize_single_letters upper_nonascii answer x Hx) as (c & -> & Hc).
  by apply alphabet_elem.
Qed.

(** X3.  The normalized answer is a fixed point: given back as a list of
    strings it is returned as it is.  It has at most 26 elements. *)
Theorem normalize_is_a_fixed_point (answer : pyval) :
  let r := _normalize_answer answer in
  _normalize_answer (PList (PStr <$> r)) = r /\ (length r <= 26)%nat.
Proof. split; [apply normalize_fixed|apply normalize_length]. Qed.

End NormalizeInvariance.

Section ScoreBounds.

Variable upper_nonascii : N -> pystr.

Local Abbreviation _normalize_answer := (AutoScorer._normalize_answer upper_nonascii).
Local Abbreviation _calculate_score := (AutoScorer._calculate_score upper_nonascii).
Local Abbreviation record_score := (AutoScorer.record_score upper_nonascii).
Local Abbreviation all_standard_options := (AutoScorer.all_standard_options upper_nonascii).
Local Abbreviation score_ratio := (AutoScorer.score_ratio upper_nonascii).

(** The division of a count by itself is exact. *)
Lemma int_truediv_same (n : nat) :
  (0 < n <= 26)%nat -> int_truediv n n = 1%float.
Proof.
  intros [H1 H2]. do 27 (destruct n as [|n]; [first [lia|vm_compute; reflexivity]|]). lia.
Qed.

Lemma filter_all (P : pystr -> Prop) `{forall x, Decision (P x)} (l : list pystr) :
  (forall x, x ∈ l -> P x) -> filter P l = l.
Proof.
  induction l as [|x l IH]; intros Hall; [done|].
  rewrite filter_cons, decide_True by (apply Hall; left).
  f_equal. apply IH. intros y Hy. apply Hall. by right.
Qed.

Lemma filter_none (P : pystr -> Prop) `{forall x, Decision (P x)} (l : list pystr) :
  (forall x, x ∈ l -> ~ P x) -> filter P l = [].
Proof.
  induction l as [|x l IH]; intros Hall; [done|].
  rewrite filter_cons, decide_False by (apply Hall; left).
  apply IH. intros y Hy. apply Hall. by right.
Qed.

(** X4.  In the pipeline, with a standard answer that has a letter: a
    candidate that holds every standard letter gets the ratio 1.0
    exactly (the division n / n of two equal counts up to 26 is exact),
    whatever else it holds, and a candidate that holds none gets 0.0; on
    a question of 10 points they score 10.0 and 0.0. *)
Theorem full_and_no_marks (standard candidate : pyval) :
  let std := _normalize_answer standard in
  let mdl := _normalize_answer candidate in
  std <> [] ->
  ((forall x, x ∈ std -> x ∈ mdl) ->
     score_ratio std mdl = 1%float
     /\ _calculate_score std mdl (PInt 10) = Some 10%float)
  /\ ((forall x, x ∈ std -> x ∉ mdl) ->
        score_ratio std mdl = 0%float
        /\ _calculate_score std mdl (PInt 10) = Some 0%float).
Proof.
  cbv zeta. intros Hne. unfold AutoScorer._calculate_score. rewrite pipeline_ratio.
  unfold recall_ratio.
  destruct (_normalize_answer standard) as [|x0 l0] eqn:E; [done|].
  rewrite <- E in *. assert (Hlen : (0 < length (_normalize_answer standard))%nat)
    by (rewrite E; simpl; lia).
  assert (Nat.eqb (length (_normalize_answer standard)) 0 = false) as ->
    by (apply Nat.eqb_neq; lia).
  split; intros Hall.
  - rewrite filter_all by done. rewrite int_truediv_same; [|split; [done|apply normalize_length]].
    split; [done|]. vm_compute. reflexivity.
  - rewrite filter_none by done. split; [done|]. vm_compute. reflexivity.
Qed.

Lemma elem_of_all_standard_options_from (standard : list pystr) :
  forall (acc : gset pystr) (x : pystr),
  x ∈ foldl (fun acc opt => acc ∪ list_to_set (_normalize_answer (PStr opt))) acc standard
  <-> x ∈ acc \/ exists opt, opt ∈ standard /\ x ∈ _normalize_answer (PStr opt).
Proof.
  induction standard as [|o l IH]; intros acc x; cbn [foldl].
  - split; [by left|]. intros [?|(? & ?%elem_of_nil & _)]; done.
  - rewrite IH, elem_of_union, elem_of_list_to_set. split.
    + intros [[?|?]|(opt & ? & ?)]; [by left|right..].
      * exists o. split; [left|done].
      * exists opt. split; [by right|done].
    + intros [?|(opt & [->|?]%elem_of_cons & ?)]; [by left; left|by left; right|].
      right. by exists opt.
Qed.

Lemma elem_of_all_standard_options (standard : list pystr) (x : pystr) :
  x ∈ all_standard_options standard
  <-> exists opt, opt ∈ standard /\ x ∈ _normalize_answer (PStr opt).
Proof.
  unfold AutoScorer.all_standard_options. rewrite elem_of_all_standard_options_from.
  split; [|by right]. intros [?%elem_of_empty|?]; done.
Qed.

(** X5.  [_calculate_score] called on a standard answer that has an
    element of more than one character (as no caller in the repository
    does) applies the combined policy: the ratio is 1.0 when the
    candidate is the union of the letters of the elements, 0.0 when it
    holds a letter outside the union, and the share of the union it
    holds when it misses a letter of the union and holds none outside. *)
Theorem combined_policy_on_a_raw_answer (standard_answer model_answer : list pystr) :
  AutoScorer.is_separate_format standard_answer = false ->
  ((forall x, x ∈ model_answer
        <-> exists opt, opt ∈ standard_answer /\ x ∈ _normalize_answer (PStr opt)) ->
     score_ratio standard_answer model_answer = 1%float)
  /\ (forall x, x ∈ model_answer ->
        (forall opt, opt ∈ standard_answer -> x ∉ _normalize_answer (PStr opt)) ->
        score_ratio standard_answer model_answer = 0%float)
  /\ ((forall x, x ∈ model_answer ->
         exists opt, opt ∈ standard_answer /\ x ∈ _normalize_answer (PStr opt)) ->
      forall y opt, opt ∈ standard_answer -> y ∈ _normalize_answer (PStr opt) ->
        y ∉ model_answer ->
        score_ratio standard_answer model_answer
        = AutoScorer.proportion (all_standard_options standard_answer)
            (list_to_set model_answer)).
Proof.
  intros Hsep. unfold AutoScorer.score_ratio. rewrite Hsep.
  split; [|split].
  - intros Heq. rewrite bool_decide_eq_true_2; [done|].
    apply set_eq. intros x. by rewrite elem_of_list_to_set, elem_of_all_standard_options.
  - intros x Hx Hout.
    assert (Hnot : x ∉ all_standard_options standard_answer).
    { rewrite elem_of_all_standard_options. intros (opt & ? & ?). by apply (Hout opt). }
    rewrite bool_decide_eq_false_2.
    + rewrite bool_decide_eq_true_2; [done|].
      intros Hempty. apply (not_elem_of_empty (C := gset pystr) x). rewrite <- Hempty.
      apply elem_of_difference. by rewrite elem_of_list_to_set.
    + intros Heq. apply Hnot. rewrite <- Heq. by apply elem_of_list_to_set.
  - intros Hsub y opt Hopt Hy Hmiss.
    rewrite bool_decide_eq_false_2.
    + rewrite bool_decide_eq_false_2; [done|]. intros Hne. apply Hne.
      apply set_eq. intros x. rewrite elem_of_difference, elem_of_list_to_set,
        elem_of_all_standard_options. split; [|by intros ?%elem_of_empty].
      intros [Hx Hn]. destruct Hn. by apply Hsub.
    + intros Heq. apply Hmiss. apply (elem_of_list_to_set (C := gset pystr)). rewrite Heq.
      apply elem_of_all_standard_options. eauto.
Qed.

(** X6.  The scoring of a record raises exactly when the record is not a
    dictionary or its score (3.0 when absent) is not a number the scorer
    can multiply.  Answers of any type never raise: they normalize to
    the empty list. *)
Theorem record_score_raises_iff (question : pyval) :
  AutoScorer.record_score upper_nonascii question = None
  <-> ~ exists q : pydict,
          question = PDict q /\ numeric (dict_get q (u "score") (PFloat 3%float)).
Proof.
  destruct question as [| | | | | |q]; try (split; [intros _ (? & [=] & _)|done]).
  unfold AutoScorer.record_score, AutoScorer._calculate_score.
  set (ratio := AutoScorer.score_ratio _ _ _).
  destruct (dict_get q (u "score") (PFloat 3)) as [| | z | | | |] eqn:E; simpl.
  all: try (split; [intros _ (? & [= <-] & Hn); by rewrite E in Hn|done]).
  all: try (split; [done|]; intros Hn; destruct Hn; exists q; by rewrite E).
  destruct (float_of_Z z) eqn:Ez; simpl.
  - split; [done|]. intros Hn; destruct Hn. exists q. rewrite E. simpl. by rewrite Ez.
  - split; [|done]. intros _ (? & [= <-] & Hn). rewrite E in Hn. simpl in Hn.
    rewrite Ez in Hn. by destruct Hn.
Qed.

End ScoreBounds.

(** ** The effects of a scoring pass *)

Section PassEffects.

Variable upper_nonascii : N -> pystr.

Local Abbreviation record_score := (AutoScorer.record_score upper_nonascii).
Local Abbreviation loop_step := (AutoScorer.loop_step upper_nonascii).
Local Abbreviation loop_from := (AutoScorer.loop_from upper_nonascii).
Local Abbreviation score_loop := (AutoScorer.score_loop upper_nonascii).
Local Abbreviation scored := (scored_record upper_nonascii).
Local Abbreviation _process_single_file := (AutoScorer._process_single_file upper_nonascii).
Local Abbreviation run_step := (AutoScorer.run_step upper_nonascii).
Local Abbreviation run_scoring := (AutoScorer.run_scoring upper_nonascii).

Lemma loop_from_accounts qs : forall i t,
  exists more,
    AutoScorer.t_errors (loop_from i qs t) = AutoScorer.t_errors t ++ more
    /\ StronglySorted lt more
    /\ (forall j, j ∈ more
          <-> exists k q, j = (i + k)%nat /\ qs !! k = Some q /\ record_score q = None)
    /\ (AutoScorer.processed_count (loop_from i qs t) + length more
        = AutoScorer.processed_count t + length qs)%nat.
Proof.
  induction qs as [|q qs IH]; intros i t; cbn [AutoScorer.loop_from].
  - exists []. rewrite app_nil_r. split; [done|]. split; [constructor|]. split; [|simpl; lia].
    intros j. split; [by intros ?%elem_of_nil|]. by intros (k & ? & _ & ? & _).
  - destruct (IH (S i) (loop_step t i q)) as (more & He & Hs & Hm & Hc).
    rewrite He. unfold AutoScorer.loop_step in *.
    destruct (record_score q) as [score|] eqn:Hq; simpl in *.
    + exists more. split; [done|]. split; [done|]. split; [|lia].
      intros j. rewrite Hm. split.
      * intros (k & q' & -> & ? & ?). exists (S k), q'. split; [lia|done].
      * intros ([|k] & q' & -> & Hk & Hn); simpl in Hk.
        -- congruence.
        -- exists k, q'. split; [lia|done].
    + exists (i :: more). rewrite <- app_assoc. split; [done|]. split; [|split; [|simpl; lia]].
      * constructor; [done|]. apply Forall_forall. intros j (k & ? & -> & _)%Hm. lia.
      * intros j. rewrite elem_of_cons, Hm. split.
        -- intros [->|(k & q' & -> & ? & ?)].
           ++ exists 0%nat, q. split; [lia|done].
           ++ exists (S k), q'. split; [lia|done].
        -- intros ([|k] & q' & -> & Hk & Hn); simpl in Hk.
           ++ left. lia.
           ++ right. exists k, q'. split; [lia|done].
Qed.

(** X7.  Every record of a file is either counted or reported: the count
    and the reported positions add up to the number of records, the
    positions are reported in increasing order, they are exactly those
    of the records whose scoring raises, and the list of records keeps
    its length. *)
Theorem every_record_is_counted_or_reported (questions : list pyval) :
  let t := score_loop questions in
  (AutoScorer.processed_count t + length (AutoScorer.t_errors t) = length questions)%nat
  /\ StronglySorted lt (AutoScorer.t_errors t)
  /\ (forall i, i ∈ AutoScorer.t_errors t
        <-> exists q, questions !! i = Some q /\ record_score q = None)
  /\ length (AutoScorer.t_questions t) = length questions.
Proof.
  cbv zeta. unfold AutoScorer.score_loop.
  destruct (loop_from_accounts questions 0%nat (AutoScorer.Tally [] 0 0 []))
    as (more & He & Hs & Hm & Hc).
  rewrite He. simpl in *. split; [lia|]. split; [done|]. split.
  - intros i. rewrite Hm. split.
    + intros (k & q & -> & ? & ?). by exists q.
    + intros (q & ? & ?). by exists i, q.
  - fold (score_loop questions). rewrite score_loop_questions. by rewrite length_map.
Qed.

Lemma writes_errors (errs : list nat) : writes (map EvRecordError errs) = [].
Proof. induction errs; done. Qed.

Lemma posts_errors (errs : list nat) : posts (map EvRecordError errs) = [].
Proof. induction errs; done. Qed.

Lemma w_remote_emit_all {A} (f : A -> event) (l : list A) w :
  w_remote (foldl (fun w x => emit (f x) w) w l) = w_remote w.
Proof. revert w. induction l as [|x l IH]; intros w; simpl; [done|]. by rewrite IH. Qed.

Lemma w_clock_emit_all {A} (f : A -> event) (l : list A) w :
  w_clock (foldl (fun w x => emit (f x) w) w l) = w_clock w.
Proof. revert w. induction l as [|x l IH]; intros w; simpl; [done|]. by rewrite IH. Qed.

Lemma write_errors_errors (errs : list nat) : write_errors (map EvRecordError errs) = [].
Proof. induction errs; done. Qed.

Lemma process_single_file_effects (file_path : pystr) (w : world) :
  exists errs tail,
    w_trace (_process_single_file file_path w).1
    = w_trace w ++ map EvRecordError errs ++ tail
    /\ ((tail = [EvWrite file_path]
         /\ (0 < (_process_single_file file_path w).2.1)%nat
         /\ is_Some (read_json file_path (_process_single_file file_path w).1))
        \/ (tail = []
            /\ (_process_single_file file_path w).2 = (0%nat, PInt 0)
            /\ w_fs (_process_single_file file_path w).1 = w_fs w)
        \/ (tail = [EvWriteError file_path]
            /\ (_process_single_file file_path w).2 = (0%nat, PInt 0)
            /\ w_fs (_process_single_file file_path w).1 !! file_path = Some OtherFile))
    /\ (forall p, p <> file_path ->
          w_fs (_process_single_file file_path w).1 !! p = w_fs w !! p)
    /\ w_remote (_process_single_file file_path w).1 = w_remote w
    /\ w_clock (_process_single_file file_path w).1 = w_clock w.
Proof.
  assert (Hnone : forall errs : list nat, exists errs0 tail,
    w_trace (foldl (fun w i => emit (EvRecordError i) w) w errs, (0%nat, PInt 0)).1
    = w_trace w ++ map EvRecordError errs0 ++ tail
    /\ ((tail = [EvWrite file_path]
         /\ (0 < (foldl (fun w i => emit (EvRecordError i) w) w errs, (0%nat, PInt 0)).2.1)%nat
         /\ is_Some (read_json file_path
                       (foldl (fun w i => emit (EvRecordError i) w) w errs,
                        (0%nat, PInt 0)).1))
        \/ (tail = []
            /\ (foldl (fun w i => emit (EvRecordError i) w) w errs, (0%nat, PInt 0)).2
               = (0%nat, PInt 0)
            /\ w_fs (foldl (fun w i => emit (EvRecordError i) w) w errs, (0%nat, PInt 0)).1
               = w_fs w)
        \/ (tail = [EvWriteError file_path]
            /\ (foldl (fun w i => emit (EvRecordError i) w) w errs, (0%nat, PInt 0)).2
               = (0%nat, PInt 0)
            /\ w_fs (foldl (fun w i => emit (EvRecordError i) w) w errs, (0%nat, PInt 0)).1
                 !! file_path = Some OtherFile))
    /\ (forall p : pystr, p <> file_path ->
          w_fs (foldl (fun w i => emit (EvRecordError i) w) w errs, (0%nat, PInt 0)).1 !! p
          = w_fs w !! p)
    /\ w_remote (foldl (fun w i => emit (EvRecordError i) w) w errs, (0%nat, PInt 0)).1
       = w_remote w
    /\ w_clock (foldl (fun w i => emit (EvRecordError i) w) w errs, (0%nat, PInt 0)).1
       = w_clock w).
  { intros errs. exists errs, []. cbn [fst snd].
    rewrite w_trace_emit_all, w_fs_emit_all, w_remote_emit_all, w_clock_emit_all, app_nil_r.
    split; [done|]. split; [right; by left|done]. }
  destruct (read_json file_path w) as [[| | | | | |data]|] eqn:Hread;
    try (unfold AutoScorer._process_single_file; rewrite Hread; exact (Hnone [])).
  destruct (dict_get data (u "questions") (PList [])) as [| | | |s|qs|d] eqn:Hqs;
    try (unfold AutoScorer._process_single_file; rewrite Hread, Hqs; exact (Hnone []));
    try (unfold AutoScorer._process_single_file; rewrite Hread, Hqs; apply Hnone).
  rewrite (process_single_file_list upper_nonascii file_path w data qs Hread Hqs).
  exists (AutoScorer.t_errors (score_loop qs)).
  destruct (0 <? AutoScorer.processed_count (score_loop qs))%nat eqn:Hpos;
    [destruct (encodable _)|]; cbn [fst snd w_trace w_fs w_remote w_clock].
  - exists [EvWrite file_path]. rewrite <- app_assoc. split; [done|]. split; [|split; [|done]].
    + left. split; [done|]. split; [by apply Nat.ltb_lt|].
      unfold read_json. cbn [w_fs]. rewrite lookup_insert_eq. by eexists.
    + intros p Hp. by rewrite lookup_insert_ne.
  - exists [EvWriteError file_path]. rewrite <- app_assoc. split; [done|].
    split; [|split; [|done]].
    + right. right. by rewrite lookup_insert_eq.
    + intros p Hp. by rewrite lookup_insert_ne.
  - exists []. rewrite app_nil_r. split; [done|]. split; [right; by left|done].
Qed.

(** X8.  A scoring pass writes the file at most once, after the loop, and
    only when it scored a record; the pass that scored none returns
    (0, 0) and leaves every file as it was.  When the write fails the
    file is left truncated and the pass returns (0, 0) as well.  The pass
    never touches another file, sends nothing to the grader and does not
    sleep. *)
Theorem scoring_pass_writes_once (file_path : pystr) (w : world) :
  let w' := (_process_single_file file_path w).1 in
  let processed_count := (_process_single_file file_path w).2.1 in
  exists new,
    w_trace w' = w_trace w ++ new
    /\ writes new = (if (0 <? processed_count)%nat then [EvWrite file_path] else [])
    /\ posts new = []
    /\ (forall p, p <> file_path -> w_fs w' !! p = w_fs w !! p)
    /\ (write_errors new = []
        \/ (write_errors new = [EvWriteError file_path]
            /\ writes new = []
            /\ (_process_single_file file_path w).2 = (0%nat, PInt 0)
            /\ w_fs w' !! file_path = Some OtherFile
            /\ read_json file_path w' = None))
    /\ (processed_count = 0%nat ->
          (_process_single_file file_path w).2.2 = PInt 0
          /\ (write_errors new = [] -> w_fs w' = w_fs w))
    /\ ((0 < processed_count)%nat ->
          write_errors new = [] /\ is_Some (read_json file_path w'))
    /\ w_remote w' = w_remote w
    /\ w_clock w' = w_clock w.
Proof.
  cbv zeta. destruct (process_single_file_effects file_path w)
    as (errs & tail & Ht & Hcases & Hf & Hr & Hc).
  eexists. split; [exact Ht|].
  rewrite !writes_app, !posts_app, !write_errors_app, writes_errors, posts_errors,
    write_errors_errors.
  destruct Hcases as [(-> & Hpos & Hsome)|[(-> & Hz & Hfs)|(-> & Hz & Hfs)]].
  - assert ((0 <? (_process_single_file file_path w).2.1)%nat = true) as ->
      by (by apply Nat.ltb_lt).
    split; [done|]. split; [done|]. split; [done|]. split; [by left|].
    split; [lia|]. done.
  - rewrite Hz. cbn [fst snd Nat.ltb Nat.leb app].
    split; [done|]. split; [done|]. split; [done|]. split; [by left|].
    split; [done|]. split; [lia|done].
  - rewrite Hz. cbn [fst snd Nat.ltb Nat.leb app].
    split; [done|]. split; [done|]. split; [done|]. split.
    { right. do 3 (split; [done|]). split; [done|]. unfold read_json. by rewrite Hfs. }
    split; [done|]. split; [lia|done].
Qed.

Lemma scored_record_keeps (q : pydict) :
  exists q' : pydict,
    scored (PDict q) = PDict q'
    /\ (forall k, k <> u "model_score" -> q' !! k = q !! k)
    /\ (forall score, record_score (PDict q) = Some score ->
          q' !! u "model_score" = Some (PFloat score))
    /\ (record_score (PDict q) = None -> q' = q).
Proof.
  unfold scored_record. destruct (record_score (PDict q)) as [score|] eqn:E.
  - eexists. split; [done|]. split; [|split; [|done]].
    + intros k Hk. by rewrite lookup_insert_ne.
    + intros ? [= <-]. by rewrite lookup_insert_eq.
  - exists q. done.
Qed.

Lemma scored_record_other (question : pyval) :
  ~ is_record question -> scored question = question.
Proof.
  intros Hn. unfold scored_record.
  destruct question; try done. destruct Hn. by eexists.
Qed.

(** X9.  The scoring pass keeps the rest of the document: the other keys
    of the document, the number of records and their order, every field
    of a record but [model_score], and the records that are not
    dictionaries.  This is so whenever the file can be read after the
    pass, and it can whenever the document read had no surrogate; the
    pass whose write fails loses the document and returns (0, 0). *)
Theorem scoring_pass_keeps_the_rest (file_path : pystr) (w : world) (data : pydict)
    (questions : list pyval) :
  read_json file_path w = Some (PDict data) ->
  data !! u "questions" = Some (PList questions) ->
  (exists questions',
     read_json file_path (_process_single_file file_path w).1
       = Some (PDict (<[u "questions" := PList questions']> data))
     /\ length questions' = length questions
     /\ (forall i (q : pydict), questions !! i = Some (PDict q) ->
           exists q' : pydict,
             questions' !! i = Some (PDict q')
             /\ forall k, k <> u "model_score" -> q' !! k = q !! k)
     /\ (forall i question, questions !! i = Some question -> ~ is_record question ->
           questions' !! i = Some question))
  \/ (read_json file_path (_process_single_file file_path w).1 = None
      /\ (_process_single_file file_path w).2 = (0%nat, PInt 0)
      /\ EvWriteError file_path ∈ w_trace (_process_single_file file_path w).1
      /\ encodable (PDict data) = false).
Proof.
  intros Hread Hqs.
  rewrite (process_single_file_list upper_nonascii file_path w data questions Hread)
    by (unfold dict_get; by rewrite Hqs).
  destruct (0 <? AutoScorer.processed_count (score_loop questions))%nat;
    [destruct (encodable _) eqn:He|]; cbn [fst snd].
  - left. exists (map scored questions). rewrite score_loop_questions.
    split; [unfold read_json; cbn [w_fs]; by rewrite lookup_insert_eq|].
    split; [by rewrite length_map|]. split.
    + intros i q Hi. destruct (scored_record_keeps q) as (q' & Hq' & Hk & _).
      exists q'. split; [|done]. rewrite list_lookup_fmap, Hi. simpl. by rewrite Hq'.
    + intros i question Hi Hn. rewrite list_lookup_fmap, Hi. simpl.
      by rewrite scored_record_other.
  - right. split; [unfold read_json; cbn [w_fs]; by rewrite lookup_insert_eq|].
    split; [done|]. split; [cbn [w_trace]; apply elem_of_app; right; by left|].
    apply not_true_is_false. intros Hd.
    assert (encodable
              (PDict (<[u "questions" := PList (AutoScorer.t_questions (score_loop questions))]>
                        data)) = true); [|congruence].
    apply (encodable_questions upper_nonascii data questions); [done| |done].
    intros x Hx. rewrite score_loop_questions in Hx.
    apply list_elem_of_fmap in Hx as (y & -> & Hy). right. by exists y.
  - left. exists questions. split.
    + unfold read_json in *. cbn [w_fs]. rewrite insert_id by done. done.
    + split; [done|]. split; [|done]. intros i q Hi. by exists q.
Qed.

End PassEffects.

(** ** [run_scoring] *)

Section ScoringRun.

Variable upper_nonascii : N -> pystr.

Local Abbreviation _process_single_file := (AutoScorer._process_single_file upper_nonascii).
Local Abbreviation run_step := (AutoScorer.run_step upper_nonascii).
Local Abbreviation run_scoring := (AutoScorer.run_scoring upper_nonascii).
Local Abbreviation count := (count_in upper_nonascii).

Lemma count_in_frame (w w' : world) (file_path : pystr) :
  w_fs w' !! file_path = w_fs w !! file_path -> count w' file_path = count w file_path.
Proof.
  intros H. unfold count_in.
  by rewrite (process_single_file_reads upper_nonascii file_path w' w)
    by (by apply read_json_fs).
Qed.

Lemma run_step_eq (t : AutoScorer.totals) (w : world) (f : pystr) :
  run_step (t, w) f
  = (if (0 <? count w f)%nat then
       AutoScorer.Totals (S (AutoScorer.completed_files t))
         (AutoScorer.total_processed t + count w f)
         (PrimFloat.add (AutoScorer.total_score_sum t)
            (AutoScorer.weighted (_process_single_file f w).2.2 (count w f)))
     else t,
     (_process_single_file f w).1).
Proof.
  unfold AutoScorer.run_step, count_in.
  destruct (_process_single_file f w) as [w1 [c a]]. cbn [fst snd].
  by destruct (0 <? c)%nat.
Qed.

Lemma run_steps_effects (files : list pystr) : forall (t : AutoScorer.totals) (w : world),
  exists new,
    w_trace (foldl run_step (t, w) files).2 = w_trace w ++ new
    /\ AutoScorer.completed_files (foldl run_step (t, w) files).1
       = (AutoScorer.completed_files t + length (writes new))%nat
    /\ (forall p, EvWrite p ∈ new -> p ∈ files)
    /\ (forall p, p ∉ files -> w_fs (foldl run_step (t, w) files).2 !! p = w_fs w !! p)
    /\ posts new = []
    /\ (length (writes new) + length (write_errors new) <= length files)%nat
    /\ (forall p, EvWriteError p ∈ new -> p ∈ files)
    /\ (NoDup files ->
          AutoScorer.total_processed (foldl run_step (t, w) files).1
          = (AutoScorer.total_processed t + sum_list (map (count w) files))%nat
          /\ length (writes new)
             = length (List.filter (fun f => (0 <? count w f)%nat) files)).
Proof.
  induction files as [|f files IH]; intros t w.
  - exists []. simpl. rewrite app_nil_r. repeat split; auto; try lia.
    all: intros p Hp; by apply elem_of_nil in Hp.
  - cbn [foldl]. rewrite run_step_eq.
    destruct (process_single_file_effects upper_nonascii f w)
      as (errs & tail & Ht & Hcases & Hf & _ & _).
    assert (Htail : writes tail = (if (0 <? count w f)%nat then [EvWrite f] else [])
                    /\ posts tail = []
                    /\ (length (writes tail) + length (write_errors tail) <= 1)%nat
                    /\ (forall p, EvWrite p ∈ tail \/ EvWriteError p ∈ tail -> p = f)).
    { unfold count_in.
      destruct Hcases as [(-> & Hpos & _)|[(-> & Hz & _)|(-> & Hz & _)]].
      - apply Nat.ltb_lt in Hpos. rewrite Hpos. repeat split; auto.
        intros p [Hp|Hp]; apply list_elem_of_singleton in Hp; congruence.
      - rewrite Hz. repeat split; auto. intros p [Hp|Hp]; by apply elem_of_nil in Hp.
      - rewrite Hz. repeat split; auto.
        intros p [Hp|Hp]; apply list_elem_of_singleton in Hp; congruence. }
    destruct Htail as (Hwt & Hpt & Hlt & Hft).
    set (w1 := (_process_single_file f w).1) in *.
    set (t1 := if (0 <? count w f)%nat then _ else t).
    destruct (IH t1 w1) as (new & Ht' & Hc' & Hw' & Hf' & Hp' & Hle' & He' & Hnd').
    exists (map EvRecordError errs ++ tail ++ new).
    rewrite Ht', Ht, <- !app_assoc. split; [done|].
    rewrite !writes_app, !posts_app, !write_errors_app, writes_errors, posts_errors,
      write_errors_errors, Hp', Hpt. cbn [app].
    split; [|split; [|split; [|split; [|split; [|split]]]]].
    + rewrite Hc'. unfold t1. rewrite length_app, Hwt.
      destruct (0 <? count w f)%nat; simpl; lia.
    + intros p. rewrite !elem_of_app. intros [Hp|[Hp|Hp]].
      * apply list_elem_of_fmap in Hp as (? & [=] & _).
      * rewrite (Hft p) by (by left). by left.
      * right. by apply Hw'.
    + intros p Hp. apply not_elem_of_cons in Hp as [Hne Hp].
      rewrite Hf' by done. by apply Hf.
    + done.
    + rewrite !length_app. simpl. lia.
    + intros p. rewrite !elem_of_app. intros [Hp|[Hp|Hp]].
      * apply list_elem_of_fmap in Hp as (? & [=] & _).
      * rewrite (Hft p) by (by right). by left.
      * right. by apply He'.
    + intros [Hnotin Hnd]%NoDup_cons. destruct (Hnd' Hnd) as [Htot Hlen].
      assert (Hsame : forall g, g ∈ files -> count w1 g = count w g).
      { intros g Hg. apply count_in_frame. apply Hf. intros ->. done. }
      assert (Hmap : map (count w1) files = map (count w) files).
      { apply map_ext_in. intros g Hg%list_elem_of_In. by apply Hsame. }
      assert (Hfil : List.filter (fun g => (0 <? count w1 g)%nat) files
                     = List.filter (fun g => (0 <? count w g)%nat) files).
      { apply List.filter_ext_in. intros g Hg%list_elem_of_In. by rewrite Hsame. }
      rewrite Hmap in Htot. rewrite Hfil in Hlen.
      split.
      * rewrite Htot. cbn [map sum_list sum_list_with]. unfold t1.
        destruct (0 <? count w f)%nat eqn:E; simpl; [lia|].
        apply Nat.ltb_ge in E. lia.
      * rewrite length_app, Hlen, Hwt. cbn [List.filter].
        by destruct (0 <? count w f)%nat.
Qed.

(** X10.  [run_scoring] returns before the loop exactly when the scan
    finds no file.  Otherwise the number of files it completed is the
    number of writes it made: a file whose write failed is not counted,
    and each file of the list is written or lost at most once.  The run
    writes, and loses, only files of the (limited) list, sends nothing to
    the grader, and leaves the other files as they were.  When the list
    has no repetition every file is scored as if alone: the number of
    processed records is the sum of the counts the files get in the first
    world. *)
Theorem run_scoring_effects (found : option (list pystr)) (max_files : option Z)
    (w : world) :
  let files := AutoScorer.limited max_files (AutoScorer.scan_result_files found) in
  let w' := (run_scoring found max_files w).2 in
  match (run_scoring found max_files w).1 with
  | None => w' = w /\ AutoScorer.scan_result_files found = []
  | Some t =>
      AutoScorer.scan_result_files found <> []
      /\ exists new,
        w_trace w' = w_trace w ++ new
        /\ length (writes new) = AutoScorer.completed_files t
        /\ (length (writes new) + length (write_errors new) <= length files)%nat
        /\ (forall p, EvWrite p ∈ new \/ EvWriteError p ∈ new -> p ∈ files)
        /\ (forall p, p ∉ files -> w_fs w' !! p = w_fs w !! p)
        /\ posts new = []
        /\ (NoDup files ->
              AutoScorer.total_processed t = sum_list (map (count w) files)
              /\ AutoScorer.completed_files t
                 = length (List.filter (fun f => (0 <? count w f)%nat) files))
  end.
Proof.
  cbv zeta. unfold AutoScorer.run_scoring.
  destruct (AutoScorer.scan_result_files found) as [|f0 fs] eqn:E; [done|].
  cbn [length Nat.eqb]. rewrite <- E.
  destruct (run_steps_effects
              (AutoScorer.limited max_files (AutoScorer.scan_result_files found))
              (AutoScorer.Totals 0 0 0) w)
    as (new & Ht & Hc & Hw & Hf & Hp & Hle & He & Hnd).
  destruct (foldl run_step _ _) as [t w']. cbn [fst snd] in *.
  split; [by rewrite E|].
  exists new. split; [done|]. split; [by rewrite Hc|]. split; [done|].
  split; [intros p [Hp'|Hp']; auto|]. do 2 (split; [done|]).
  intros Hn. destruct (Hnd Hn) as [H1 H2]. split; [done|]. by rewrite Hc, H2.
Qed.

Lemma limited_positive (n : Z) (files : list pystr) :
  0 < n -> AutoScorer.limited (Some n) files = take (Z.to_nat n) files.
Proof.
  intros Hn. unfold AutoScorer.limited, AutoScorer.slice_to.
  assert ((n =? 0) = false) as -> by (apply Z.eqb_neq; lia).
  assert ((0 <=? n) = true) as -> by (apply Z.leb_le; lia). done.
Qed.

(** X11.  With a positive [max_files] = n the run completes at most n
    files and leaves every file outside the first n of the scan as it
    was.  A limit of 0 is no limit. *)
Theorem max_files_limits_the_run (found : option (list pystr)) (n : Z) (w : world) :
  0 < n ->
  let files := AutoScorer.scan_result_files found in
  let w' := (run_scoring found (Some n) w).2 in
  (forall p, p ∉ take (Z.to_nat n) files -> w_fs w' !! p = w_fs w !! p)
  /\ match (run_scoring found (Some n) w).1 with
     | None => files = []
     | Some t => Z.of_nat (AutoScorer.completed_files t) <= n
     end
  /\ run_scoring found (Some 0) w = run_scoring found None w.
Proof.
  intros Hn. cbv zeta. split; [|split; [|done]].
  all: unfold AutoScorer.run_scoring.
  all: destruct (AutoScorer.scan_result_files found) as [|f0 fs] eqn:E; [done|].
  all: cbn [length Nat.eqb]; rewrite <- E; rewrite limited_positive by done.
  all: destruct (run_steps_effects (take (Z.to_nat n) (AutoScorer.scan_result_files found))
              (AutoScorer.Totals 0 0 0) w)
         as (new & Ht & Hc & Hw & Hf & Hp & Hle & He & Hnd).
  all: destruct (foldl run_step _ _) as [t w']; cbn [fst snd] in *.
  - done.
  - rewrite length_take in Hle. simpl in Hc. lia.
Qed.

End ScoringRun.

(** ** Texts: substrings, stripping, fences *)

Section StringFacts.

Lemma starts_with_app (pre s : pystr) : starts_with pre (pre ++ s) = true.
Proof. induction pre as [|a pre IH]; [done|]. simpl. by rewrite N.eqb_refl. Qed.

Lemma starts_with_spec (pre s : pystr) :
  starts_with pre s = true <-> exists rest, s = pre ++ rest.
Proof.
  revert s. induction pre as [|a pre IH]; intros s.
  - split; [by exists s|done].
  - destruct s as [|b s]; simpl.
    + split; [done|]. by intros (? & ?).
    + rewrite andb_true_iff, IH, N.eqb_eq. split.
      * intros (-> & rest & ->). by exists rest.
      * intros (rest & [= -> ->]). eauto.
Qed.

Lemma contains_spec (sub s : pystr) :
  contains sub s = true <-> exists a b, s = a ++ sub ++ b.
Proof.
  induction s as [|c s IH]; simpl.
  - rewrite orb_false_r, starts_with_spec. split.
    + intros (rest & ?). by exists [], rest.
    + intros (a & b & H). destruct a; [by exists b|done].
  - rewrite orb_true_iff, starts_with_spec, IH. split.
    + intros [(rest & ->)|(a & b & ->)]; [by exists [], rest|by exists (c :: a), b].
    + intros ([|c' a] & b & H).
      * left. by exists b.
      * right. injection H as -> ->. by exists a, b.
Qed.

Lemma contains_infix (sub a s b : pystr) :
  contains sub (a ++ s ++ b) = false -> contains sub s = false.
Proof.
  intros H. apply not_true_is_false. intros (a' & b' & ->)%contains_spec.
  apply not_true_iff_false in H. apply H. apply contains_spec.
  exists (a ++ a'), (b' ++ b). by rewrite <- !app_assoc.
Qed.

Variable isspace : N -> bool.

Lemma lstrip_suffix (s : pystr) : exists a, s = a ++ lstrip isspace s.
Proof.
  induction s as [|c s [a IH]]; [by exists []|]. simpl.
  destruct (isspace c); [|by exists []]. exists (c :: a). simpl. by f_equal.
Qed.

Lemma strip_infix (s : pystr) : exists a b, s = a ++ strip isspace s ++ b.
Proof.
  unfold strip. destruct (lstrip_suffix s) as [a Ha].
  destruct (lstrip_suffix (rev (lstrip isspace s))) as [b Hb].
  exists a, (rev b). rewrite <- rev_app_distr, <- Hb, rev_involutive. done.
Qed.

Lemma contains_strip (sub s : pystr) :
  contains sub s = false -> contains sub (strip isspace s) = false.
Proof.
  intros H. destruct (strip_infix s) as (a & b & Hs). rewrite Hs in H.
  by apply contains_infix in H.
Qed.

End StringFacts.

Section Fences.

Lemma remove_fences_go_skip (s : pystr) : forall k,
  remove_fences_go s k = remove_fences_go (drop k s) 0.
Proof.
  induction s as [|c s IH]; intros [|k]; try done. simpl. apply IH.
Qed.

Lemma fence_literals :
  u "```" = [backtick; backtick; backtick]
  /\ u "```json" = [backtick; backtick; backtick; 106; 115; 111; 110]%N.
Proof. split; vm_compute; reflexivity. Qed.

Lemma json_fence_is_fence (s : pystr) :
  starts_with (u "```json") s = true -> starts_with (u "```") s = true.
Proof.
  destruct fence_literals as [-> ->].
  intros (rest & ->)%starts_with_spec. apply starts_with_spec.
  eexists. simpl. reflexivity.
Qed.

(** One step of the scan. *)
Lemma remove_fences_step (c : N) (s : pystr) :
  remove_fences (c :: s)
  = if starts_with (u "```json") (c :: s) then remove_fences (drop 6 s)
    else if starts_with (u "```") (c :: s) then remove_fences (drop 2 s)
    else c :: remove_fences s.
Proof.
  unfold remove_fences. cbn [remove_fences_go].
  by rewrite (remove_fences_go_skip s 6), (remove_fences_go_skip s 2).
Qed.

Lemma remove_fences_head_bounded (n : nat) : forall s,
  (length s <= n)%nat ->
  head (remove_fences s) = Some backtick -> head s = Some backtick.
Proof.
  induction n as [|n IH]; intros s Hlen.
  - destruct s; [done|simpl in Hlen; lia].
  - destruct s as [|c s]; [done|]. rewrite remove_fences_step.
    destruct (starts_with (u "```json") (c :: s)) eqn:E1.
    { intros _. apply json_fence_is_fence in E1.
      destruct fence_literals as [Hf _]. rewrite Hf in E1.
      apply starts_with_spec in E1 as (rest & E1). by injection E1 as -> _. }
    destruct (starts_with (u "```") (c :: s)) eqn:E2.
    { intros _. destruct fence_literals as [Hf _]. rewrite Hf in E2.
      apply starts_with_spec in E2 as (rest & E2). by injection E2 as -> _. }
    simpl. done.
Qed.

Lemma remove_fences_head (s : pystr) :
  head (remove_fences s) = Some backtick -> head s = Some backtick.
Proof. by apply (remove_fences_head_bounded (length s)). Qed.

Lemma remove_fences_no_fence_bounded (n : nat) : forall s,
  (length s <= n)%nat -> contains (u "```") (remove_fences s) = false.
Proof.
  induction n as [|n IH]; intros s Hlen.
  - destruct s; [done|simpl in Hlen; lia].
  - destruct s as [|c s]; [done|]. simpl in Hlen. rewrite remove_fences_step.
    destruct (starts_with (u "```json") (c :: s)) eqn:E1.
    { apply IH. rewrite length_drop. lia. }
    destruct (starts_with (u "```") (c :: s)) eqn:E2.
    { apply IH. rewrite length_drop. lia. }
    cbn [contains]. rewrite IH by lia. rewrite orb_false_r.
    apply not_true_is_false. intros Hs.
    destruct fence_literals as [Hf _]. rewrite Hf in Hs, E2.
    apply starts_with_spec in Hs as (rest & Hs). injection Hs as -> Hs.
    (* the next kept character is a backtick, so is the next of [s] *)
    assert (H1 : head s = Some backtick).
    { apply remove_fences_head. by rewrite Hs. }
    destruct s as [|c1 s1]; [done|]. injection H1 as ->.
    rewrite remove_fences_step in Hs.
    destruct (starts_with (u "```json") (backtick :: s1)) eqn:E3.
    { apply json_fence_is_fence in E3. rewrite Hf in E3.
      apply starts_with_spec in E3 as (r & E3). injection E3 as ->.
      by rewrite starts_with_app in E2 || (simpl in E2; done). }
    destruct (starts_with (u "```") (backtick :: s1)) eqn:E4.
    { rewrite Hf in E4. apply starts_with_spec in E4 as (r & E4). injection E4 as ->.
      simpl in E2. done. }
    injection Hs as Hs.
    assert (H2 : head s1 = Some backtick).
    { apply remove_fences_head. by rewrite Hs. }
    destruct s1 as [|c2 s2]; [done|]. injection H2 as ->.
    simpl in E2. done.
Qed.

Lemma remove_fences_no_fence (s : pystr) : contains (u "```") (remove_fences s) = false.
Proof. by apply (remove_fences_no_fence_bounded (length s)). Qed.

End Fences.

(** ** The repair, the payload and the extraction *)

Section Escapes.

Lemma escape_backslashes_length (s : pystr) :
  (length s <= length (escape_backslashes s))%nat.
Proof.
  induction s as [|c s IH]; [done|]. cbn [escape_backslashes].
  destruct (c =? 92)%N; [|simpl; lia].
  destruct s as [|d s]; [simpl; lia|].
  destruct (json_escape_letter d); simpl in *; lia.
Qed.

Lemma escape_backslashes_others (s : pystr) :
  List.filter (fun c => negb (c =? 92)%N) (escape_backslashes s)
  = List.filter (fun c => negb (c =? 92)%N) s.
Proof.
  induction s as [|c s IH]; [done|]. cbn [escape_backslashes].
  destruct (c =? 92)%N eqn:E.
  - destruct s as [|d s]; [by simpl; rewrite E|].
    destruct (json_escape_letter d); cbn [List.filter]; rewrite ?E; simpl; exact IH.
  - cbn [List.filter]. rewrite E. simpl. by rewrite IH.
Qed.

Lemma escape_backslashes_step (c : N) (s : pystr) :
  escape_backslashes (c :: s)
  = if (c =? 92)%N then
      match head s with
      | Some d =>
          if json_escape_letter d then c :: escape_backslashes s
          else c :: c :: escape_backslashes s
      | None => [c; c]
      end
    else c :: escape_backslashes s.
Proof. by destruct s. Qed.

Lemma escape_backslashes_fixed (s : pystr) :
  escape_backslashes s = s
  <-> forall i, s !! i = Some backslash ->
        exists d, s !! S i = Some d /\ json_escape_letter d = true.
Proof.
  induction s as [|c s IH]; [done|]. rewrite escape_backslashes_step.
  destruct (c =? 92)%N eqn:E.
  - apply N.eqb_eq in E as ->. rewrite head_lookup.
    destruct (s !! 0%nat) as [d|] eqn:Eh.
    + destruct (json_escape_letter d) eqn:Ed.
      * split.
        -- intros Hs. assert (Hs' : escape_backslashes s = s) by congruence.
           intros [|i] Hi; [by exists d|]. by apply (proj1 IH Hs').
        -- intros H. f_equal. apply IH. intros i Hi. by apply (H (S i)).
      * split.
        -- intros Hs. assert (Hs' : 92%N :: escape_backslashes s = s) by congruence.
           pose proof (escape_backslashes_length s) as Hl.
           rewrite <- Hs' in Hl at 1. simpl in Hl. lia.
        -- intros H. destruct (H 0%nat eq_refl) as (d' & Hd' & He).
           simpl in Hd'. congruence.
    + split.
      * intros Hs. assert (Hs' : [92%N] = s) by congruence. by rewrite <- Hs' in Eh.
      * intros H. destruct (H 0%nat eq_refl) as (d' & Hd' & He). simpl in Hd'. congruence.
  - apply N.eqb_neq in E. split.
    + intros Hs. assert (Hs' : escape_backslashes s = s) by congruence.
      intros [|i] Hi; [by injection Hi|]. by apply (proj1 IH Hs').
    + intros H. f_equal. apply IH. intros i Hi. by apply (H (S i)).
Qed.

(** X12.  The repair of backslashes only inserts backslashes: the other
    characters stay, in order, and the text never gets shorter.  A text
    is returned as it is exactly when each of its backslashes is
    followed by a character that continues a JSON escape. *)
Theorem escape_backslashes_repairs_only (s : pystr) :
  (escape_backslashes s = s
   <-> forall i, s !! i = Some backslash ->
         exists d, s !! S i = Some d /\ json_escape_letter d = true)
  /\ List.filter (fun c => negb (c =? 92)%N) (escape_backslashes s)
     = List.filter (fun c => negb (c =? 92)%N) s
  /\ (length s <= length (escape_backslashes s))%nat.
Proof.
  split; [apply escape_backslashes_fixed|].
  split; [apply escape_backslashes_others|apply escape_backslashes_length].
Qed.

End Escapes.

Section Split.

(** A piece that cannot start the separator goes to the current piece. *)
Lemma split_go_pass (sep pre s cur : pystr) (b : N) :
  head sep = Some b -> b ∉ pre ->
  split_go sep (pre ++ s) 0 cur = split_go sep s 0 (cur ++ pre).
Proof.
  intros Hsep. revert cur. induction pre as [|c pre IH]; intros cur Hpre.
  - by rewrite app_nil_r.
  - apply not_elem_of_cons in Hpre as [Hc Hpre].
    cbn [app split_go].
    assert (starts_with sep (c :: pre ++ s) = false) as ->.
    { destruct sep as [|a sep]; [done|]. injection Hsep as ->. simpl.
      apply andb_false_iff. left. apply N.eqb_neq. congruence. }
    rewrite IH by done. by rewrite <- app_assoc.
Qed.

Lemma split_go_skip (sep s cur : pystr) : forall skipped,
  split_go sep (skipped ++ s) (length skipped) cur = split_go sep s 0 cur.
Proof. induction skipped as [|c l IH]; [done|]. simpl. exact IH. Qed.

(** At the separator the current piece ends. *)
Lemma split_go_sep (sep s cur : pystr) :
  sep <> [] -> split_go sep (sep ++ s) 0 cur = cur :: split_go sep s 0 [].
Proof.
  intros Hne. destruct sep as [|a sep]; [done|].
  change ((a :: sep) ++ s) with (a :: (sep ++ s)).
  cbn [split_go].
  change (a :: sep ++ s) with ((a :: sep) ++ s). rewrite starts_with_app.
  f_equal. replace (length (a :: sep) - 1)%nat with (length sep) by (simpl; lia).
  apply split_go_skip.
Qed.

Lemma split_go_head (sep : pystr) (s : pystr) : forall cur,
  forall skip, exists z rest, split_go sep s skip cur = (cur ++ z) :: rest.
Proof.
  induction s as [|c s IH]; intros cur skip.
  - exists [], []. simpl. by rewrite app_nil_r.
  - cbn [split_go]. destruct skip as [|k]; [|apply IH].
    destruct (starts_with sep (c :: s)).
    + exists [], (split_go sep s (length sep - 1) []). by rewrite app_nil_r.
    + destruct (IH (cur ++ [c]) 0%nat) as (z & rest & ->).
      exists (c :: z), rest. by rewrite <- app_assoc.
Qed.

Lemma split_none (sep s : pystr) (b : N) :
  head sep = Some b -> b ∉ s -> split sep s = [s].
Proof.
  intros Hsep Hs. unfold split.
  rewrite <- (app_nil_r s) at 1. by rewrite (split_go_pass sep s [] [] b).
Qed.

(** The piece before the first separator. *)
Lemma split_first (sep body rest : pystr) (b : N) :
  head sep = Some b -> b ∉ body ->
  nth 0 (split sep (body ++ sep ++ rest)) [] = body.
Proof.
  intros Hsep Hbody. unfold split.
  rewrite (split_go_pass sep body _ [] b) by done.
  rewrite split_go_sep by (by destruct sep). done.
Qed.

(** The piece after the first separator. *)
Lemma split_second (sep pre rest : pystr) (b : N) :
  head sep = Some b -> b ∉ pre ->
  nth 1 (split sep (pre ++ sep ++ rest)) [] = nth 0 (split sep rest) [].
Proof.
  intros Hsep Hpre. unfold split.
  rewrite (split_go_pass sep pre _ [] b) by done.
  rewrite split_go_sep by (by destruct sep). done.
Qed.

End Split.

Section Payload.

Variable isspace : N -> bool.

Lemma contains_app_mid (sub a b : pystr) : contains sub (a ++ sub ++ b) = true.
Proof. apply contains_spec. by exists a, b. Qed.

Lemma fence_heads :
  head (u "```") = Some backtick /\ head (u "```json") = Some backtick.
Proof. split; vm_compute; reflexivity. Qed.

Lemma split_go_miss (sep s cur : pystr) (c : N) :
  starts_with sep (c :: s) = false ->
  split_go sep (c :: s) 0 cur = split_go sep s 0 (cur ++ [c]).
Proof. intros H. cbn [split_go]. by rewrite H. Qed.

Lemma no_json_fence_yet (l post : pystr) :
  head post <> Some backtick -> l = [backtick] \/ l = [backtick; backtick] ->
  starts_with (u "```json") (l ++ post) = false.
Proof.
  intros Hpost Hl. destruct fence_literals as [_ ->].
  destruct post as [|c post]; [by destruct Hl as [-> | ->]|].
  assert ((96 =? c)%N = false) as Hc.
  { apply N.eqb_neq. intros <-. by destruct Hpost. }
  unfold backtick in *.
  destruct Hl as [-> | ->]; cbn [app starts_with]; by rewrite ?N.eqb_refl, Hc.
Qed.

(** After the first marker: the piece up to the next marker starts
    with the body and the closing fence, or is the body. *)
Lemma json_piece (body post : pystr) :
  backtick ∉ body -> head post <> Some backtick ->
  nth 0 (split (u "```") (nth 0 (split (u "```json") (body ++ u "```" ++ post)) [])) []
  = body.
Proof.
  intros Hbody Hpost. destruct fence_heads as [H3 H7].
  unfold split at 2. rewrite (split_go_pass _ body _ [] backtick) by done.
  cbn [app].
  destruct (starts_with (u "```json") (u "```" ++ post)) eqn:E.
  - apply starts_with_spec in E as (rest & E).
    rewrite E, split_go_sep by (by vm_compute). cbn [nth].
    by rewrite (split_none _ body backtick).
  - assert (Hx : u "```" ++ post = backtick :: backtick :: backtick :: post)
      by (by rewrite (proj1 fence_literals)).
    rewrite Hx in *.
    rewrite split_go_miss by exact E.
    rewrite split_go_miss by (apply (no_json_fence_yet [backtick; backtick]); auto).
    rewrite split_go_miss by (apply (no_json_fence_yet [backtick]); auto).
    destruct (split_go_head (u "```json") post
                (((body ++ [backtick]) ++ [backtick]) ++ [backtick]) 0%nat)
      as (z & rest & ->).
    cbn [nth]. rewrite <- !app_assoc. cbn [app].
    change (backtick :: backtick :: backtick :: z) with ([backtick; backtick; backtick] ++ z).
    rewrite <- (proj1 fence_literals). by rewrite (split_first _ body z backtick).
Qed.

(** X13.  The payload of a reply with one fenced block.  With no backtick
    before the block or in it: after a [```json] marker the payload is
    the body of the block, stripped, provided what follows the closing
    fence does not start with a backtick; so it is after a bare fence
    when the reply has no [```json] marker.  A text without a backtick is
    its own payload. *)
Theorem payload_of_a_fenced_reply (pre body post : pystr) :
  backtick ∉ pre -> backtick ∉ body ->
  (head post <> Some backtick ->
     payload isspace (pre ++ u "```json" ++ body ++ u "```" ++ post) = strip isspace body)
  /\ (contains (u "```json") (pre ++ u "```" ++ body ++ u "```" ++ post) = false ->
      payload isspace (pre ++ u "```" ++ body ++ u "```" ++ post) = strip isspace body)
  /\ payload isspace pre = pre.
Proof.
  intros Hpre Hbody. destruct fence_heads as [H3 H7]. split; [|split].
  - intros Hpost. unfold payload. rewrite contains_app_mid.
    rewrite (split_second _ pre _ backtick) by done.
    by rewrite json_piece.
  - intros Hno. unfold payload. rewrite Hno, contains_app_mid.
    rewrite (split_second _ pre _ backtick) by done.
    rewrite (split_first _ body post backtick) by done.
    by rewrite (split_none _ body backtick).
  - unfold payload.
    assert (Hnone : forall sub, head sub = Some backtick -> contains sub pre = false).
    { intros sub Hsub. apply not_true_is_false. intros (a & b & E)%contains_spec.
      apply Hpre. rewrite E. destruct sub as [|c sub]; [done|]. injection Hsub as ->.
      apply elem_of_app. right. by left. }
    by rewrite !Hnone.
Qed.

End Payload.

Section Extraction.

Variable isspace : N -> bool.
Variable float_of_str : pystr -> option float.
Variable re_search : pystr -> pystr -> option pystr.

Local Abbreviation first_score := (ReGradingSystem.first_score float_of_str re_search).
Local Abbreviation _extract_from_raw_text :=
  (ReGradingSystem._extract_from_raw_text isspace float_of_str re_search).

Lemma first_score_skips (earlier later : list pystr) (content : pystr) :
  Forall (gives_no_score float_of_str re_search content) earlier ->
  first_score (earlier ++ later) content = first_score later content.
Proof.
  induction 1 as [|p l Hp _ IH]; [done|]. cbn [app ReGradingSystem.first_score].
  unfold gives_no_score in Hp. destruct (re_search p content); [|done]. by rewrite Hp.
Qed.

(** X14.  The extraction takes the number of the first pattern, in the
    order of the list, that matches with a group that converts: the
    patterns before it that do not match, or whose group is no number,
    are passed over. *)
Theorem extraction_takes_the_first_number (content group : pystr) (score : float)
    (i : nat) (pattern : pystr) :
  ReGradingSystem.score_patterns !! i = Some pattern ->
  Forall (gives_no_score float_of_str re_search content)
         (take i ReGradingSystem.score_patterns) ->
  re_search pattern content = Some group ->
  float_of_str group = Some score ->
  teacher_score (_extract_from_raw_text content) = score.
Proof.
  intros Hi Hearlier Hmatch Hconv.
  unfold ReGradingSystem._extract_from_raw_text. cbn [teacher_score].
  rewrite <- (take_drop_middle _ _ _ Hi).
  rewrite first_score_skips by done.
  cbn [ReGradingSystem.first_score]. by rewrite Hmatch, Hconv.
Qed.

(** X15.  The rationale extracted from a raw text contains no code fence:
    after the removal of the markers, left to right, no three backticks
    in a row remain, and stripping keeps a contiguous part of the
    text. *)
Theorem extracted_analysis_has_no_fence (content : pystr) :
  exists analysis,
    teacher_analysis (_extract_from_raw_text content) = PStr analysis
    /\ contains (u "```") analysis = false
    /\ exists a b, remove_fences (strip isspace content) = a ++ analysis ++ b.
Proof.
  unfold ReGradingSystem._extract_from_raw_text. cbn [teacher_analysis].
  eexists. split; [done|]. split.
  - apply contains_strip. apply remove_fences_no_fence.
  - apply strip_infix.
Qed.

End Extraction.

(** ** The record and the file of the first grading *)

Section GradingOutputs.

Lemma not_grading_output (k : pystr) :
  k ∉ grading_outputs ->
  k <> k_teacher_score /\ k <> k_teacher_analysis /\ k <> k_grading_timestamp.
Proof.
  unfold grading_outputs. rewrite !not_elem_of_cons. tauto.
Qed.

Lemma grading_outputs_not_read (q q' : pydict) :
  (forall k, k ∉ grading_outputs -> q' !! k = q !! k) ->
  construct_grading_prompt q' = construct_grading_prompt q.
Proof.
  intros H. unfold construct_grading_prompt, dict_get.
  rewrite !H; [done|..]; unfold grading_outputs; vm_compute;
    intros Hin; repeat (apply elem_of_cons in Hin as [Hin|Hin]; [discriminate Hin|]);
    by apply elem_of_nil in Hin.
Qed.

End GradingOutputs.

Section TeacherRecord.

Variable isspace : N -> bool.
Variable json_loads : pystr -> option pyval.
Variable float_of_str : pystr -> option float.
Variable strftime : N -> pystr.
Variable with_suffix : pystr -> pystr -> pystr.
Variable max_retries : nat.
Variable backup : bool.

Local Abbreviation call_teacher_api :=
  (TeacherGradingSystem.call_teacher_api isspace json_loads float_of_str max_retries).
Local Abbreviation grade_single_question :=
  (TeacherGradingSystem.grade_single_question isspace json_loads float_of_str strftime max_retries).
Local Abbreviation grade_loop :=
  (TeacherGradingSystem.grade_loop isspace json_loads float_of_str strftime max_retries).
Local Abbreviation process_json_file :=
  (TeacherGradingSystem.process_json_file isspace json_loads float_of_str strftime
     with_suffix max_retries backup).

(** X16.  The grading of a record that misses its score or its rationale
    succeeds whatever the grader replies, and changes three fields only:
    the score, which is a [float] afterwards, the rationale, and the
    timestamp, the time of the clock after the call.  The fields the
    prompt is built from are not among them, and no file is written. *)
Theorem grading_writes_three_fields (q : pydict) (w : world) :
  q !! k_teacher_score = None \/ q !! k_teacher_analysis = None ->
  exists (q' : pydict) (w1 : world) (score : float),
    grade_single_question (PDict q) w = Some (PDict q', w1)
    /\ (forall k, k ∉ grading_outputs -> q' !! k = q !! k)
    /\ q' !! k_teacher_score = Some (PFloat score)
    /\ is_Some (q' !! k_teacher_analysis)
    /\ q' !! k_grading_timestamp = Some (PStr (strftime (w_clock w1)))
    /\ construct_grading_prompt q' = construct_grading_prompt q
    /\ w_fs w1 = w_fs w.
Proof.
  intros Hmiss. unfold TeacherGradingSystem.grade_single_question.
  assert (Hin : (match py_in k_teacher_score (PDict q) with
                 | Some has_score =>
                     if has_score then py_in k_teacher_analysis (PDict q)
                     else Some false
                 | None => None
                 end) = Some false).
  { simpl. destruct Hmiss as [H|H]; rewrite H.
    - by rewrite bool_decide_eq_false_2 by (by intros [? ?]).
    - case_bool_decide; [|done]. by rewrite bool_decide_eq_false_2 by (by intros [? ?]). }
  destruct (py_in k_teacher_score (PDict q)) as [has_score|]; [|done].
  rewrite Hin.
  destruct (teacher_call_frame isspace json_loads float_of_str max_retries
              (construct_grading_prompt q) w) as (new & _ & _ & Hfs & _).
  destruct (call_teacher_api (construct_grading_prompt q) w) as [grading_result w1].
  cbn [fst snd] in *.
  assert (Hframe : forall (a : pyval) (s : float) k, k ∉ grading_outputs ->
            (<[k_grading_timestamp := PStr (strftime (w_clock w1))]>
               (<[k_teacher_score := PFloat s]> (<[k_teacher_analysis := a]> q))) !! k
            = q !! k).
  { intros a s k (? & ? & ?)%not_grading_output. by rewrite !lookup_insert_ne. }
  assert (Hkeys : forall (a : pyval) (s : float),
            let q' := <[k_grading_timestamp := PStr (strftime (w_clock w1))]>
                        (<[k_teacher_score := PFloat s]> (<[k_teacher_analysis := a]> q)) in
            q' !! k_teacher_score = Some (PFloat s)
            /\ is_Some (q' !! k_teacher_analysis)
            /\ q' !! k_grading_timestamp = Some (PStr (strftime (w_clock w1)))).
  { intros a s. cbv zeta. split; [|split].
    - rewrite lookup_insert_ne by (by vm_compute). by rewrite lookup_insert_eq.
    - rewrite !lookup_insert_ne by (by vm_compute). by rewrite lookup_insert_eq.
    - by rewrite lookup_insert_eq. }
  destruct grading_result as [v|].
  - eexists _, w1, (teacher_score v). split; [done|].
    destruct (Hkeys (teacher_analysis v) (teacher_score v)) as (? & ? & ?).
    split; [apply Hframe|]. do 3 (split; [done|]).
    split; [|done]. apply grading_outputs_not_read. apply Hframe.
  - eexists _, w1, 0%float. split; [done|].
    destruct (Hkeys (PStr TeacherGradingSystem.failure_analysis) 0%float) as (? & ? & ?).
    split; [apply Hframe|]. do 3 (split; [done|]).
    split; [|done]. apply grading_outputs_not_read. apply Hframe.
Qed.

(** A loop that ends normally leaves every record with a score. *)
Lemma grade_loop_ok (file_path : pystr) (data : pydict) (todo : list pyval) :
  forall (done : list pyval) (graded_count : nat) (w : world),
  (grade_loop file_path data done todo graded_count w).1.1 = true ->
  exists todo',
    (grade_loop file_path data done todo graded_count w).1.2 = done ++ todo'
    /\ length todo' = length todo
    /\ Forall (fun ex => is_graded ex = true) todo'.
Proof.
  induction todo as [|example rest IH]; intros done graded_count w.
  - exists []. simpl. by rewrite app_nil_r.
  - cbn [TeacherGradingSystem.grade_loop].
    destruct (py_in k_teacher_score example) as [[|]|] eqn:Hin; [| |done].
    + intros Hok. destruct (IH _ _ _ Hok) as (todo' & He & Hl & Hall).
      exists (example :: todo'). rewrite He, <- app_assoc. split; [done|].
      split; [simpl; lia|]. constructor; [|done]. unfold is_graded. by rewrite Hin.
    + pose proof (grade_single_question_spec isspace json_loads float_of_str strftime
                    max_retries example w Hin) as Hgsq.
      destruct (grade_single_question example w) as [[example' w1]|]; [|done].
      destruct Hgsq as [Hkey _].
      destruct (if (S graded_count mod 5 =? 0)%nat then _ else _) as [[|] w2]; [|done].
      intros Hok.
      destruct (IH _ _ _ Hok) as (todo' & He & Hl & Hall).
      exists (example' :: todo'). rewrite He, <- app_assoc. split; [done|].
      split; [simpl; lia|]. constructor; [|done]. by apply has_key_graded.
Qed.

Lemma count_graded_graded (exs : list pyval) :
  Forall (fun ex => is_graded ex = true) exs ->
  TeacherGradingSystem.count_graded exs = Some (length exs).
Proof.
  induction 1 as [|ex exs Hex _ IH]; [done|]. simpl.
  unfold is_graded in Hex. destruct (py_in k_teacher_score ex) as [[|]|]; try done.
  simpl. by rewrite IH.
Qed.

Lemma count_graded_le (exs : list pyval) (n : nat) :
  TeacherGradingSystem.count_graded exs = Some n -> (n <= length exs)%nat.
Proof. intros H%count_graded_ungraded. lia. Qed.

Lemma ungraded_graded (exs : list pyval) :
  Forall (fun ex => is_graded ex = true) exs -> ungraded exs = 0%nat.
Proof.
  induction 1 as [|ex exs Hex _ IH]; [done|]. unfold ungraded in *. simpl. by rewrite Hex.
Qed.

(** A run that succeeded left a file whose statistics read back, every
    record graded. *)
Lemma process_json_file_success (file_path : pystr) (w : world) :
  (process_json_file file_path w).1 = true ->
  exists n, TeacherGradingSystem.graded_statistics file_path (process_json_file file_path w).2
            = Some (n, n)
            /\ (0 < n)%nat.
Proof.
  unfold TeacherGradingSystem.process_json_file, TeacherGradingSystem.graded_statistics.
  destruct (read_json file_path w) as [[| | | | | |data]|] eqn:Hread; try done.
  destruct (dict_get data k_example (PList [])) as [| | | |s|exs|d] eqn:Hexs;
    try (by destruct (negb _)).
  - destruct (negb (truthy (PList exs))) eqn:Htruthy; [done|].
    destruct (TeacherGradingSystem.count_graded exs) as [already_graded|] eqn:Hcount; [|done].
    destruct (length exs - already_graded =? 0)%nat eqn:Hneed.
    + intros _. cbn [snd]. rewrite Hread, Hexs, Hcount. simpl.
      apply Nat.eqb_eq in Hneed. apply count_graded_le in Hcount as Hle.
      assert (already_graded = length exs) as -> by lia.
      eexists. split; [done|]. destruct exs; [done|simpl; lia].
    + destruct (backup_file backup with_suffix (u ".json.backup") file_path
                  (PDict data) w) as [[|] w1]; [|done].
      pose proof (grade_loop_ok file_path data exs [] 0%nat w1) as Hloop.
      destruct (grade_loop file_path data [] exs 0 w1) as [[ok exs'] w2].
      cbn [fst snd] in *. destruct ok; [|done]. intros Hsaved.
      destruct (Hloop eq_refl) as (todo' & -> & Hlen & Hall). cbn [app] in *.
      rewrite read_json_write by done.
      assert (Hkey : data !! k_example = Some (PList exs)).
      { unfold dict_get in Hexs. destruct (data !! k_example); [by subst|].
        injection Hexs as <-. done. }
      rewrite (with_examples_present _ _ _ Hkey). unfold dict_get.
      rewrite lookup_insert_eq, count_graded_graded by done. simpl.
      eexists. split; [done|]. rewrite Hlen. destruct exs; [done|simpl; lia].
  - destruct (negb (truthy (PDict d))) eqn:Htruthy; [done|].
    destruct (forallb _ _) eqn:Hall; [|done]. intros _. cbn [snd].
    rewrite Hread, Hexs.
    assert (Hfil : List.filter (contains k_teacher_score) (map fst (map_to_list d))
                   = map fst (map_to_list d)).
    { rewrite forallb_forall in Hall. clear - Hall.
      induction (map fst (map_to_list d)) as [|k l IH]; [done|]. simpl.
      rewrite (Hall k) by (by left). f_equal. apply IH. intros x Hx. apply Hall. by right. }
    rewrite Hfil, length_map, length_map_to_list.
    eexists. split; [done|]. simpl in Htruthy. destruct (size d); [done|lia].
Qed.

(** X17.  A run over a file that returned true has left it complete: a
    second run over the file returns true and changes nothing of the
    world. *)
Theorem grading_run_resumes (file_path : pystr) (w : world) :
  (process_json_file file_path w).1 = true ->
  process_json_file file_path (process_json_file file_path w).2
  = (true, (process_json_file file_path w).2).
Proof.
  intros Hok.
  destruct (process_json_file_success file_path w Hok) as (n & Hstat & Hpos).
  set (w1 := (process_json_file file_path w).2) in *.
  unfold TeacherGradingSystem.graded_statistics in Hstat.
  unfold TeacherGradingSystem.process_json_file at 1.
  destruct (read_json file_path w1) as [[| | | | | |data]|]; try done.
  destruct (dict_get data k_example (PList [])) as [| | | |s|exs|d]; try done.
  - injection Hstat as <- H0. lia.
  - destruct (TeacherGradingSystem.count_graded exs) as [k|]; [|done].
    simpl in Hstat. injection Hstat as <- <-.
    assert (negb (truthy (PList exs)) = false) as ->.
    { simpl. destruct exs; [simpl in Hpos; lia|done]. }
    by rewrite Nat.sub_diag.
  - injection Hstat as <- Hall.
    assert (negb (truthy (PDict d)) = false) as ->.
    { simpl. destruct (size d); [lia|done]. }
    assert (forallb (contains k_teacher_score) (map fst (map_to_list d)) = true) as ->; [|done].
    rewrite <- (length_map_to_list d) in Hall.
    rewrite <- (length_map fst (map_to_list d)) in Hall.
    clear - Hall. induction (map fst (map_to_list d)) as [|k l IH]; [done|].
    simpl in *. destruct (contains k_teacher_score k); simpl in *.
    + apply IH. lia.
    + pose proof (List.filter_length_le (contains k_teacher_score) l). lia.
Qed.

End TeacherRecord.

(** ** The saves and the run of the first grading *)

Section TeacherRunFacts.

Variable isspace : N -> bool.
Variable json_loads : pystr -> option pyval.
Variable float_of_str : pystr -> option float.
Variable strftime : N -> pystr.
Variable with_suffix : pystr -> pystr -> pystr.
Variable max_retries : nat.
Variable backup : bool.

Local Abbreviation grade_single_question :=
  (TeacherGradingSystem.grade_single_question isspace json_loads float_of_str strftime max_retries).
Local Abbreviation grade_loop :=
  (TeacherGradingSystem.grade_loop isspace json_loads float_of_str strftime max_retries).
Local Abbreviation process_json_file :=
  (TeacherGradingSystem.process_json_file isspace json_loads float_of_str strftime
     with_suffix max_retries backup).
Local Abbreviation run_file :=
  (TeacherGradingSystem.run_file isspace json_loads float_of_str strftime
     with_suffix max_retries backup).
Local Abbreviation run :=
  (TeacherGradingSystem.run isspace json_loads float_of_str strftime
     with_suffix max_retries backup).

Lemma checkpoint_step (n : nat) :
  (S n / 5 = if (S n mod 5 =? 0) then S (n / 5) else n / 5)%nat.
Proof.
  pose proof (Nat.div_mod_eq (S n) 5) as H1.
  pose proof (Nat.div_mod_eq n 5) as H2.
  pose proof (Nat.mod_upper_bound (S n) 5) as H3.
  pose proof (Nat.mod_upper_bound n 5) as H4.
  destruct (S n mod 5 =? 0)%nat eqn:E.
  - apply Nat.eqb_eq in E. lia.
  - apply Nat.eqb_neq in E. lia.
Qed.

(** The saves of a loop that ends normally: one for every fifth record
    it grades. *)
Lemma grade_loop_checkpoints (file_path : pystr) (data : pydict) (todo : list pyval) :
  forall (done : list pyval) (graded_count : nat) (w : world),
  (grade_loop file_path data done todo graded_count w).1.1 = true ->
  exists new,
    w_trace (grade_loop file_path data done todo graded_count w).2 = w_trace w ++ new
    /\ writes new
       = repeat (EvWrite file_path)
           ((graded_count + ungraded todo) / 5 - graded_count / 5).
Proof.
  induction todo as [|example rest IH]; intros done graded_count w.
  - exists []. simpl. rewrite app_nil_r. split; [done|].
    unfold ungraded. simpl. by rewrite Nat.add_0_r, Nat.sub_diag.
  - cbn [TeacherGradingSystem.grade_loop].
    destruct (py_in k_teacher_score example) as [[|]|] eqn:Hin; [| |done].
    + intros Hok. destruct (IH _ _ _ Hok) as (new & Ht & Hw).
      exists new. split; [done|]. rewrite Hw. unfold ungraded, is_graded. simpl.
      by rewrite Hin.
    + pose proof (grade_single_question_spec isspace json_loads float_of_str strftime
                    max_retries example w Hin) as Hgsq.
      destruct (grade_single_question example w) as [[example' w1]|]; [|done].
      destruct Hgsq as (_ & new1 & Ht1 & _ & _ & Hw1 & _).
      destruct (checkpoint_cases (S graded_count mod 5 =? 0)%nat file_path
                  (with_examples data (done ++ example' :: rest)) w1)
        as (_ & _ & _ & Hcases).
      destruct (if (S graded_count mod 5 =? 0)%nat then _ else _) as [saved w2].
      cbn [fst snd] in Hcases.
      destruct Hcases as [(-> & Hdue & ->)|[(-> & Hdue & _ & Ht2 & _)|(-> & _)]];
        [| |done].
      all: intros Hok.
      all: destruct (IH _ _ _ Hok) as (new & Ht & Hw).
      all: assert (Hu : ungraded (example :: rest) = S (ungraded rest))
        by (unfold ungraded, is_graded; simpl; by rewrite Hin).
      all: rewrite Hu, Ht, Nat.add_succ_r; rewrite <- Nat.add_succ_l in *.
      all: pose proof (checkpoint_step graded_count) as Hstep; rewrite Hdue in Hstep.
      all: assert (Hmono : (S graded_count / 5 <= (S graded_count + ungraded rest) / 5)%nat)
        by (apply Nat.Div0.div_le_mono; lia).
      * exists (new1 ++ [EvSleep 500] ++ new).
        cbn [sleep emit w_trace]. rewrite Ht1, <- !app_assoc. split; [done|].
        rewrite !writes_app, Hw1, Hw. cbn [app writes List.filter is_write].
        by rewrite Hstep.
      * exists (new1 ++ [EvWrite file_path; EvSleep 500] ++ new).
        cbn [sleep emit w_trace]. rewrite Ht2, Ht1, <- !app_assoc. split; [done|].
        rewrite !writes_app, Hw1, Hw. cbn [app writes List.filter is_write].
        replace ((S graded_count + ungraded rest) / 5 - graded_count / 5)%nat
          with (S ((S graded_count + ungraded rest) / 5 - S graded_count / 5)) by lia.
        done.
Qed.

Lemma backup_file_writes (suffix file_path : pystr) (data : pyval) (w : world) :
  (backup_file backup with_suffix suffix file_path data w).1 = true ->
  exists new,
    w_trace (backup_file backup with_suffix suffix file_path data w).2 = w_trace w ++ new
    /\ writes new
       = if backup && bool_decide (w_fs w !! with_suffix file_path suffix = None)
         then [EvWrite (with_suffix file_path suffix)] else [].
Proof.
  unfold backup_file. destruct backup; [|exists []; by rewrite app_nil_r].
  destruct (w_fs w !! with_suffix file_path suffix) eqn:E; simpl.
  - exists []. by rewrite app_nil_r.
  - destruct (write_json_cases (with_suffix file_path suffix) data w)
      as [[He ->]|[He ->]]; [|done].
    by exists [EvWrite (with_suffix file_path suffix)].
Qed.

(** X18.  The saves of a run that ends normally with k records to grade:
    the backup, when backups are on and none exists, then one save of
    the file for every fifth graded record and the final one, k / 5 + 1
    writes of the file. *)
Theorem grading_saves_every_fifth_record (file_path : pystr) (w : world)
    (data : pydict) (exs : list pyval) :
  read_json file_path w = Some (PDict data) ->
  data !! k_example = Some (PList exs) ->
  (process_json_file file_path w).1 = true ->
  (0 < ungraded exs)%nat ->
  exists new,
    w_trace (process_json_file file_path w).2 = w_trace w ++ new
    /\ writes new
       = (if backup
             && bool_decide (w_fs w !! with_suffix file_path (u ".json.backup") = None)
          then [EvWrite (with_suffix file_path (u ".json.backup"))] else [])
         ++ repeat (EvWrite file_path) (ungraded exs / 5 + 1).
Proof.
  intros Hread Hexs. unfold TeacherGradingSystem.process_json_file. rewrite Hread.
  unfold dict_get. rewrite Hexs.
  destruct (negb (truthy (PList exs))); [done|].
  destruct (TeacherGradingSystem.count_graded exs) as [already_graded|] eqn:Hcount; [|done].
  apply count_graded_ungraded in Hcount.
  destruct (length exs - already_graded =? 0)%nat eqn:Hneed.
  { apply Nat.eqb_eq in Hneed. intros _ ?. lia. }
  pose proof (backup_file_writes (u ".json.backup") file_path (PDict data) w) as Hb.
  destruct (backup_file backup with_suffix (u ".json.backup") file_path (PDict data) w)
    as [[|] w1]; [|done].
  destruct (Hb eq_refl) as (newb & Htb & Hwb). cbn [snd] in Htb.
  pose proof (grade_loop_checkpoints file_path data exs [] 0%nat w1) as Hloop.
  destruct (grade_loop file_path data [] exs 0 w1) as [[ok exs'] w2]. cbn [fst snd] in *.
  destruct ok; [|done]. destruct (Hloop eq_refl) as (new & Ht & Hw).
  destruct (write_json_cases file_path (with_examples data exs') w2)
    as [[He ->]|[He ->]]; [|done].
  intros _ _.
  exists (newb ++ new ++ [EvWrite file_path]).
  cbn [snd w_trace]. rewrite Ht, Htb, <- !app_assoc. split; [done|].
  rewrite !writes_app, Hwb, Hw. f_equal.
  change (0 / 5)%nat with 0%nat. rewrite Nat.sub_0_r, Nat.add_0_l.
  by rewrite repeat_app.
Qed.

(** What a run over a file cannot touch: the files that exist under
    another path. *)
Lemma process_json_file_frame (file_path : pystr) (w : world) (p : pystr) :
  is_Some (w_fs w !! p) ->
  is_Some (w_fs (process_json_file file_path w).2 !! p)
  /\ (p <> file_path -> w_fs (process_json_file file_path w).2 !! p = w_fs w !! p).
Proof.
  intros Hp. unfold TeacherGradingSystem.process_json_file.
  assert (Hb : forall data,
    let w1 := (backup_file backup with_suffix (u ".json.backup") file_path data w).2 in
    is_Some (w_fs w1 !! p) /\ (p <> file_path -> w_fs w1 !! p = w_fs w !! p)).
  { intros data. cbv zeta.
    destruct (backup_file_spec backup with_suffix (u ".json.backup") file_path data w)
      as (_ & _ & _ & Hfb & _). rewrite (Hfb p Hp). done. }
  destruct (read_json file_path w) as [[| | | | | |data]|] eqn:Hread; try done.
  destruct (dict_get data k_example (PList [])) as [| | | |s|exs|d] eqn:Hexs;
    try (by destruct (negb _)).
  - destruct (negb _); [done|]. apply Hb.
  - destruct (negb _); [done|].
    destruct (TeacherGradingSystem.count_graded exs) as [already_graded|]; [|done].
    destruct (_ =? _)%nat; [done|].
    destruct (Hb (PDict data)) as [Hs1 He1].
    destruct (backup_file backup with_suffix (u ".json.backup") file_path (PDict data) w)
      as [saved w1]. cbn [snd] in Hs1, He1.
    destruct saved; [|done].
    destruct (grade_loop_spec isspace json_loads float_of_str strftime max_retries
                file_path data exs [] 0%nat w1)
      as (todo' & new & _ & _ & _ & _ & Hf & Hfile & Herr & _).
    destruct (grade_loop file_path data [] exs 0 w1) as [[ok exs'] w2]. cbn [fst snd] in *.
    assert (Hs2 : is_Some (w_fs w2 !! p)).
    { destruct (decide (p = file_path)) as [->|Hne]; [|by rewrite Hf].
      destruct Herr as [Hq|(_ & _ & ->)]; [|by eexists].
      destruct (Hfile Hq) as [->|(? & _ & ->)]; [done|by eexists]. }
    destruct ok; cbn [snd].
    + split.
      * by apply w_fs_write_is_Some.
      * intros Hne. rewrite w_fs_write_ne by done. rewrite Hf by done. by apply He1.
    + split; [done|]. intros Hne. rewrite Hf by done. by apply He1.
  - destruct (negb _); [done|]. destruct (forallb _ _); [done|]. apply Hb.
Qed.

Lemma run_file_steps (json_files : list pystr) :
  forall (c : TeacherGradingSystem.counters) (w : world),
  TeacherGradingSystem.total_graded c = TeacherGradingSystem.total_questions c ->
  exists c',
    (foldl run_file (Some c, w) json_files).1 = Some c'
    /\ TeacherGradingSystem.total_graded c' = TeacherGradingSystem.total_questions c'
    /\ TeacherGradingSystem.total_files c'
       = (TeacherGradingSystem.total_files c + length json_files)%nat
    /\ (forall p, is_Some (w_fs w !! p) ->
          is_Some (w_fs (foldl run_file (Some c, w) json_files).2 !! p)
          /\ (p ∉ json_files ->
                w_fs (foldl run_file (Some c, w) json_files).2 !! p = w_fs w !! p)).
Proof.
  induction json_files as [|f files IH]; intros c w Hc.
  - exists c. simpl. repeat split; auto; lia.
  - cbn [foldl]. unfold TeacherGradingSystem.run_file at 2 4 6.
    pose proof (process_json_file_success isspace json_loads float_of_str strftime
                  with_suffix max_retries backup f w) as Hsucc.
    pose proof (process_json_file_frame f w) as Hframe.
    destruct (process_json_file f w) as [success w1]. cbn [fst snd] in *.
    assert (Hnext : exists c1,
      (if success
       then match TeacherGradingSystem.graded_statistics f w1 with
            | Some (questions, graded) =>
                (Some (TeacherGradingSystem.Counters
                         (S (TeacherGradingSystem.total_files c))
                         (TeacherGradingSystem.total_questions c + questions)
                         (TeacherGradingSystem.total_graded c + graded)), w1)
            | None => (None, w1)
            end
       else (Some (TeacherGradingSystem.Counters
                     (S (TeacherGradingSystem.total_files c))
                     (TeacherGradingSystem.total_questions c)
                     (TeacherGradingSystem.total_graded c)), w1)) = (Some c1, w1)
      /\ TeacherGradingSystem.total_graded c1 = TeacherGradingSystem.total_questions c1
      /\ TeacherGradingSystem.total_files c1 = S (TeacherGradingSystem.total_files c)).
    { destruct success.
      - destruct (Hsucc eq_refl) as (n & -> & _). eexists. split; [done|]. simpl. lia.
      - eexists. split; [done|]. simpl. lia. }
    destruct Hnext as (c1 & -> & Hc1 & Hf1).
    destruct (IH c1 w1 Hc1) as (c' & He & Hc' & Hfiles & Hfs).
    exists c'. split; [done|]. split; [done|]. split; [simpl; lia|].
    intros p Hp. destruct (Hframe p Hp) as [Hs1 He1]. destruct (Hfs p Hs1) as [Hs2 He2].
    split; [done|]. intros [Hne Hnotin]%not_elem_of_cons.
    rewrite He2 by done. by apply He1.
Qed.

Lemma run_dirs_steps (strategy_dirs : list (pystr * list pystr)) :
  forall (c : TeacherGradingSystem.counters) (w : world),
  TeacherGradingSystem.total_graded c = TeacherGradingSystem.total_questions c ->
  exists c',
    (foldl (fun acc d => foldl run_file acc d.2) (Some c, w) strategy_dirs).1 = Some c'
    /\ TeacherGradingSystem.total_graded c' = TeacherGradingSystem.total_questions c'
    /\ TeacherGradingSystem.total_files c'
       = (TeacherGradingSystem.total_files c + length (concat (map snd strategy_dirs)))%nat
    /\ (forall p, is_Some (w_fs w !! p) ->
          is_Some (w_fs (foldl (fun acc d => foldl run_file acc d.2) (Some c, w)
                           strategy_dirs).2 !! p)
          /\ (p ∉ concat (map snd strategy_dirs) ->
                w_fs (foldl (fun acc d => foldl run_file acc d.2) (Some c, w)
                        strategy_dirs).2 !! p = w_fs w !! p)).
Proof.
  induction strategy_dirs as [|d dirs IH]; intros c w Hc.
  - exists c. simpl. repeat split; auto; lia.
  - cbn [foldl map concat].
    destruct (run_file_steps d.2 c w Hc) as (c1 & He1 & Hc1 & Hf1 & Hfs1).
    destruct (foldl run_file (Some c, w) d.2) as [o w1]. cbn [fst snd] in *. subst o.
    destruct (IH c1 w1 Hc1) as (c' & He & Hc' & Hfiles & Hfs).
    exists c'. split; [done|]. split; [done|]. split; [rewrite length_app; lia|].
    intros p Hp. destruct (Hfs1 p Hp) as [Hs1 Hq1]. destruct (Hfs p Hs1) as [Hs2 Hq2].
    split; [done|]. rewrite elem_of_app. intros Hnotin.
    rewrite Hq2 by tauto. apply Hq1. tauto.
Qed.

(** X19.  [run] never lets an exception out: the statistics it reads back
    from a file that succeeded always read.  It counts every JSON file
    of the selected directories, and in its totals every counted
    question is a graded one.  The existing files outside the selected
    directories are left as they were. *)
Theorem grading_run_summary (strategy_filter : option pystr)
    (tree : option (list (pystr * list pystr))) (w : world) :
  let w' := (run strategy_filter tree w).2 in
  let json_files :=
    concat (map snd (TeacherGradingSystem.filtered strategy_filter (default [] tree))) in
  match (run strategy_filter tree w).1 with
  | TeacherGradingSystem.NothingToDo => w' = w
  | TeacherGradingSystem.Summary c =>
      TeacherGradingSystem.total_files c = length json_files
      /\ TeacherGradingSystem.total_graded c = TeacherGradingSystem.total_questions c
  | TeacherGradingSystem.Escaped => False
  end
  /\ (forall p, is_Some (w_fs w !! p) -> p ∉ json_files -> w_fs w' !! p = w_fs w !! p).
Proof.
  cbv zeta. unfold TeacherGradingSystem.run.
  destruct tree as [strategy_dirs|]; [|done]. cbn [default].
  destruct (length (TeacherGradingSystem.filtered strategy_filter strategy_dirs) =? 0)%nat;
    [done|].
  destruct (run_dirs_steps (TeacherGradingSystem.filtered strategy_filter strategy_dirs)
              (TeacherGradingSystem.Counters 0 0 0) w eq_refl)
    as (c' & He & Hc' & Hfiles & Hfs).
  destruct (foldl _ _ _) as [o w']. cbn [fst snd] in *. subst o.
  split; [done|]. intros p Hp Hnotin. by apply (Hfs p Hp).
Qed.

Lemma elem_of_filtered (f : pystr) (strategy_dirs : list (pystr * list pystr))
    (d : pystr * list pystr) :
  f <> [] ->
  d ∈ TeacherGradingSystem.filtered (Some f) strategy_dirs
  <-> d ∈ strategy_dirs /\ contains f d.1 = true.
Proof.
  intros Hf. unfold TeacherGradingSystem.filtered.
  destruct f as [|a f]; [done|]. cbn [length Nat.eqb].
  rewrite !list_elem_of_In, filter_In. done.
Qed.

(** X20.  With a strategy filter that is not empty, a file that exists and
    is listed only under directories whose name does not contain the
    filter is left as it was. *)
Theorem strategy_filter_selects (f : pystr) (strategy_dirs : list (pystr * list pystr))
    (w : world) (p : pystr) :
  f <> [] ->
  is_Some (w_fs w !! p) ->
  (forall d, d ∈ strategy_dirs -> p ∈ d.2 -> contains f d.1 = false) ->
  w_fs (run (Some f) (Some strategy_dirs) w).2 !! p = w_fs w !! p.
Proof.
  intros Hf Hp Hout. unfold TeacherGradingSystem.run.
  destruct (length (TeacherGradingSystem.filtered (Some f) strategy_dirs) =? 0)%nat;
    [done|].
  destruct (run_dirs_steps (TeacherGradingSystem.filtered (Some f) strategy_dirs)
              (TeacherGradingSystem.Counters 0 0 0) w eq_refl)
    as (c' & He & Hc' & Hfiles & Hfs).
  destruct (foldl _ _ _) as [o w']. cbn [fst snd] in *.
  apply (Hfs p Hp). intros Hin.
  apply list_elem_of_In, in_concat in Hin as (files & Hfiles' & Hin).
  apply in_map_iff in Hfiles' as (d & <- & Hd).
  apply list_elem_of_In, elem_of_filtered in Hd as [Hd Hc]; [|done].
  rewrite (Hout d Hd) in Hc; [done|]. by apply list_elem_of_In.
Qed.

End TeacherRunFacts.

(** ** The records of the regrading *)

Section ReGradingLoop.

Variable isspace : N -> bool.
Variable json_loads : pystr -> option pyval.
Variable float_of_str : pystr -> option float.
Variable strftime : N -> pystr.
Variable with_suffix : pystr -> pystr -> pystr.
Variable re_search : pystr -> pystr -> option pystr.
Variable max_retries : nat.
Variable backup : bool.

Local Abbreviation call_teacher_api :=
  (ReGradingSystem.call_teacher_api isspace json_loads float_of_str re_search max_retries).
Local Abbreviation regrade_question :=
  (ReGradingSystem.regrade_question isspace json_loads float_of_str strftime re_search
     max_retries).
Local Abbreviation regrade_loop :=
  (ReGradingSystem.regrade_loop isspace json_loads float_of_str strftime re_search
     max_retries).
Local Abbreviation process_file :=
  (ReGradingSystem.process_file isspace json_loads float_of_str strftime with_suffix
     re_search max_retries backup).

Lemma regraded_from_refl (l : list nat) (exs : list pyval) : regraded_from l exs exs.
Proof. split; [done|]. split; [done|]. intros i ex Hi. by left. Qed.

Lemma regraded_from_step (idx : nat) (rest : list nat) (q q' : pydict)
    (exs exs' : list pyval) :
  exs !! idx = Some (PDict q) ->
  (forall k, k ∉ grading_outputs -> q' !! k = q !! k) ->
  regraded_from rest (<[idx := PDict q']> exs) exs' ->
  regraded_from (idx :: rest) exs exs'.
Proof.
  intros Hidx Hq (Hlen & Hout & Hrec). split; [|split].
  - by rewrite Hlen, length_insert.
  - intros i [Hne Hi]%not_elem_of_cons. rewrite Hout by done.
    by rewrite list_lookup_insert_ne.
  - intros i ex Hi. destruct (decide (i = idx)) as [->|Hne].
    + rewrite Hidx in Hi. injection Hi as <-.
      assert (Hins : <[idx := PDict q']> exs !! idx = Some (PDict q')).
      { apply list_lookup_insert_eq. by apply lookup_lt_Some in Hidx. }
      destruct (Hrec idx _ Hins) as [H|(q1 & q2 & [= <-] & H & Hk)].
      * right. by exists q, q'.
      * right. exists q, q2. split; [done|]. split; [done|].
        intros k Hk'. rewrite Hk by done. by apply Hq.
    + apply Hrec. by rewrite list_lookup_insert_ne.
Qed.

Lemma regraded_from_skip (idx : nat) (rest : list nat) (exs exs' : list pyval) :
  regraded_from rest exs exs' -> regraded_from (idx :: rest) exs exs'.
Proof.
  intros (Hlen & Hout & Hrec). split; [done|]. split; [|done].
  intros i [_ Hi]%not_elem_of_cons. by apply Hout.
Qed.

Lemma regrade_question_spec (q : pydict) (w : world) :
  exists new,
    w_trace (regrade_question q w).2 = w_trace w ++ new
    /\ (length (posts new) <= max_retries)%nat
    /\ w_fs (regrade_question q w).2 = w_fs w
    /\ writes new = []
    /\ (forall k, k ∉ grading_outputs -> (regrade_question q w).1.1 !! k = q !! k)
    /\ match (regrade_question q w).1.2 with
       | Some v =>
           (regrade_question q w).1.1 !! k_teacher_score = Some (PFloat (teacher_score v))
           /\ (regrade_question q w).1.1 !! k_teacher_analysis = Some (teacher_analysis v)
       | None => (regrade_question q w).1.1 = q
       end.
Proof.
  unfold ReGradingSystem.regrade_question.
  destruct (regrade_call_frame isspace json_loads float_of_str re_search max_retries
              (construct_grading_prompt q) w) as (new & Ht & Hp & Hf & Hw).
  destruct (call_teacher_api (construct_grading_prompt q) w) as [[v|] w1];
    cbn [fst snd] in *; exists new; do 4 (split; [done|]).
  - split.
    + intros k (? & ? & ?)%not_grading_output. by rewrite !lookup_insert_ne.
    + split.
      * rewrite lookup_insert_ne by (by vm_compute). by rewrite lookup_insert_eq.
      * rewrite !lookup_insert_ne by (by vm_compute). by rewrite lookup_insert_eq.
  - done.
Qed.

Lemma regrade_loop_spec (file_path : pystr) (data : pydict) (zero_indices : list nat) :
  forall (examples : list pyval) (regraded_count : nat) (w : world),
  exists new,
    regraded_from zero_indices examples
      (regrade_loop file_path data examples zero_indices regraded_count w).1.2
    /\ w_trace (regrade_loop file_path data examples zero_indices regraded_count w).2
       = w_trace w ++ new
    /\ (length (posts new) <= max_retries * length (in_range zero_indices examples))%nat
    /\ (forall p, p <> file_path ->
          w_fs (regrade_loop file_path data examples zero_indices regraded_count w).2 !! p
          = w_fs w !! p)
    /\ (write_errors new = [] ->
          w_fs (regrade_loop file_path data examples zero_indices regraded_count w).2
            !! file_path = w_fs w !! file_path
          \/ exists examples'',
               regraded_from zero_indices examples examples''
               /\ w_fs (regrade_loop file_path data examples zero_indices regraded_count w).2
                    !! file_path
                  = Some (JsonFile (with_examples data examples'')))
    /\ (write_errors new = []
        \/ (write_errors new = [EvWriteError file_path]
            /\ (regrade_loop file_path data examples zero_indices regraded_count w).1.1
               = false
            /\ w_fs (regrade_loop file_path data examples zero_indices regraded_count w).2
                 !! file_path = Some OtherFile)).
Proof.
  induction zero_indices as [|idx rest IH]; intros examples regraded_count w.
  - exists []. simpl. rewrite app_nil_r. split; [apply regraded_from_refl|].
    repeat split; auto; lia.
  - cbn [ReGradingSystem.regrade_loop]. unfold in_range. cbn [List.filter].
    destruct (examples !! idx) as [ex|] eqn:Hex.
    2: { apply lookup_ge_None in Hex.
         assert ((idx <? length examples)%nat = false) as -> by (apply Nat.ltb_ge; lia).
         destruct (IH examples regraded_count w) as (new & Hr & Ht & Hp & Hf & Hfile & Herr).
         exists new. split; [by apply regraded_from_skip|]. do 3 (split; [done|]).
         split; [|done]. intros Hq.
         destruct (Hfile Hq) as [?|(e & ? & ?)]; [by left|right].
         exists e. split; [by apply regraded_from_skip|done]. }
    apply lookup_lt_Some in Hex as Hlt.
    assert ((idx <? length examples)%nat = true) as -> by (apply Nat.ltb_lt; lia).
    cbn [length].
    assert (Hstop : forall (l : list pyval) (w0 : world) (ev : list event),
      regraded_from (idx :: rest) examples l ->
      w_trace w0 = w_trace w ++ ev -> (length (posts ev) <= max_retries)%nat ->
      w_fs w0 = w_fs w -> write_errors ev = [] ->
      exists new,
        regraded_from (idx :: rest) examples (false, l, w0).1.2
        /\ w_trace (false, l, w0).2 = w_trace w ++ new
        /\ (length (posts new)
            <= max_retries * S (length (List.filter (fun idx => idx <? length examples)%nat rest)))%nat
        /\ (forall p, p <> file_path -> w_fs (false, l, w0).2 !! p = w_fs w !! p)
        /\ (write_errors new = [] ->
              w_fs (false, l, w0).2 !! file_path = w_fs w !! file_path
              \/ exists examples'',
                   regraded_from (idx :: rest) examples examples''
                   /\ w_fs (false, l, w0).2 !! file_path
                      = Some (JsonFile (with_examples data examples'')))
        /\ (write_errors new = []
            \/ (write_errors new = [EvWriteError file_path]
                /\ (false, l, w0).1.1 = false
                /\ w_fs (false, l, w0).2 !! file_path = Some OtherFile))).
    { intros l w0 ev Hr Ht Hp Hf Hq. exists ev. cbn [fst snd]. rewrite Hf.
      split; [done|]. split; [done|]. split; [lia|]. split; [done|].
      split; [by left|by left]. }
    destruct ex as [| | | | | |q];
      try (apply (Hstop examples w []);
           [apply regraded_from_refl|by rewrite app_nil_r|simpl; lia|done|done]).
    destruct (regrade_question_spec q w) as (new1 & Ht1 & Hp1 & Hf1 & Hw1 & Hk1 & _).
    destruct (regrade_question_quiet isspace json_loads float_of_str strftime re_search
                max_retries q w) as (new1' & Ht1' & Hq1).
    assert (new1' = new1) as ->
      by (rewrite Ht1 in Ht1'; by apply app_inv_head in Ht1').
    destruct (regrade_question q w) as [[q' grading_result] w1]. cbn [fst snd] in *.
    assert (Hone : regraded_from (idx :: rest) examples (<[idx := PDict q']> examples)).
    { eapply regraded_from_step; [done|done|apply regraded_from_refl]. }
    destruct (ReGradingSystem.improved grading_result _); [|by apply (Hstop _ w1 new1)].
    set (examples1 := <[idx := PDict q']> examples) in *.
    assert (Hlen1 : length examples1 = length examples) by apply length_insert.
    destruct (checkpoint_cases (S regraded_count mod 5 =? 0)%nat file_path
                (with_examples data examples1) w1) as (_ & _ & Hother & Hcases).
    destruct (if (S regraded_count mod 5 =? 0)%nat then _ else _) as [saved w2].
    cbn [fst snd] in Hother, Hcases.
    destruct Hcases as [(-> & _ & ->)|[(-> & _ & _ & Ht2 & Hfile2)|(-> & _ & _ & Ht2 & Hfile2)]].
    + (* no save is due *)
      destruct (IH examples1 (S regraded_count) (sleep 500 w1))
        as (new & Hr & Ht & Hp & Hf & Hfile & Herr).
      unfold in_range in Hp. rewrite Hlen1 in Hp.
      exists (new1 ++ [EvSleep 500] ++ new).
      split; [by eapply regraded_from_step|].
      split; [rewrite Ht; cbn [sleep emit w_trace]; by rewrite Ht1, <- !app_assoc|].
      rewrite !posts_app, !write_errors_app, Hq1.
      cbn [app posts write_errors List.filter is_post is_write_error].
      split; [rewrite length_app; fold (posts new); lia|].
      split; [intros p Hp'; rewrite Hf by done; cbn [sleep emit w_fs]; by rewrite Hf1|].
      split; [|exact Herr].
      intros Hq. destruct (Hfile Hq) as [Hfile'|(e & He & Hfile')].
      * left. rewrite Hfile'. cbn [sleep emit w_fs]. by rewrite Hf1.
      * right. exists e. split; [by eapply regraded_from_step|done].
    + (* the save is written *)
      destruct (IH examples1 (S regraded_count) (sleep 500 w2))
        as (new & Hr & Ht & Hp & Hf & Hfile & Herr).
      unfold in_range in Hp. rewrite Hlen1 in Hp.
      exists (new1 ++ [EvWrite file_path; EvSleep 500] ++ new).
      split; [by eapply regraded_from_step|].
      split; [rewrite Ht; cbn [sleep emit w_trace]; by rewrite Ht2, Ht1, <- !app_assoc|].
      rewrite !posts_app, !write_errors_app, Hq1.
      cbn [app posts write_errors List.filter is_post is_write_error].
      split; [rewrite length_app; fold (posts new); lia|].
      split; [intros p Hp'; rewrite Hf by done; cbn [sleep emit w_fs];
              rewrite Hother by done; by rewrite Hf1|].
      split; [|exact Herr].
      intros Hq. right. destruct (Hfile Hq) as [Hfile'|(e & He & Hfile')].
      * exists examples1. split; [done|]. rewrite Hfile'. cbn [sleep emit w_fs].
        by rewrite Hfile2.
      * exists e. split; [by eapply regraded_from_step|done].
    + (* the save fails *)
      exists (new1 ++ [EvWriteError file_path]). cbn [fst snd].
      split; [done|]. split; [by rewrite Ht2, Ht1, <- !app_assoc|].
      rewrite !posts_app, !write_errors_app, Hq1.
      cbn [app posts write_errors List.filter is_post is_write_error].
      split; [rewrite length_app; simpl; lia|].
      split; [intros p Hp'; rewrite Hother by done; by rewrite Hf1|].
      split; [done|by right].
Qed.

End ReGradingLoop.

(** ** The file of the regrading *)

Section ReGradingFrame.

Variable isspace : N -> bool.
Variable json_loads : pystr -> option pyval.
Variable float_of_str : pystr -> option float.
Variable strftime : N -> pystr.
Variable with_suffix : pystr -> pystr -> pystr.
Variable re_search : pystr -> pystr -> option pystr.
Variable max_retries : nat.
Variable backup : bool.

Local Abbreviation attempt_loop :=
  (ReGradingSystem.attempt_loop isspace json_loads float_of_str re_search max_retries).
Local Abbreviation call_teacher_api :=
  (ReGradingSystem.call_teacher_api isspace json_loads float_of_str re_search max_retries).
Local Abbreviation regrade_question :=
  (ReGradingSystem.regrade_question isspace json_loads float_of_str strftime re_search
     max_retries).
Local Abbreviation regrade_loop :=
  (ReGradingSystem.regrade_loop isspace json_loads float_of_str strftime re_search
     max_retries).
Local Abbreviation process_file :=
  (ReGradingSystem.process_file isspace json_loads float_of_str strftime with_suffix
     re_search max_retries backup).

Lemma in_range_length (zero_indices : list nat) (exs : list pyval) :
  (length (in_range zero_indices exs) <= length zero_indices)%nat.
Proof. apply List.filter_length_le. Qed.

Lemma dict_get_example (data : pydict) (exs : list pyval) :
  dict_get data k_example (PList []) = PList exs -> exs <> [] ->
  data !! k_example = Some (PList exs).
Proof.
  unfold dict_get. destruct (data !! k_example); [by intros ->|].
  intros [= <-]. done.
Qed.

(** X21.  Whatever the grader replies, and whether or not the pass over
    the file ends normally, at most [max_retries] requests are sent for
    each flagged index that is a position of the list, none for the
    others, and the other existing files are left as they were.  The
    file holds afterwards the document with a list of records of the
    same length, in which the positions that were not flagged hold what
    they held and a regraded record differs from the one it replaces in
    the three grading fields only; unless a save of the file failed,
    which ends the pass with [False] and leaves the file truncated. *)
Theorem regrading_keeps_the_other_records (file_path : pystr)
    (zero_indices : list nat) (w : world) (data : pydict) (exs : list pyval) :
  read_json file_path w = Some (PDict data) ->
  data !! k_example = Some (PList exs) ->
  let w' := (process_file file_path zero_indices w).2 in
  exists new,
    w_trace w' = w_trace w ++ new
    /\ (length (posts new) <= max_retries * length (in_range zero_indices exs))%nat
    /\ (forall p, p <> file_path -> is_Some (w_fs w !! p) -> w_fs w' !! p = w_fs w !! p)
    /\ ((exists exs',
           read_json file_path w' = Some (PDict (<[k_example := PList exs']> data))
           /\ regraded_from zero_indices exs exs')
        \/ (read_json file_path w' = None
            /\ (process_file file_path zero_indices w).1 = false
            /\ EvWriteError file_path ∈ new)).
Proof.
  intros Hread Hexs. cbv zeta. unfold ReGradingSystem.process_file. rewrite Hread.
  unfold dict_get. rewrite Hexs.
  destruct (backup_file_spec backup with_suffix (u ".json.regrade_backup") file_path
              (PDict data) w) as (newb & Htb & Hpb & Hfb & Hcb).
  apply read_json_is_Some in Hread as Hfs.
  destruct (backup_file backup with_suffix (u ".json.regrade_backup") file_path
              (PDict data) w) as [saved w1].
  cbn [fst snd] in Htb, Hfb, Hcb.
  assert (Hfs1 : w_fs w1 !! file_path = Some (JsonFile (PDict data)))
    by (by rewrite Hfb; [|rewrite Hfs]).
  destruct Hcb as [[-> Hqb]|(-> & -> & _)].
  2: { exists [EvWriteError (with_suffix file_path (u ".json.regrade_backup"))].
       cbn [fst snd]. split; [done|]. split; [simpl; lia|].
       split; [intros p _ Hp'; by apply Hfb|].
       left. exists exs. split; [|apply regraded_from_refl].
       unfold read_json. rewrite Hfs1. by rewrite insert_id. }
  destruct (regrade_loop_spec isspace json_loads float_of_str strftime re_search
              max_retries file_path data zero_indices exs 0%nat w1)
    as (new & Hr & Ht & Hp & Hf & Hfile & Herr).
  destruct (regrade_loop file_path data exs zero_indices 0 w1) as [[ok exs'] w2].
  cbn [fst snd] in *.
  assert (Hposts : forall ev, posts ev = [] ->
            (length (posts (newb ++ new ++ ev))
             <= max_retries * length (in_range zero_indices exs))%nat).
  { intros ev Hev. rewrite !posts_app, Hpb, Hev, app_nil_r. done. }
  assert (Hother : forall p, p <> file_path -> is_Some (w_fs w !! p) ->
            w_fs w2 !! p = w_fs w !! p).
  { intros p Hne Hp'. rewrite Hf by done. by apply Hfb. }
  destruct ok.
  - rewrite (with_examples_present _ _ _ Hexs).
    destruct (write_json_cases file_path (PDict (<[k_example := PList exs']> data)) w2)
      as [[He ->]|[He ->]]; cbn [fst snd w_trace w_fs].
    + exists (newb ++ new ++ [EvWrite file_path]). rewrite Ht, Htb, <- !app_assoc.
      split; [done|]. split; [by apply Hposts|]. split.
      { intros p Hne Hp'. rewrite lookup_insert_ne by done. by apply Hother. }
      left. exists exs'. split; [|done].
      unfold read_json. cbn [w_fs]. by rewrite lookup_insert_eq.
    + exists (newb ++ new ++ [EvWriteError file_path]). rewrite Ht, Htb, <- !app_assoc.
      split; [done|]. split; [by apply Hposts|]. split.
      { intros p Hne Hp'. rewrite lookup_insert_ne by done. by apply Hother. }
      right. split; [unfold read_json; cbn [w_fs]; by rewrite lookup_insert_eq|].
      split; [done|]. rewrite !elem_of_app. right. right. by left.
  - exists (newb ++ new). cbn [fst snd]. rewrite Ht, Htb, <- !app_assoc.
    split; [done|]. split.
    { specialize (Hposts [] eq_refl). by rewrite app_nil_r in Hposts. }
    split; [done|].
    destruct Herr as [Hq|(Hq & _ & Hlost)].
    + left. destruct (Hfile Hq) as [Hfile'|(e & He & Hfile')].
      * exists exs. split; [|apply regraded_from_refl].
        unfold read_json. rewrite Hfile', Hfs1. by rewrite insert_id.
      * exists e. split; [|done].
        unfold read_json. by rewrite Hfile', (with_examples_present _ _ _ Hexs).
    + right. split; [unfold read_json; by rewrite Hlost|]. split; [done|].
      apply elem_of_app. right. apply write_errors_elem. rewrite Hq. by left.
Qed.

(** Whatever the file holds: what exists elsewhere stays, and no flagged
    index costs more than [max_retries] requests. *)
Lemma process_file_frame (file_path : pystr) (zero_indices : list nat) (w : world) :
  (forall p, is_Some (w_fs w !! p) ->
     is_Some (w_fs (process_file file_path zero_indices w).2 !! p)
     /\ (p <> file_path ->
           w_fs (process_file file_path zero_indices w).2 !! p = w_fs w !! p))
  /\ exists new,
       w_trace (process_file file_path zero_indices w).2 = w_trace w ++ new
       /\ (length (posts new) <= max_retries * length zero_indices)%nat.
Proof.
  unfold ReGradingSystem.process_file.
  destruct (read_json file_path w) as [[| | | | | |data]|] eqn:Hread;
    try (split; [done|exists []; rewrite app_nil_r; split; [done|simpl; lia]]).
  destruct (backup_file_spec backup with_suffix (u ".json.regrade_backup") file_path
              (PDict data) w) as (newb & Htb & Hpb & Hfb & _).
  destruct (backup_file backup with_suffix (u ".json.regrade_backup") file_path
              (PDict data) w) as [saved w1].
  cbn [fst snd] in Htb, Hfb.
  assert (Hkeep : forall b : bool,
    (forall p, is_Some (w_fs w !! p) ->
       is_Some (w_fs (b, w1).2 !! p) /\ (p <> file_path -> w_fs (b, w1).2 !! p = w_fs w !! p))
    /\ exists new, w_trace (b, w1).2 = w_trace w ++ new
                   /\ (length (posts new) <= max_retries * length zero_indices)%nat).
  { intros b. cbn [snd]. split.
    - intros p Hp. by rewrite (Hfb p Hp).
    - exists newb. split; [done|]. rewrite Hpb. simpl. lia. }
  assert (Hsave : forall d,
    (forall p, is_Some (w_fs w !! p) ->
       is_Some (w_fs (write_json file_path d w1).2 !! p)
       /\ (p <> file_path -> w_fs (write_json file_path d w1).2 !! p = w_fs w !! p))
    /\ exists new, w_trace (write_json file_path d w1).2 = w_trace w ++ new
                   /\ (length (posts new) <= max_retries * length zero_indices)%nat).
  { intros d. split.
    - intros p Hp. split.
      + apply w_fs_write_is_Some. by rewrite (Hfb p Hp).
      + intros Hne. rewrite w_fs_write_ne by done. by apply Hfb.
    - destruct (write_json_cases file_path d w1) as [[He ->]|[He ->]]; cbn [snd w_trace].
      + exists (newb ++ [EvWrite file_path]). rewrite Htb, <- app_assoc. split; [done|].
        rewrite posts_app, Hpb. simpl. lia.
      + exists (newb ++ [EvWriteError file_path]). rewrite Htb, <- app_assoc. split; [done|].
        rewrite posts_app, Hpb. simpl. lia. }
  destruct saved; [|apply Hkeep].
  destruct (dict_get data k_example (PList [])) as [| | | |s|exs|d] eqn:Hexs.
  1-4: destruct (length zero_indices =? 0)%nat; [apply Hsave|apply Hkeep].
  - destruct (forallb _ _); [apply Hsave|apply Hkeep].
  - destruct (regrade_loop_spec isspace json_loads float_of_str strftime re_search
                max_retries file_path data zero_indices exs 0%nat w1)
      as (new & Hr & Ht & Hp & Hf & Hfile & Herr).
    pose proof (in_range_length zero_indices exs) as Hle.
    destruct (regrade_loop file_path data exs zero_indices 0 w1) as [[ok exs'] w2].
    cbn [fst snd] in *.
    assert (Hs2 : forall p, is_Some (w_fs w !! p) ->
              is_Some (w_fs w2 !! p) /\ (p <> file_path -> w_fs w2 !! p = w_fs w !! p)).
    { intros p Hp'. destruct (decide (p = file_path)) as [->|Hne].
      - split; [|done].
        destruct Herr as [Hq|(_ & _ & ->)]; [|by eexists].
        destruct (Hfile Hq) as [->|(? & _ & ->)]; [by rewrite (Hfb _ Hp')|by eexists].
      - rewrite Hf by done. by rewrite (Hfb p Hp'). }
    assert (Hbound : forall ev, posts ev = [] ->
              (length (posts (newb ++ new ++ ev)) <= max_retries * length zero_indices)%nat).
    { intros ev Hev. rewrite !posts_app, Hpb, Hev, app_nil_r. simpl. nia. }
    destruct ok; cbn [snd].
    + split.
      * intros p Hp'. split.
        -- apply w_fs_write_is_Some. by apply Hs2.
        -- intros Hne. rewrite w_fs_write_ne by done. by apply Hs2.
      * destruct (write_json_cases file_path (with_examples data exs') w2)
          as [[He ->]|[He ->]]; cbn [snd w_trace].
        -- exists (newb ++ new ++ [EvWrite file_path]). rewrite Ht, Htb, <- !app_assoc.
           split; [done|]. by apply Hbound.
        -- exists (newb ++ new ++ [EvWriteError file_path]). rewrite Ht, Htb, <- !app_assoc.
           split; [done|]. by apply Hbound.
    + split; [done|]. exists (newb ++ new). rewrite Ht, Htb, <- !app_assoc.
      split; [done|]. specialize (Hbound [] eq_refl). by rewrite app_nil_r in Hbound.
  - destruct (forallb _ _); [apply Hsave|apply Hkeep].
Qed.

(** *** Without a connection *)

Lemma attempt_loop_offline (attempts : list nat) : forall (request : prompt) (w : world),
  w_remote w = [] ->
  (attempt_loop attempts request w).1 = None
  /\ w_remote (attempt_loop attempts request w).2 = []
  /\ w_fs (attempt_loop attempts request w).2 = w_fs w
  /\ exists new,
       w_trace (attempt_loop attempts request w).2 = w_trace w ++ new
       /\ posts new = repeat (EvPost request) (length attempts)
       /\ writes new = [].
Proof.
  induction attempts as [|attempt rest IH]; intros request w Hoff.
  - simpl. repeat split; auto. exists []. by rewrite app_nil_r.
  - cbn [ReGradingSystem.attempt_loop]. unfold post. rewrite Hoff.
    set (w1 := emit (EvPost request) w).
    set (w2 := if (attempt <? max_retries - 1)%nat then sleep (backoff attempt) w1 else w1).
    assert (Hw2 : w_remote w2 = [] /\ w_fs w2 = w_fs w
                  /\ exists ev, w_trace w2 = w_trace w ++ EvPost request :: ev
                                /\ posts ev = [] /\ writes ev = []).
    { unfold w2. destruct (_ <? _)%nat; cbn [sleep emit w_remote w_fs w_trace]; unfold w1.
      - split; [done|]. split; [done|]. exists [EvSleep (backoff attempt)].
        cbn [emit w_trace]. by rewrite <- app_assoc.
      - split; [done|]. split; [done|]. by exists []. }
    destruct Hw2 as (Hr2 & Hf2 & ev & Ht2 & Hp2 & Hwr2).
    destruct (IH request w2 Hr2) as (H1 & H2 & H3 & new & H4 & H5 & H6).
    split; [done|]. split; [done|]. split; [by rewrite H3|].
    exists (EvPost request :: ev ++ new). rewrite H4, Ht2, <- app_assoc. split; [done|].
    change (EvPost request :: ev ++ new) with ([EvPost request] ++ ev ++ new).
    rewrite !posts_app, !writes_app, Hp2, Hwr2, H5, H6. done.
Qed.

Lemma regrade_loop_offline (file_path : pystr) (data : pydict) (zero_indices : list nat) :
  forall (examples : list pyval) (regraded_count : nat) (w : world),
  w_remote w = [] ->
  Forall regradable examples ->
  (regrade_loop file_path data examples zero_indices regraded_count w).1.2 = examples
  /\ w_remote (regrade_loop file_path data examples zero_indices regraded_count w).2 = []
  /\ (encodable (with_examples data examples) = true ->
        (regrade_loop file_path data examples zero_indices regraded_count w).1.1 = true
        /\ (w_fs (regrade_loop file_path data examples zero_indices regraded_count w).2
            = w_fs w
            \/ w_fs (regrade_loop file_path data examples zero_indices regraded_count w).2
               = <[file_path := JsonFile (with_examples data examples)]> (w_fs w))
        /\ exists new,
             w_trace (regrade_loop file_path data examples zero_indices regraded_count w).2
             = w_trace w ++ new
             /\ length (posts new)
                = (max_retries * length (in_range zero_indices examples))%nat).
Proof.
  induction zero_indices as [|idx rest IH]; intros examples regraded_count w Hoff Hall.
  - simpl. repeat split; auto. exists []. rewrite app_nil_r. split; [done|simpl; lia].
  - cbn [ReGradingSystem.regrade_loop]. unfold in_range. cbn [List.filter].
    destruct (examples !! idx) as [ex|] eqn:Hex.
    2: { apply lookup_ge_None in Hex.
         assert ((idx <? length examples)%nat = false) as -> by (apply Nat.ltb_ge; lia).
         by apply IH. }
    apply lookup_lt_Some in Hex as Hlt.
    assert ((idx <? length examples)%nat = true) as -> by (apply Nat.ltb_lt; lia).
    destruct (Forall_lookup_1 _ _ _ _ Hall Hex) as (q & -> & Hq).
    unfold ReGradingSystem.regrade_question, ReGradingSystem.call_teacher_api.
    destruct (attempt_loop_offline (seq 0 max_retries) (construct_grading_prompt q) w Hoff)
      as (Hnone & Hr1 & Hf1 & new1 & Ht1 & Hp1 & Hw1).
    destruct (attempt_loop (seq 0 max_retries) (construct_grading_prompt q) w)
      as [grading_result w1]. cbn [fst snd] in *. subst grading_result.
    rewrite list_insert_id by done.
    assert (Himp : ReGradingSystem.improved None (dict_get q k_teacher_score (PFloat 0))
                   = Some false).
    { unfold dict_get. by destruct (q !! k_teacher_score) as [[]|]. }
    rewrite Himp.
    destruct (checkpoint_cases (S regraded_count mod 5 =? 0)%nat file_path
                (with_examples data examples) w1) as (Hr2 & _ & Hother & Hcases).
    destruct (if (S regraded_count mod 5 =? 0)%nat then _ else _) as [saved w2].
    cbn [fst snd] in Hr2, Hother, Hcases.
    destruct Hcases as [(-> & _ & ->)|[(-> & _ & _ & Ht2 & Hfile2)|(-> & _ & Henc & _)]].
    + destruct (IH examples (S regraded_count) (sleep 500 w1)) as (He & Hr & Hrest);
        [done|done|].
      split; [done|]. split; [done|]. intros Henc.
      destruct (Hrest Henc) as (Hok & Hfs & new & Ht & Hp).
      split; [done|]. split; [cbn [sleep emit w_fs] in Hfs; by rewrite Hf1 in Hfs|].
      exists (new1 ++ [EvSleep 500] ++ new).
      split; [rewrite Ht; cbn [sleep emit w_trace]; by rewrite Ht1, <- !app_assoc|].
      rewrite !posts_app, Hp1, !length_app, repeat_length, length_seq.
      cbn [posts List.filter is_post length]. fold (posts new). rewrite Hp.
      unfold in_range. cbn [length]. lia.
    + destruct (IH examples (S regraded_count) (sleep 500 w2)) as (He & Hr & Hrest);
        [by rewrite <- Hr1, <- Hr2|done|].
      split; [done|]. split; [done|]. intros Henc.
      destruct (Hrest Henc) as (Hok & Hfs & new & Ht & Hp).
      split; [done|]. split.
      { right. cbn [sleep emit w_fs] in Hfs.
        assert (Hw2 : w_fs w2 = <[file_path := JsonFile (with_examples data examples)]> (w_fs w)).
        { apply map_eq. intros p. destruct (decide (p = file_path)) as [->|Hne].
          - by rewrite Hfile2, lookup_insert_eq.
          - rewrite lookup_insert_ne by done. rewrite Hother by done. by rewrite Hf1. }
        destruct Hfs as [->| ->]; [done|]. by rewrite Hw2, insert_insert_eq. }
      exists (new1 ++ [EvWrite file_path; EvSleep 500] ++ new).
      split; [rewrite Ht; cbn [sleep emit w_trace]; by rewrite Ht2, Ht1, <- !app_assoc|].
      rewrite !posts_app, Hp1, !length_app, repeat_length, length_seq.
      cbn [posts List.filter is_post length]. fold (posts new). rewrite Hp.
      unfold in_range. cbn [length]. lia.
    + cbn [fst snd]. split; [done|]. split; [by rewrite Hr2|]. intros Htrue. congruence.
Qed.

(** X22.  Without a connection (no reply is left), and over records of
    the data model: the pass returns true exactly when the document can
    be written back, that is when it holds no surrogate; it then used
    all of [max_retries] requests for each flagged position and left the
    document of the file exactly as it was, so that the next scan
    selects the same records. *)
Theorem regrading_offline_keeps_every_record (file_path : pystr)
    (zero_indices : list nat) (w : world) (data : pydict) (exs : list pyval) :
  w_remote w = [] ->
  read_json file_path w = Some (PDict data) ->
  data !! k_example = Some (PList exs) ->
  Forall regradable exs ->
  let w' := (process_file file_path zero_indices w).2 in
  (process_file file_path zero_indices w).1 = encodable (PDict data)
  /\ (encodable (PDict data) = true ->
        read_json file_path w' = Some (PDict data)
        /\ file_entry float_of_str w' file_path = file_entry float_of_str w file_path
        /\ exists new,
             w_trace w' = w_trace w ++ new
             /\ length (posts new)
                = (max_retries * length (in_range zero_indices exs))%nat).
Proof.
  intros Hoff Hread Hexs Hall. cbv zeta.
  unfold ReGradingSystem.process_file. rewrite Hread. unfold dict_get. rewrite Hexs.
  assert (Hsame : with_examples data exs = PDict data).
  { rewrite (with_examples_present _ _ _ Hexs). by rewrite insert_id. }
  destruct (backup_file_spec backup with_suffix (u ".json.regrade_backup") file_path
              (PDict data) w) as (newb & Htb & Hpb & Hfb & Hcb).
  assert (Hoff1 : w_remote (backup_file backup with_suffix (u ".json.regrade_backup")
                              file_path (PDict data) w).2 = []).
  { unfold backup_file. destruct backup; [|done].
    destruct (w_fs w !! _); [done|]. unfold write_json. by destruct (encodable _). }
  assert (Hbenc : (backup_file backup with_suffix (u ".json.regrade_backup")
                     file_path (PDict data) w).1 = false -> encodable (PDict data) = false).
  { unfold backup_file. destruct backup; [|done].
    destruct (w_fs w !! _); [done|]. by rewrite write_json_ok. }
  destruct (backup_file backup with_suffix (u ".json.regrade_backup") file_path
              (PDict data) w) as [saved w1].
  cbn [fst snd] in Htb, Hfb, Hcb, Hoff1, Hbenc.
  destruct saved.
  2: { rewrite (Hbenc eq_refl). split; [done|]. intros H. discriminate H. }
  destruct (regrade_loop_offline file_path data zero_indices exs 0%nat w1 Hoff1 Hall)
    as (He & _ & Hrest).
  rewrite Hsame in Hrest.
  destruct (regrade_loop file_path data exs zero_indices 0 w1) as [[ok exs'] w2].
  cbn [fst snd] in *. subst exs'. rewrite Hsame.
  destruct (encodable (PDict data)) eqn:Henc.
  - destruct (Hrest eq_refl) as (-> & _ & new & Ht & Hp).
    assert (Hw : write_json file_path (PDict data) w2
                 = (true, World (<[file_path := JsonFile (PDict data)]> (w_fs w2))
                            (w_remote w2) (w_clock w2) (w_trace w2 ++ [EvWrite file_path])))
      by (destruct (write_json_cases file_path (PDict data) w2) as [[_ ->]|[? _]];
          [done|congruence]).
    rewrite Hw. cbn [fst snd]. split; [done|]. intros _.
    assert (Hread' : read_json file_path
                       (World (<[file_path := JsonFile (PDict data)]> (w_fs w2))
                          (w_remote w2) (w_clock w2) (w_trace w2 ++ [EvWrite file_path]))
                     = Some (PDict data))
      by (unfold read_json; cbn [w_fs]; by rewrite lookup_insert_eq).
    split; [done|]. split.
    + unfold file_entry. by rewrite Hread', Hread.
    + exists (newb ++ new ++ [EvWrite file_path]).
      cbn [w_trace]. rewrite Ht, Htb, <- !app_assoc. split; [done|].
      rewrite !posts_app, Hpb, !length_app, Hp. simpl. lia.
  - split; [|intros H; discriminate H].
    destruct ok; [|done]. rewrite write_json_ok. done.
Qed.

End ReGradingFrame.

(** ** The scan, the statistics and the run of the regrading *)

Section ScanIsolation.

Variable float_of_str : pystr -> option float.

Local Abbreviation is_zero_score := (ReGradingSystem.is_zero_score float_of_str).
Local Abbreviation zero_indices_from := (ReGradingSystem.zero_indices_from float_of_str).
Local Abbreviation file_zero_indices := (ReGradingSystem.file_zero_indices float_of_str).
Local Abbreviation scan := (ReGradingSystem.scan_and_collect_zero_scores float_of_str).
Local Abbreviation file_entry := (file_entry float_of_str).
Local Abbreviation count_zero := (ReGradingSystem.count_zero float_of_str).
Local Abbreviation file_statistics := (ReGradingSystem.file_statistics float_of_str).
Local Abbreviation print_final_statistics :=
  (ReGradingSystem.print_final_statistics float_of_str).

Lemma scan_lookup (listing : list (list pystr)) (w : world) (p : pystr) :
  scan (Some listing) w !! p
  = if decide (p ∈ concat listing) then file_entry w p else None.
Proof.
  unfold ReGradingSystem.scan_and_collect_zero_scores.
  rewrite scan_dirs_lookup, lookup_empty.
  destruct (decide _); [|done]. by destruct (file_entry w p).
Qed.

Lemma file_entry_reads (w w' : world) (p : pystr) :
  read_json p w' = read_json p w -> file_entry w' p = file_entry w p.
Proof. unfold file_entry. by intros ->. Qed.

(** X23.  The scan reads each file alone: the entry of a listed file is
    the one a scan of that file alone gives, a file that is not listed
    or cannot be read has no entry, and the map depends on the documents
    of the listed files only.  Without a results directory the map is
    empty. *)
Theorem scan_reads_each_file_alone (listing : list (list pystr)) (w : world) :
  (forall p, p ∈ concat listing ->
     scan (Some listing) w !! p = scan (Some [[p]]) w !! p)
  /\ (forall p, p ∉ concat listing -> scan (Some listing) w !! p = None)
  /\ (forall p, read_json p w = None -> scan (Some listing) w !! p = None)
  /\ (forall w', (forall p, p ∈ concat listing -> read_json p w' = read_json p w) ->
        scan (Some listing) w' = scan (Some listing) w)
  /\ scan None w = ∅.
Proof.
  split; [|split; [|split; [|split; [|done]]]].
  - intros p Hp. rewrite !scan_lookup. rewrite decide_True by done.
    rewrite decide_True; [done|]. simpl. left.
  - intros p Hp. rewrite scan_lookup. by rewrite decide_False.
  - intros p Hp. rewrite scan_lookup. destruct (decide _); [|done].
    unfold file_entry. by rewrite Hp.
  - intros w' Hsame. apply map_eq. intros p. rewrite !scan_lookup.
    destruct (decide _); [|done]. apply file_entry_reads. by apply Hsame.
Qed.

Lemma count_zero_indices (exs : list pyval) : forall idx l,
  zero_indices_from idx exs = Some l -> count_zero exs = length l.
Proof.
  induction exs as [|ex exs IH]; intros idx l; simpl.
  - by intros [= <-].
  - destruct (is_zero_score ex) as [b|]; [|done]. simpl.
    destruct (zero_indices_from (S idx) exs) as [l'|] eqn:E; [|done]. simpl.
    intros [= <-]. rewrite (IH _ _ E). by destruct b.
Qed.

Lemma file_statistics_zero (w : world) (f : pystr) :
  (forall data, read_json f w = Some data -> is_Some (file_zero_indices data)) ->
  (file_statistics w f).2 = length (default [] (file_entry w f)).
Proof.
  intros Hok. unfold ReGradingSystem.file_statistics, file_entry.
  destruct (read_json f w) as [data|]; [|done].
  destruct (Hok data eq_refl) as [l Hl]. rewrite Hl.
  assert (Hlen : length (default [] (match l with
                                     | [] => None
                                     | idx :: rest => Some (idx :: rest)
                                     end)) = length l) by (by destruct l).
  rewrite Hlen. clear Hlen.
  destruct data as [| | | | | |d]; try done. simpl in Hl.
  destruct (dict_get d k_example (PList [])) as [| | | |s|exs|keys]; try done.
  - destruct (length s =? 0)%nat; [|done]. by injection Hl as <-.
  - cbn [snd]. by apply (count_zero_indices exs 0%nat).
  - destruct (size keys =? 0)%nat; [|done]. by injection Hl as <-.
Qed.

Lemma statistics_fold (w : world) (files : list pystr) : forall (acc : nat * nat),
  (foldl (fun acc json_file =>
            let '(questions, zero) := file_statistics w json_file in
            ((acc.1 + questions)%nat, (acc.2 + zero)%nat)) acc files).2
  = (acc.2 + sum_list (map (fun f => (file_statistics w f).2) files))%nat.
Proof.
  induction files as [|f files IH]; intros acc; [simpl; lia|].
  cbn [foldl map sum_list sum_list_with]. rewrite IH.
  destruct (file_statistics w f). simpl. lia.
Qed.

(** X24.  When the scan gets through every listed file it can read
    without an exception (a file it cannot read counts for nothing on
    either side), the number of zero scores in the last statistics is
    the number of indices the scan holds for the listed files. *)
Theorem final_zero_count_agrees_with_scan (listing : list (list pystr)) (w : world) :
  (forall f data, f ∈ concat listing -> read_json f w = Some data ->
     is_Some (file_zero_indices data)) ->
  exists questions zero,
    print_final_statistics (Some listing) w = Some (questions, zero)
    /\ zero = sum_list (map (fun f => length (default [] (scan (Some listing) w !! f)))
                          (concat listing)).
Proof.
  intros Hok. unfold ReGradingSystem.print_final_statistics.
  eexists _, _. split; [by rewrite <- surjective_pairing|].
  rewrite statistics_fold. cbn [snd]. rewrite Nat.add_0_l. f_equal. apply map_ext_in.
  intros f Hf%list_elem_of_In. cbv beta. rewrite scan_lookup, decide_True by done.
  apply file_statistics_zero. intros data. by apply Hok.
Qed.

End ScanIsolation.

Section OrderFacts.

Lemma insertion_order_spec (m : gmap pystr (list nat)) (files : list pystr) :
  forall seen : list pystr,
  NoDup (map fst (ReGradingSystem.insertion_order m files seen))
  /\ forall k l, (k, l) ∈ ReGradingSystem.insertion_order m files seen
       <-> k ∈ files /\ (k ∉ seen) /\ m !! k = Some l.
Proof.
  induction files as [|f files IH]; intros seen; cbn [ReGradingSystem.insertion_order].
  - split; [constructor|]. intros k l. split; [by intros ?%elem_of_nil|].
    by intros [?%elem_of_nil _].
  - destruct (m !! f) as [zero_indices|] eqn:Hf.
    + case_bool_decide as Hseen.
      * destruct (IH seen) as [Hnd Hmem]. split; [done|].
        intros k l. rewrite Hmem, elem_of_cons. split; [tauto|].
        intros ([->|?] & ? & ?); tauto.
      * destruct (IH (f :: seen)) as [Hnd Hmem]. split.
        -- cbn [map fst]. constructor; [|done].
           intros (x & Hx & Hin)%list_elem_of_fmap. destruct x as [k l]. simpl in Hx. subst k.
           apply Hmem in Hin as (_ & Hn & _). apply Hn. by left.
        -- intros k l. rewrite elem_of_cons, Hmem, not_elem_of_cons, elem_of_cons. split.
           ++ intros [[= -> ->]|(? & [? ?] & ?)]; [by auto|tauto].
           ++ intros ([->|?] & ? & Hl); [left; congruence|].
              destruct (decide (k = f)) as [->|]; [left; congruence|tauto].
    + destruct (IH seen) as [Hnd Hmem]. split; [done|].
      intros k l. rewrite Hmem, elem_of_cons. split; [tauto|].
      intros ([->|?] & ? & ?); [congruence|tauto].
Qed.

Lemma insertion_order_perm (m : gmap pystr (list nat)) (files : list pystr) :
  (forall k, is_Some (m !! k) -> k ∈ files) ->
  ReGradingSystem.insertion_order m files [] ≡ₚ map_to_list m.
Proof.
  intros Hdom. destruct (insertion_order_spec m files []) as [Hnd Hmem].
  apply NoDup_Permutation.
  - by apply NoDup_fmap_1 in Hnd.
  - apply NoDup_map_to_list.
  - intros [k l]. rewrite Hmem, elem_of_map_to_list. split; [tauto|].
    intros Hl. split; [apply Hdom; by eexists|]. split; [|done]. by intros ?%elem_of_nil.
Qed.

End OrderFacts.

Section ReGradingRun.

Variable isspace : N -> bool.
Variable json_loads : pystr -> option pyval.
Variable float_of_str : pystr -> option float.
Variable strftime : N -> pystr.
Variable with_suffix : pystr -> pystr -> pystr.
Variable re_search : pystr -> pystr -> option pystr.
Variable max_retries : nat.
Variable backup : bool.

Local Abbreviation process_file :=
  (ReGradingSystem.process_file isspace json_loads float_of_str strftime with_suffix
     re_search max_retries backup).
Local Abbreviation run_file :=
  (ReGradingSystem.run_file isspace json_loads float_of_str strftime with_suffix
     re_search max_retries backup).
Local Abbreviation run :=
  (ReGradingSystem.run isspace json_loads float_of_str strftime with_suffix
     re_search max_retries backup).
Local Abbreviation scan := (ReGradingSystem.scan_and_collect_zero_scores float_of_str).

Lemma flagged_perm (l l' : list (pystr * list nat)) : l ≡ₚ l' -> flagged l = flagged l'.
Proof.
  induction 1 as [|x l l' _ IH|x y l|l l' l'' _ IH1 _ IH2]; simpl; lia.
Qed.

Lemma run_files_steps (entries : list (pystr * list nat)) :
  forall (s f : nat) (w : world),
  exists s' f' new,
    (foldl run_file (s, f, w) entries).1 = (s', f')
    /\ (s' + f' = s + f + length entries)%nat
    /\ w_trace (foldl run_file (s, f, w) entries).2 = w_trace w ++ new
    /\ (length (posts new) <= max_retries * flagged entries)%nat
    /\ (forall p, is_Some (w_fs w !! p) ->
          is_Some (w_fs (foldl run_file (s, f, w) entries).2 !! p)
          /\ (p ∉ map fst entries ->
                w_fs (foldl run_file (s, f, w) entries).2 !! p = w_fs w !! p)).
Proof.
  induction entries as [|e entries IH]; intros s f w.
  - exists s, f, []. simpl. rewrite app_nil_r. repeat split; auto; lia.
  - cbn [foldl]. unfold ReGradingSystem.run_file at 2 4 6 8.
    destruct (process_file_frame isspace json_loads float_of_str strftime with_suffix
                re_search max_retries backup e.1 e.2 w)
      as (Hfs1 & new1 & Ht1 & Hp1).
    destruct (process_file e.1 e.2 w) as [success w1]. cbn [fst snd] in *.
    assert (Hnext : exists s1 f1,
      (if success then (S s, f, w1) else (s, S f, w1)) = (s1, f1, w1)
      /\ (s1 + f1 = S (s + f))%nat).
    { destruct success; eexists _, _; (split; [done|]); lia. }
    destruct Hnext as (s1 & f1 & -> & Hsum1).
    destruct (IH s1 f1 w1) as (s' & f' & new & He & Hsum & Ht & Hp & Hfs).
    exists s', f', (new1 ++ new). split; [done|]. split; [simpl; lia|].
    rewrite Ht, Ht1, <- app_assoc. split; [done|]. split.
    + rewrite posts_app, length_app. simpl. lia.
    + intros p Hp'. destruct (Hfs1 p Hp') as [Hs1 Hq1]. destruct (Hfs p Hs1) as [Hs2 Hq2].
      split; [done|]. cbn [map]. intros [Hne Hnotin]%not_elem_of_cons.
      rewrite Hq2 by done. by apply Hq1.
Qed.

(** X25.  [run] does nothing exactly when the scan finds no zero score.
    Otherwise every file of the map is processed once, as a success or
    as a failure; the number of records it reports is the number of
    flagged indices; it sends at most [max_retries] requests for each of
    them; and the existing files that have no entry in the map are left
    as they were. *)
Theorem regrading_run_effects (listing : option (list (list pystr))) (w : world) :
  let zero_score_map := scan listing w in
  let w' := (run listing w).2 in
  match (run listing w).1 with
  | None => zero_score_map = ∅ /\ w' = w
  | Some r =>
      zero_score_map <> ∅
      /\ (ReGradingSystem.success_count r + ReGradingSystem.fail_count r
          = size zero_score_map)%nat
      /\ ReGradingSystem.total_questions r = flagged (map_to_list zero_score_map)
      /\ exists new,
           w_trace w' = w_trace w ++ new
           /\ (length (posts new)
               <= max_retries * ReGradingSystem.total_questions r)%nat
  end
  /\ (forall p, is_Some (w_fs w !! p) -> zero_score_map !! p = None ->
        w_fs w' !! p = w_fs w !! p).
Proof.
  cbv zeta. unfold ReGradingSystem.run.
  set (m := scan listing w).
  destruct (size m =? 0)%nat eqn:Hsize.
  { split; [|done]. split; [|done]. apply map_size_empty_iff. by apply Nat.eqb_eq. }
  set (files := match listing with Some dirs => concat dirs | None => [] end).
  assert (Hdom : forall k, is_Some (m !! k) -> k ∈ files).
  { intros k [l Hl]. unfold m, files in *. destruct listing as [dirs|].
    - rewrite scan_lookup in Hl. by destruct (decide _).
    - unfold ReGradingSystem.scan_and_collect_zero_scores in Hl.
      by rewrite lookup_empty in Hl. }
  pose proof (insertion_order_perm m files Hdom) as Hperm.
  destruct (insertion_order_spec m files []) as [_ Hmem].
  set (entries := ReGradingSystem.insertion_order m files []) in *.
  destruct (run_files_steps entries 0%nat 0%nat w)
    as (s' & f' & new & He & Hsum & Ht & Hp & Hfs).
  destruct (foldl run_file (0%nat, 0%nat, w) entries) as [[sc fc] w'].
  cbn [fst snd] in *. injection He as -> ->.
  fold (flagged entries). cbn [ReGradingSystem.success_count ReGradingSystem.fail_count
    ReGradingSystem.total_questions].
  split; [split; [|split; [|split]]|].
  - intros Hempty. rewrite Hempty, map_size_empty in Hsize. done.
  - rewrite Hsum, Hperm, length_map_to_list. lia.
  - by apply flagged_perm.
  - by exists new.
  - intros p Hp' Hnone. apply (Hfs p Hp').
    intros (x & Hx & Hin)%list_elem_of_fmap. destruct x as [k l]. simpl in Hx. subst k.
    apply Hmem in Hin as (_ & _ & Hl). congruence.
Qed.

End ReGradingRun.

(** ** Verdicts *)

Section Verdicts.

Variable isspace : N -> bool.
Variable json_loads : pystr -> option pyval.
Variable float_of_str : pystr -> option float.
Variable strftime : N -> pystr.
Variable re_search : pystr -> pystr -> option pystr.
Variable max_retries : nat.

Local Abbreviation teacher_attempts :=
  (TeacherGradingSystem.attempt_loop isspace json_loads float_of_str max_retries).
Local Abbreviation teacher_call :=
  (TeacherGradingSystem.call_teacher_api isspace json_loads float_of_str max_retries).
Local Abbreviation teacher_parse_reply :=
  (TeacherGradingSystem.parse_reply isspace json_loads float_of_str).
Local Abbreviation regrade_attempts :=
  (ReGradingSystem.attempt_loop isspace json_loads float_of_str re_search max_retries).
Local Abbreviation regrade_call :=
  (ReGradingSystem.call_teacher_api isspace json_loads float_of_str re_search max_retries).
Local Abbreviation regrade_parse_reply :=
  (ReGradingSystem.parse_reply isspace json_loads float_of_str re_search).
Local Abbreviation regrade_question :=
  (ReGradingSystem.regrade_question isspace json_loads float_of_str strftime re_search
     max_retries).

Lemma teacher_loop_first_verdict (fails : list reply) :
  forall (a n : nat) (request : prompt) (w : world) (content : pystr) (rest : list reply)
         (v : verdict),
  (a + n = max_retries)%nat -> (length fails < n)%nat ->
  w_remote w = fails ++ Http 200 (Some content) :: rest ->
  Forall failed fails ->
  teacher_parse_reply content = Returned v ->
  (teacher_attempts (seq a n) request w).1 = Some v
  /\ w_remote (teacher_attempts (seq a n) request w).2 = rest
  /\ w_trace (teacher_attempts (seq a n) request w).2
     = w_trace w ++ backoff_steps request (seq a (length fails)) ++ [EvPost request].
Proof.
  induction fails as [|r fails IH]; intros a n request w content rest v Hmax Hlen Hrem Hfail Hparse.
  - destruct n as [|n]; [simpl in Hlen; lia|]. cbn [seq TeacherGradingSystem.attempt_loop].
    unfold post. rewrite Hrem. cbn [app]. rewrite Hparse. done.
  - destruct n as [|n]; [simpl in Hlen; lia|]. cbn [seq TeacherGradingSystem.attempt_loop].
    apply Forall_cons in Hfail as [Hr Hfail]. simpl in Hlen.
    unfold post. rewrite Hrem. cbn [app].
    assert (Hsleep : (a <? max_retries - 1)%nat = true) by (apply Nat.ltb_lt; lia).
    set (w1 := World (w_fs (emit (EvPost request) w))
                 (fails ++ Http 200 (Some content) :: rest)
                 (w_clock (emit (EvPost request) w))
                 (w_trace (emit (EvPost request) w))).
    assert (Hnext :
      (teacher_attempts (seq (S a) n) request (sleep (backoff a) w1)).1 = Some v
      /\ w_remote (teacher_attempts (seq (S a) n) request (sleep (backoff a) w1)).2 = rest
      /\ w_trace (teacher_attempts (seq (S a) n) request (sleep (backoff a) w1)).2
         = w_trace w ++ backoff_steps request (seq a (length (r :: fails)))
           ++ [EvPost request]).
    { destruct (IH (S a) n request (sleep (backoff a) w1) content rest v) as (H1 & H2 & H3);
        [lia|lia|done|done|done|].
      split; [done|]. split; [done|]. rewrite H3.
      cbn [sleep emit w_trace w1 length seq backoff_steps flat_map].
      by rewrite <- !app_assoc. }
    destruct r as [|status c]; rewrite ?Hsleep; [exact Hnext|].
    simpl in Hr. apply Z.eqb_neq in Hr. rewrite Hr. exact Hnext.
Qed.

Lemma regrade_loop_first_verdict (fails : list reply) :
  forall (a n : nat) (request : prompt) (w : world) (content : pystr) (rest : list reply)
         (v : verdict),
  (a + n = max_retries)%nat -> (length fails < n)%nat ->
  w_remote w = fails ++ Http 200 (Some content) :: rest ->
  Forall failed fails ->
  regrade_parse_reply content = Returned v ->
  (regrade_attempts (seq a n) request w).1 = Some v
  /\ w_remote (regrade_attempts (seq a n) request w).2 = rest
  /\ w_trace (regrade_attempts (seq a n) request w).2
     = w_trace w ++ backoff_steps request (seq a (length fails)) ++ [EvPost request].
Proof.
  induction fails as [|r fails IH]; intros a n request w content rest v Hmax Hlen Hrem Hfail Hparse.
  - destruct n as [|n]; [simpl in Hlen; lia|]. cbn [seq ReGradingSystem.attempt_loop].
    unfold post. rewrite Hrem. cbn [app]. rewrite Hparse. done.
  - destruct n as [|n]; [simpl in Hlen; lia|]. cbn [seq ReGradingSystem.attempt_loop].
    apply Forall_cons in Hfail as [Hr Hfail]. simpl in Hlen.
    unfold post. rewrite Hrem. cbn [app].
    assert (Hsleep : (a <? max_retries - 1)%nat = true) by (apply Nat.ltb_lt; lia).
    set (w1 := World (w_fs (emit (EvPost request) w))
                 (fails ++ Http 200 (Some content) :: rest)
                 (w_clock (emit (EvPost request) w))
                 (w_trace (emit (EvPost request) w))).
    assert (Hnext :
      (regrade_attempts (seq (S a) n) request (sleep (backoff a) w1)).1 = Some v
      /\ w_remote (regrade_attempts (seq (S a) n) request (sleep (backoff a) w1)).2 = rest
      /\ w_trace (regrade_attempts (seq (S a) n) request (sleep (backoff a) w1)).2
         = w_trace w ++ backoff_steps request (seq a (length (r :: fails)))
           ++ [EvPost request]).
    { destruct (IH (S a) n request (sleep (backoff a) w1) content rest v) as (H1 & H2 & H3);
        [lia|lia|done|done|done|].
      split; [done|]. split; [done|]. rewrite H3.
      cbn [sleep emit w_trace w1 length seq backoff_steps flat_map].
      by rewrite <- !app_assoc. }
    destruct r as [|status c]; rewrite ?Hsleep; [exact Hnext|].
    simpl in Hr. apply Z.eqb_neq in Hr. rewrite Hr. exact Hnext.
Qed.

(** X26.  For both graders: when the replies to the first attempts are
    network failures or statuses other than 200, fewer of them than
    [max_retries], and the next reply is a verdict, the call returns
    that verdict.  Each failed attempt was followed by a sleep of
    [2 ** attempt] seconds (1000 * 2 ^ attempt milliseconds: one second
    after the first, two after the second); nothing is sent after the
    verdict, and the replies that follow are left for the next call. *)
Theorem first_verdict_ends_the_call (fails rest : list reply) (content : pystr)
    (request : prompt) (w : world) :
  w_remote w = fails ++ Http 200 (Some content) :: rest ->
  Forall failed fails ->
  (length fails < max_retries)%nat ->
  let waited :=
    flat_map (fun attempt => [EvPost request; EvSleep (1000 * 2 ^ N.of_nat attempt)%N])
             (seq 0 (length fails)) in
  (forall v, teacher_parse_reply content = Returned v ->
     (teacher_call request w).1 = Some v
     /\ w_remote (teacher_call request w).2 = rest
     /\ w_trace (teacher_call request w).2 = w_trace w ++ waited ++ [EvPost request])
  /\ (forall v, regrade_parse_reply content = Returned v ->
        (regrade_call request w).1 = Some v
        /\ w_remote (regrade_call request w).2 = rest
        /\ w_trace (regrade_call request w).2 = w_trace w ++ waited ++ [EvPost request])
  /\ (forall attempt, (attempt < length fails)%nat ->
        waited !! (2 * attempt)%nat = Some (EvPost request)
        /\ waited !! S (2 * attempt) = Some (EvSleep (1000 * 2 ^ N.of_nat attempt)%N))
  /\ length waited = (2 * length fails)%nat.
Proof.
  intros Hrem Hfail Hlen. cbv zeta.
  change (flat_map (fun attempt => [EvPost request; EvSleep (1000 * 2 ^ N.of_nat attempt)%N])
            (seq 0 (length fails)))
    with (backoff_steps request (seq 0 (length fails))).
  split; [|split; [|split]].
  - intros v Hv.
    by apply (teacher_loop_first_verdict fails 0%nat max_retries request w content rest v).
  - intros v Hv.
    by apply (regrade_loop_first_verdict fails 0%nat max_retries request w content rest v).
  - intros attempt Hlt. by apply backoff_steps_lookup.
  - by rewrite backoff_steps_length, length_seq.
Qed.

(** X27.  [regrade_question] overwrites or keeps: with a verdict, whatever
    its score, the record gets the score and the rationale of the
    verdict and the time of the clock; without one the record is
    returned as it was.  The other fields are never changed and no file
    is written. *)
Theorem regrading_overwrites_or_keeps (q : pydict) (w : world) :
  let q' := (regrade_question q w).1.1 in
  let w' := (regrade_question q w).2 in
  (forall k, k ∉ grading_outputs -> q' !! k = q !! k)
  /\ match (regrade_question q w).1.2 with
     | Some v =>
         q' !! k_teacher_score = Some (PFloat (teacher_score v))
         /\ q' !! k_teacher_analysis = Some (teacher_analysis v)
         /\ q' !! k_grading_timestamp = Some (PStr (strftime (w_clock w')))
     | None => q' = q
     end
  /\ w_fs w' = w_fs w.
Proof.
  cbv zeta. unfold ReGradingSystem.regrade_question.
  destruct (regrade_call_frame isspace json_loads float_of_str re_search max_retries
              (construct_grading_prompt q) w) as (new & _ & _ & Hf & _).
  destruct (regrade_call (construct_grading_prompt q) w) as [[v|] w1];
    cbn [fst snd] in *; [|done].
  split; [|split; [|done]].
  - intros k (? & ? & ?)%not_grading_output. by rewrite !lookup_insert_ne.
  - split; [|split].
    + rewrite lookup_insert_ne by (by vm_compute). by rewrite lookup_insert_eq.
    + rewrite !lookup_insert_ne by (by vm_compute). by rewrite lookup_insert_eq.
    + by rewrite lookup_insert_eq.
Qed.

End Verdicts.

(** * Closed instances *)

Lemma failed_record_is_skipped_witness :
  AutoScorer.t_questions
    (AutoScorer.score_loop Sample.upper_nonascii
       ([scoring_record [u "A"] [u "A"] 3] ++ Sample.unscorable :: []))
  = map (scored_record Sample.upper_nonascii) [scoring_record [u "A"] [u "A"] 3]
    ++ Sample.unscorable :: map (scored_record Sample.upper_nonascii) []
  /\ EvRecordError 1
       ∈ w_trace (AutoScorer._process_single_file Sample.upper_nonascii Sample.first_path
                    Sample.skipping_world).1
  /\ (AutoScorer._process_single_file Sample.upper_nonascii Sample.first_path
        Sample.skipping_world).2
     = (AutoScorer._process_single_file Sample.upper_nonascii Sample.first_path
          Sample.skipped_world).2
  /\ (AutoScorer._process_single_file Sample.upper_nonascii Sample.first_path
        Sample.skipped_world).2
     = (1%nat, PFloat 3%float).
Proof.
  destruct (failed_record_is_skipped Sample.upper_nonascii
              [scoring_record [u "A"] [u "A"] 3] [] Sample.unscorable)
    as (H1 & _ & _ & _ & Hfile).
  - vm_compute. reflexivity.
  - destruct (Hfile Sample.first_path Sample.skipping_world Sample.skipped_world
                (Sample.questions_document
                   [scoring_record [u "A"] [u "A"] 3; Sample.unscorable]))
      as (Herr & Hsame & _).
    + vm_compute. reflexivity.
    + vm_compute. reflexivity.
    + vm_compute. reflexivity.
    + split; [exact H1|]. split; [exact Herr|]. split.
      * apply Hsame. vm_compute. reflexivity.
      * vm_compute. reflexivity.
Defined.

Lemma scan_selects_zero_scores_witness :
  match ReGradingSystem.scan_and_collect_zero_scores Sample.float_of_str
          (Some [[Sample.file_path]])
          (Sample.world_of [PDict Sample.zero_record; PDict Sample.graded_record])
        !! Sample.file_path with
  | Some zero_indices =>
      zero_indices <> []
      /\ StronglySorted lt zero_indices
      /\ forall i, i ∈ zero_indices
           <-> zero_scored Sample.float_of_str
                 [PDict Sample.zero_record; PDict Sample.graded_record] i
  | None =>
      forall i, ~ zero_scored Sample.float_of_str
                    [PDict Sample.zero_record; PDict Sample.graded_record] i
  end.
Proof.
  apply (scan_selects_zero_scores Sample.float_of_str [[Sample.file_path]]
           (Sample.world_of [PDict Sample.zero_record; PDict Sample.graded_record])
           Sample.file_path
           (Sample.document [PDict Sample.zero_record; PDict Sample.graded_record])).
  - simpl. left.
  - vm_compute. reflexivity.
  - vm_compute. reflexivity.
  - repeat constructor; eexists; (split; [reflexivity|]); intros v Hv;
      vm_compute in Hv; injection Hv as <-; right; eexists; reflexivity.
Defined.

Lemma completed_file_is_left_alone_witness :
  (TeacherGradingSystem.process_json_file Sample.isspace Sample.json_loads
     Sample.float_of_str Sample.strftime Sample.with_suffix 3 true Sample.file_path
     (Sample.world_of [PDict Sample.graded_record])).2
  = Sample.world_of [PDict Sample.graded_record].
Proof.
  apply (completed_file_is_left_alone Sample.isspace Sample.json_loads
           Sample.float_of_str Sample.strftime Sample.with_suffix 3 true
           Sample.file_path (Sample.world_of [PDict Sample.graded_record])
           (Sample.document [PDict Sample.graded_record])
           [PDict Sample.graded_record]).
  - vm_compute. reflexivity.
  - vm_compute. reflexivity.
  - repeat constructor; eexists; (split; [reflexivity|]); vm_compute; eexists; reflexivity.
Defined.

Lemma scored_records_are_passed_over_witness :
  exists exs' new,
    read_json Sample.file_path
      (TeacherGradingSystem.process_json_file Sample.isspace Sample.json_loads
         Sample.float_of_str Sample.strftime Sample.with_suffix 3 true Sample.file_path
         (Sample.world_of [PDict Sample.score_only_record; PDict Sample.ungraded_record])).2
    = Some (PDict (<[k_example := PList exs']>
                     (Sample.document
                        [PDict Sample.score_only_record; PDict Sample.ungraded_record])))
    /\ length exs' = 2%nat
    /\ exs' !! 0%nat = Some (PDict Sample.score_only_record)
    /\ w_trace
         (TeacherGradingSystem.process_json_file Sample.isspace Sample.json_loads
            Sample.float_of_str Sample.strftime Sample.with_suffix 3 true Sample.file_path
            (Sample.world_of [PDict Sample.score_only_record; PDict Sample.ungraded_record])).2
       = [] ++ new
    /\ (length (posts new) <= 3)%nat
    /\ length (posts
                 (w_trace
                    (TeacherGradingSystem.process_json_file Sample.isspace Sample.json_loads
                       Sample.float_of_str Sample.strftime Sample.with_suffix 3 true
                       Sample.file_path
                       (Sample.world_of
                          [PDict Sample.score_only_record; PDict Sample.ungraded_record])).2))
       = 3%nat.
Proof.
  destruct (scored_records_are_passed_over Sample.isspace Sample.json_loads
              Sample.float_of_str Sample.strftime Sample.with_suffix 3 true
              Sample.file_path
              (Sample.world_of [PDict Sample.score_only_record; PDict Sample.ungraded_record])
              (Sample.document [PDict Sample.score_only_record; PDict Sample.ungraded_record])
              [PDict Sample.score_only_record; PDict Sample.ungraded_record])
    as (_ & new & Ht & Hp & _ & [(exs' & H1 & H2 & H3 & _)|(Hnone & _)]).
  - vm_compute. reflexivity.
  - vm_compute. reflexivity.
  - exists exs', new. split; [exact H1|]. split; [exact H2|]. split.
    + apply (H3 0%nat); [reflexivity|]. vm_compute. eexists. reflexivity.
    + split; [exact Ht|]. split; [exact Hp|]. vm_compute. reflexivity.
  - vm_compute in Hnone. discriminate Hnone.
Defined.

Lemma teacher_reply_without_fallback_witness :
  TeacherGradingSystem.parse_reply Sample.isspace Sample.json_loads Sample.float_of_str
    (u "teacher_score: 8")
  = Returned (Verdict (PStr (payload Sample.isspace (u "teacher_score: 8"))) 0%float)
  /\ exists analysis,
       ReGradingSystem.parse_reply Sample.isspace Sample.json_loads Sample.float_of_str
         Sample.re_search (u "teacher_score: 8")
       = Returned (Verdict analysis 8%float).
Proof.
  apply (teacher_reply_without_fallback Sample.isspace Sample.json_loads
           Sample.float_of_str Sample.re_search (u "teacher_score: 8") (u "8") 8%float);
    vm_compute; reflexivity.
Defined.

(** A call against three failing replies, with the default of three
    attempts: no verdict, and the trace of requests and backoffs (the
    last reply is a status, so the last request is followed by a sleep
    as well). *)
Example exhausted_call_trace :
  let request := construct_grading_prompt Sample.score_only_record in
  let '(verdict, w) :=
    TeacherGradingSystem.call_teacher_api Sample.isspace Sample.json_loads
      Sample.float_of_str TeacherGradingSystem.default_max_retries request
      Sample.failing_world in
  verdict = None
  /\ w_trace w = [EvPost request; EvSleep 1000; EvPost request; EvSleep 2000;
                 EvPost request; EvSleep 4000].
Proof. vm_compute. split; reflexivity. Qed.

Lemma normalize_same_items_witness :
  AutoScorer._normalize_answer Sample.upper_nonascii
    (PList [PStr (u "A"); PStr (u "C"); PStr (u "A")])
  = AutoScorer._normalize_answer Sample.upper_nonascii
      (PList [PStr (u "C"); PStr (u "A")]).
Proof.
  apply (normalize_same_items Sample.upper_nonascii).
  intros item. rewrite !elem_of_cons. tauto.
Defined.

Lemma full_and_no_marks_witness :
  AutoScorer._normalize_answer Sample.upper_nonascii (PList [PStr (u "A"); PStr (u "C")])
  <> []
  /\ AutoScorer.score_ratio Sample.upper_nonascii
       (AutoScorer._normalize_answer Sample.upper_nonascii
          (PList [PStr (u "A"); PStr (u "C")]))
       (AutoScorer._normalize_answer Sample.upper_nonascii (PStr (u "c, a, d")))
     = 1%float
  /\ AutoScorer._calculate_score Sample.upper_nonascii
       (AutoScorer._normalize_answer Sample.upper_nonascii
          (PList [PStr (u "A"); PStr (u "C")]))
       (AutoScorer._normalize_answer Sample.upper_nonascii (PStr (u "c, a, d")))
       (PInt 10)
     = Some 10%float.
Proof.
  assert (Hne : AutoScorer._normalize_answer Sample.upper_nonascii
                  (PList [PStr (u "A"); PStr (u "C")]) <> [])
    by (vm_compute; discriminate).
  split; [exact Hne|].
  apply (full_and_no_marks Sample.upper_nonascii (PList [PStr (u "A"); PStr (u "C")])
           (PStr (u "c, a, d")) Hne).
  assert (E1 : AutoScorer._normalize_answer Sample.upper_nonascii
                 (PList [PStr (u "A"); PStr (u "C")]) = [u "A"; u "C"])
    by (vm_compute; reflexivity).
  assert (E2 : AutoScorer._normalize_answer Sample.upper_nonascii (PStr (u "c, a, d"))
               = [u "A"; u "C"; u "D"])
    by (vm_compute; reflexivity).
  rewrite E1, E2. intros x. rewrite !elem_of_cons. tauto.
Defined.

Lemma combined_policy_on_a_raw_answer_witness :
  AutoScorer.is_separate_format [u "BC"] = false
  /\ AutoScorer.score_ratio Sample.upper_nonascii [u "BC"] [u "B"; u "C"; u "D"]
     = 0%float.
Proof.
  split; [reflexivity|].
  destruct (combined_policy_on_a_raw_answer Sample.upper_nonascii
              [u "BC"] [u "B"; u "C"; u "D"] eq_refl) as (_ & Hout & _).
  apply (Hout (u "D")).
  - rewrite !elem_of_cons. tauto.
  - intros opt Hopt. apply list_elem_of_singleton in Hopt. subst opt.
    assert (E : AutoScorer._normalize_answer Sample.upper_nonascii (PStr (u "BC"))
                = [u "B"; u "C"]) by (vm_compute; reflexivity).
    rewrite E, !not_elem_of_cons. repeat split; try discriminate. apply not_elem_of_nil.
Defined.

Lemma scoring_pass_keeps_the_rest_witness :
  exists questions',
    read_json Sample.first_path
      (AutoScorer._process_single_file Sample.upper_nonascii Sample.first_path
         Sample.scoring_world).1
    = Some (PDict (<[u "questions" := PList questions']>
                     (Sample.questions_document [scoring_record [u "A"] [u "A"] 3])))
    /\ length questions' = 1%nat.
Proof.
  destruct (scoring_pass_keeps_the_rest Sample.upper_nonascii Sample.first_path
              Sample.scoring_world
              (Sample.questions_document [scoring_record [u "A"] [u "A"] 3])
              [scoring_record [u "A"] [u "A"] 3])
    as [(questions' & H1 & H2 & _)|(Hnone & _)].
  - vm_compute. reflexivity.
  - vm_compute. reflexivity.
  - exists questions'. split; [exact H1|exact H2].
  - vm_compute in Hnone. discriminate Hnone.
Defined.

Lemma max_files_limits_the_run_witness :
  0 < 1
  /\ match (AutoScorer.run_scoring Sample.upper_nonascii
              (Some [Sample.first_path; Sample.second_path]) (Some 1)
              Sample.scoring_world).1 with
     | None =>
         AutoScorer.scan_result_files (Some [Sample.first_path; Sample.second_path]) = []
     | Some t => Z.of_nat (AutoScorer.completed_files t) <= 1
     end.
Proof.
  split; [lia|].
  apply (max_files_limits_the_run Sample.upper_nonascii
           (Some [Sample.first_path; Sample.second_path]) 1 Sample.scoring_world).
  lia.
Defined.

Lemma payload_of_a_fenced_reply_witness :
  (backtick ∉ u "Here: ")
  /\ (backtick ∉ u " {} ")
  /\ payload Sample.isspace (u "Here: " ++ u "```json" ++ u " {} " ++ u "```" ++ u " done")
     = strip Sample.isspace (u " {} ").
Proof.
  assert (H1 : backtick ∉ u "Here: ")
    by (apply (bool_decide_unpack _); vm_compute; exact I).
  assert (H2 : backtick ∉ u " {} ")
    by (apply (bool_decide_unpack _); vm_compute; exact I).
  split; [exact H1|]. split; [exact H2|].
  destruct (payload_of_a_fenced_reply Sample.isspace (u "Here: ") (u " {} ") (u " done")
              H1 H2) as (Hjson & _ & _).
  apply Hjson. intros H. vm_compute in H. discriminate H.
Defined.

Lemma extraction_takes_the_first_number_witness :
  teacher_score
    (ReGradingSystem._extract_from_raw_text Sample.isspace Sample.float_of_str
       Sample.re_search_final (u "最终得分: 8"))
  = 8%float.
Proof.
  apply (extraction_takes_the_first_number Sample.isspace Sample.float_of_str
           Sample.re_search_final (u "最终得分: 8") (u "8") 8%float 1%nat
           (nth 1 ReGradingSystem.score_patterns [])).
  - vm_compute. reflexivity.
  - apply Forall_cons. split; [vm_compute; exact I|by apply Forall_nil].
  - vm_compute. reflexivity.
  - vm_compute. reflexivity.
Defined.

Lemma grading_writes_three_fields_witness :
  exists (q' : pydict) (w1 : world) (score : float),
    TeacherGradingSystem.grade_single_question Sample.isspace Sample.json_loads
      Sample.float_of_str Sample.strftime 3 (PDict Sample.score_only_record)
      (Sample.world_of [PDict Sample.score_only_record])
    = Some (PDict q', w1)
    /\ q' !! k_teacher_score = Some (PFloat score)
    /\ q' !! u "question" = Sample.score_only_record !! u "question".
Proof.
  destruct (grading_writes_three_fields Sample.isspace Sample.json_loads
              Sample.float_of_str Sample.strftime 3 Sample.score_only_record
              (Sample.world_of [PDict Sample.score_only_record]))
    as (q' & w1 & score & H1 & H2 & H3 & _).
  - right. vm_compute. reflexivity.
  - exists q', w1, score. split; [exact H1|]. split; [exact H3|].
    apply H2. apply (bool_decide_unpack _). vm_compute. exact I.
Defined.

Lemma grading_run_resumes_witness :
  (TeacherGradingSystem.process_json_file Sample.isspace Sample.json_loads
     Sample.float_of_str Sample.strftime Sample.with_suffix 3 true Sample.file_path
     (Sample.world_of [PDict Sample.ungraded_record])).1 = true
  /\ TeacherGradingSystem.process_json_file Sample.isspace Sample.json_loads
       Sample.float_of_str Sample.strftime Sample.with_suffix 3 true Sample.file_path
       (TeacherGradingSystem.process_json_file Sample.isspace Sample.json_loads
          Sample.float_of_str Sample.strftime Sample.with_suffix 3 true Sample.file_path
          (Sample.world_of [PDict Sample.ungraded_record])).2
     = (true,
        (TeacherGradingSystem.process_json_file Sample.isspace Sample.json_loads
           Sample.float_of_str Sample.strftime Sample.with_suffix 3 true Sample.file_path
           (Sample.world_of [PDict Sample.ungraded_record])).2).
Proof.
  assert (Hok : (TeacherGradingSystem.process_json_file Sample.isspace Sample.json_loads
                   Sample.float_of_str Sample.strftime Sample.with_suffix 3 true
                   Sample.file_path (Sample.world_of [PDict Sample.ungraded_record])).1
                = true) by (vm_compute; reflexivity).
  split; [exact Hok|].
  exact (grading_run_resumes Sample.isspace Sample.json_loads Sample.float_of_str
           Sample.strftime Sample.with_suffix 3 true Sample.file_path
           (Sample.world_of [PDict Sample.ungraded_record]) Hok).
Defined.

Lemma grading_saves_every_fifth_record_witness :
  exists new,
    w_trace (TeacherGradingSystem.process_json_file Sample.isspace Sample.json_loads
               Sample.float_of_str Sample.strftime Sample.with_suffix 3 true
               Sample.file_path (Sample.world_of [PDict Sample.ungraded_record])).2
    = w_trace (Sample.world_of [PDict Sample.ungraded_record]) ++ new
    /\ length (writes new) = 2%nat.
Proof.
  destruct (grading_saves_every_fifth_record Sample.isspace Sample.json_loads
              Sample.float_of_str Sample.strftime Sample.with_suffix 3 true
              Sample.file_path (Sample.world_of [PDict Sample.ungraded_record])
              (Sample.document [PDict Sample.ungraded_record])
              [PDict Sample.ungraded_record])
    as (new & H1 & H2).
  - vm_compute. reflexivity.
  - vm_compute. reflexivity.
  - vm_compute. reflexivity.
  - vm_compute. lia.
  - exists new. split; [exact H1|]. rewrite H2. vm_compute. reflexivity.
Defined.

Lemma strategy_filter_selects_witness :
  u "CoT" <> []
  /\ w_fs (TeacherGradingSystem.run Sample.isspace Sample.json_loads Sample.float_of_str
             Sample.strftime Sample.with_suffix 3 true (Some (u "CoT"))
             (Some Sample.two_strategies) Sample.two_strategies_world).2
       !! Sample.other_path
     = w_fs Sample.two_strategies_world !! Sample.other_path.
Proof.
  split; [discriminate|].
  apply (strategy_filter_selects Sample.isspace Sample.json_loads Sample.float_of_str
           Sample.strftime Sample.with_suffix 3 true (u "CoT") Sample.two_strategies
           Sample.two_strategies_world Sample.other_path).
  - discriminate.
  - vm_compute. eexists. reflexivity.
  - intros d Hd Hp. unfold Sample.two_strategies in Hd.
    apply elem_of_cons in Hd as [->|Hd].
    + apply list_elem_of_singleton in Hp. discriminate Hp.
    + apply list_elem_of_singleton in Hd. subst d. vm_compute. reflexivity.
Defined.

Lemma regrading_keeps_the_other_records_witness :
  exists exs' new,
    read_json Sample.file_path
      (ReGradingSystem.process_file Sample.isspace Sample.json_loads Sample.float_of_str
         Sample.strftime Sample.with_suffix Sample.re_search 3 true Sample.file_path
         [0%nat] (Sample.world_of [PDict Sample.zero_record; PDict Sample.graded_record])).2
    = Some (PDict (<[k_example := PList exs']>
                     (Sample.document
                        [PDict Sample.zero_record; PDict Sample.graded_record])))
    /\ exs' !! 1%nat = Some (PDict Sample.graded_record)
    /\ (length (posts new) <= 3)%nat.
Proof.
  destruct (regrading_keeps_the_other_records Sample.isspace Sample.json_loads
              Sample.float_of_str Sample.strftime Sample.with_suffix Sample.re_search
              3 true Sample.file_path [0%nat]
              (Sample.world_of [PDict Sample.zero_record; PDict Sample.graded_record])
              (Sample.document [PDict Sample.zero_record; PDict Sample.graded_record])
              [PDict Sample.zero_record; PDict Sample.graded_record])
    as (new & _ & H4 & _ & [(exs' & H1 & (_ & H2 & _))|(Hnone & _)]).
  - vm_compute. reflexivity.
  - vm_compute. reflexivity.
  - exists exs', new. split; [exact H1|]. split.
    + rewrite H2; [reflexivity|]. apply (bool_decide_unpack _). vm_compute. exact I.
    + exact H4.
  - vm_compute in Hnone. discriminate Hnone.
Defined.

Lemma regrading_offline_keeps_every_record_witness :
  (ReGradingSystem.process_file Sample.isspace Sample.json_loads Sample.float_of_str
     Sample.strftime Sample.with_suffix Sample.re_search 3 true Sample.file_path
     [0%nat] (Sample.world_of [PDict Sample.zero_record; PDict Sample.graded_record])).1
  = true
  /\ read_json Sample.file_path
       (ReGradingSystem.process_file Sample.isspace Sample.json_loads Sample.float_of_str
          Sample.strftime Sample.with_suffix Sample.re_search 3 true Sample.file_path
          [0%nat] (Sample.world_of [PDict Sample.zero_record; PDict Sample.graded_record])).2
     = Some (PDict (Sample.document
                      [PDict Sample.zero_record; PDict Sample.graded_record])).
Proof.
  destruct (regrading_offline_keeps_every_record Sample.isspace Sample.json_loads
              Sample.float_of_str Sample.strftime Sample.with_suffix Sample.re_search
              3 true Sample.file_path [0%nat]
              (Sample.world_of [PDict Sample.zero_record; PDict Sample.graded_record])
              (Sample.document [PDict Sample.zero_record; PDict Sample.graded_record])
              [PDict Sample.zero_record; PDict Sample.graded_record])
    as (H1 & H2).
  - reflexivity.
  - vm_compute. reflexivity.
  - vm_compute. reflexivity.
  - repeat constructor; eexists; (split; [reflexivity|]); vm_compute; exact I.
  - assert (Henc : encodable
                     (PDict (Sample.document
                               [PDict Sample.zero_record; PDict Sample.graded_record]))
                   = true) by (vm_compute; reflexivity).
    destruct (H2 Henc) as (Hread & _).
    split; [|exact Hread]. rewrite H1. exact Henc.
Defined.

Lemma final_zero_count_agrees_with_scan_witness :
  exists questions zero,
    ReGradingSystem.print_final_statistics Sample.float_of_str
      (Some [[Sample.file_path]])
      (Sample.world_of [PDict Sample.zero_record; PDict Sample.graded_record])
    = Some (questions, zero)
    /\ zero = 1%nat.
Proof.
  destruct (final_zero_count_agrees_with_scan Sample.float_of_str [[Sample.file_path]]
              (Sample.world_of [PDict Sample.zero_record; PDict Sample.graded_record]))
    as (questions & zero & H1 & H2).
  - intros f data Hf Hread. apply list_elem_of_singleton in Hf. subst f.
    vm_compute in Hread. injection Hread as <-. vm_compute. eexists. reflexivity.
  - exists questions, zero. split; [exact H1|]. rewrite H2. vm_compute. reflexivity.
Defined.

Lemma first_verdict_ends_the_call_witness :
  (TeacherGradingSystem.call_teacher_api Sample.isspace Sample.json_loads
     Sample.float_of_str 3 (construct_grading_prompt Sample.ungraded_record)
     Sample.recovering_world).1
  = Some (Verdict (PStr (u "teacher_score: 8")) 0%float)
  /\ (ReGradingSystem.call_teacher_api Sample.isspace Sample.json_loads
        Sample.float_of_str Sample.re_search 3
        (construct_grading_prompt Sample.ungraded_record) Sample.recovering_world).1
     = Some (Verdict (PStr (u "teacher_score: 8")) 8%float)
  /\ w_trace
       (ReGradingSystem.call_teacher_api Sample.isspace Sample.json_loads
          Sample.float_of_str Sample.re_search 3
          (construct_grading_prompt Sample.ungraded_record) Sample.recovering_world).2
     = [EvPost (construct_grading_prompt Sample.ungraded_record); EvSleep 1000;
        EvPost (construct_grading_prompt Sample.ungraded_record)].
Proof.
  destruct (first_verdict_ends_the_call Sample.isspace Sample.json_loads
              Sample.float_of_str Sample.re_search 3 [NetError] []
              (u "teacher_score: 8") (construct_grading_prompt Sample.ungraded_record)
              Sample.recovering_world)
    as (Hteacher & Hregrade & _ & _).
  - reflexivity.
  - repeat constructor.
  - simpl. lia.
  - split; [|split].
    + apply Hteacher. vm_compute. reflexivity.
    + apply Hregrade. vm_compute. reflexivity.
    + destruct (Hregrade (Verdict (PStr (u "teacher_score: 8")) 8%float)) as (_ & _ & Ht).
      * vm_compute. reflexivity.
      * exact Ht.
Defined.

(** The claim C7 as the specification words it (the uppercase Latin
    letters found in the input, case-insensitively) fails on a text that
    holds no Latin letter in either case: the sharp s gives the letter S
    and the dotless i gives the letter I, the letters of their upper
    case.  This is so for every upper case that maps the two characters
    as the Unicode tables do. *)
Lemma normalize_answer_finds_letters_not_in_the_text :
  AutoScorer._normalize_answer Sample.unicode_upper (PStr [223%N]) = [u "S"]
  /\ AutoScorer._normalize_answer Sample.unicode_upper (PStr [305%N]) = [u "I"]
  /\ Forall (fun c => is_AZ c = false /\ is_az c = false) [223%N; 305%N]
  /\ (u "S" ∉ [[223%N]]) /\ (u "s" ∉ [[223%N]])
  /\ (forall upper_nonascii : N -> pystr,
        upper_nonascii 223%N = u "SS" ->
        AutoScorer._normalize_answer upper_nonascii (PStr [223%N]) = [u "S"])
  /\ (forall upper_nonascii : N -> pystr,
        upper_nonascii 305%N = u "I" ->
        AutoScorer._normalize_answer upper_nonascii (PStr [305%N]) = [u "I"]).
Proof.
  split; [vm_compute; reflexivity|]. split; [vm_compute; reflexivity|].
  split; [repeat constructor|].
  split; [apply (bool_decide_unpack _); vm_compute; exact I|].
  split; [apply (bool_decide_unpack _); vm_compute; exact I|].
  split; intros upper_nonascii Hup;
    unfold AutoScorer._normalize_answer, AutoScorer.letters, upper; cbn [flat_map];
    unfold upper_char.
  - change (223 <? 128)%N with false. cbv iota. rewrite Hup. vm_compute. reflexivity.
  - change (305 <? 128)%N with false. cbv iota. rewrite Hup. vm_compute. reflexivity.
Qed.

(** A document that cannot be encoded is lost by the write that follows
    the loop.  The scoring pass over the file of [Sample.surrogate_world]
    scores its first record, reports the second, fails to write, returns
    (0, 0) and leaves no document, where the file without the second
    record returns (1, 3.0).  The first grading and the regrading, with
    no backup, return [False] and leave no document either; with the
    backup it is the backup that fails, before any request, and the file
    is as it was. *)
Example unencodable_document_is_lost :
  let scored :=
    AutoScorer._process_single_file Sample.upper_nonascii Sample.first_path
      Sample.surrogate_world in
  let w := Sample.world_of [PDict Sample.surrogate_record] in
  let graded backup :=
    TeacherGradingSystem.process_json_file Sample.isspace Sample.json_loads
      Sample.float_of_str Sample.strftime Sample.with_suffix 3 backup Sample.file_path w in
  let regraded backup :=
    ReGradingSystem.process_file Sample.isspace Sample.json_loads Sample.float_of_str
      Sample.strftime Sample.with_suffix Sample.re_search 3 backup Sample.file_path
      [0%nat] w in
  scored.2 = (0%nat, PInt 0)
  /\ w_fs scored.1 !! Sample.first_path = Some OtherFile
  /\ w_trace scored.1 = [EvRecordError 1; EvWriteError Sample.first_path]
  /\ (AutoScorer._process_single_file Sample.upper_nonascii Sample.first_path
        Sample.skipped_world).2 = (1%nat, PFloat 3%float)
  /\ (graded false).1 = false
  /\ read_json Sample.file_path (graded false).2 = None
  /\ write_errors (w_trace (graded false).2) = [EvWriteError Sample.file_path]
  /\ length (posts (w_trace (graded false).2)) = 3%nat
  /\ (regraded false).1 = false
  /\ read_json Sample.file_path (regraded false).2 = None
  /\ (graded true).1 = false
  /\ read_json Sample.file_path (graded true).2 = read_json Sample.file_path w
  /\ w_trace (graded true).2
     = [EvWriteError (Sample.with_suffix Sample.file_path (u ".json.backup"))].
Proof. vm_compute. repeat split; reflexivity. Qed.
